(** * Offline-first synchronisation of the BoxFinder mobile client

    A shallow embedding of the client services

      - [mobile/src/services/networkStatus.ts]  (module [NetworkStatus]),
      - [mobile/src/services/syncQueue.ts]      (module [SyncQueue]),
      - [services/offlineStorage]               (module [OfflineStorage]),
      - [services/api]                          (module [ApiService]),

    followed by the properties of the mutation queue ([QueueProperties]),
    of the drain ([DrainProperties]), of the connectivity monitor
    ([MonitorProperties]), of the entity cache ([CacheProperties]) and of
    the offline write path ([ApiProperties]).

    Modelling conventions.

      - AsyncStorage is a reliable key/value store: every blob is read back
        as it was written.  A key that was never written reads as [None].
        What [JSON.stringify] changes is modelled where it matters: a
        property holding [undefined] is left out ([stringify]).
      - Every [await] runs to completion before the next statement of the
        same function: one call is one state transformer, and calls do not
        interleave.  The drain is also followed from one [await] to the
        next ([SyncQueue.resume]), so that calls made while it runs can be
        placed between its steps; [SyncQueue.processQueue] is the drain
        that nothing interleaves with.
      - [Date.now()], [new Date().toISOString()] and [Math.random()] are
        inputs: the strings they produce are arguments of the function that
        reads them, or come from a stream of readings ([Entropy]).
      - [new Date(s).getTime()] is a function [getTime : string -> Z] of the
        stored ISO string, a parameter of everything that sorts.
      - The remote API is a parameter ([Remote]): each request answers or
        rejects, and may change the server. *)

From stdpp Require Import gmap strings list fin_maps sorting pretty.
From Stdlib Require Import ZArith Lia.

Open Scope Z_scope.
Open Scope nat_scope.

(** ** JSON values and JavaScript objects

    [Payload] is a payload as it sits in storage or in a request body, that
    is after [JSON.stringify].  [Data] is the in-memory value handed to
    [addToQueue] ([data: any]): an object whose properties may hold
    [undefined], which [JSON.stringify] leaves out. *)

Inductive Json :=
| JNull
| JStr (s : string)
| JNum (n : Z)
| JStrings (l : list string).

Inductive Payload :=
| PNull
| PObject (fields : gmap string Json).

Inductive Data :=
| DNull
| DObject (props : gmap string (option Json)).   (* [None]: the property is [undefined] *)

Definition parse (p : Payload) : Data :=
  match p with
  | PNull => DNull
  | PObject o => DObject (Some <$> o)
  end.

Definition stringify (d : Data) : Payload :=
  match d with
  | DNull => PNull
  | DObject o => PObject (omap (λ v, v) o)
  end.

(** Object spread [...x]: spreading [null] contributes no property. *)
Definition spread (d : Data) : gmap string (option Json) :=
  match d with
  | DNull => ∅
  | DObject o => o
  end.

(** [{...existing, ...incoming}]: the properties of [incoming] win. *)
Definition object_spread (existing incoming : Data) : Data :=
  DObject (spread incoming ∪ spread existing).

(** The merged payload as the queue persists it: [existing] was read from
    storage, [incoming] is the caller's object. *)
Definition shallow_merge (existing : Payload) (incoming : Data) : Payload :=
  stringify (object_spread (parse existing) incoming).

(** The properties of a stored payload; [null] has none. *)
Definition fields_of (p : Payload) : gmap string Json :=
  match p with
  | PNull => ∅
  | PObject o => o
  end.

(** An optional property [p?: A] of a DTO: left out, set to [undefined], or
    set to a value. *)
Inductive Optional (A : Type) :=
| Absent
| Undefined
| Present (a : A).
Arguments Absent {A}.
Arguments Undefined {A}.
Arguments Present {A} a.

(** [o ?? d] *)
Definition nullish {A} (o : Optional A) (d : A) : A :=
  match o with
  | Present a => a
  | _ => d
  end.

(** The value read from the property, [None] for [undefined]. *)
Definition read {A} (o : Optional A) : option A :=
  match o with
  | Present a => Some a
  | _ => None
  end.

(** Truthiness of a string: only the empty string is falsy. *)
Definition truthy (s : string) : bool := negb (bool_decide (s = "")).

(** [s || null] for an optional string property. *)
Definition or_null (o : Optional string) : option string :=
  match o with
  | Present s => if truthy s then Some s else None
  | _ => None
  end.

Definition with_prop {A} (key : string) (enc : A → Json) (o : Optional A)
    (obj : gmap string (option Json)) : gmap string (option Json) :=
  match o with
  | Absent => obj
  | Undefined => <[key := None]> obj
  | Present a => <[key := Some (enc a)]> obj
  end.

(** ** networkStatus.ts *)

Module NetworkStatus.

(** A listener is a function object; the [Set] holds it by identity. *)
Definition Listener := nat.

(** One invocation [listener(isConnected)]. *)
Definition Callback := (Listener * bool)%type.

(** [NetInfoState.isConnected : boolean | null]. *)
Record NetInfoState := { ni_isConnected : option bool }.

Record t := {
  listeners : list Listener;       (* Set<NetworkStatusListener>, insertion order *)
  isConnected : bool;
  unsubscribe : bool;              (* true when the field is not null *)
  pending_fetch : nat              (* NetInfo.fetch() promises of initialize not yet resolved *)
}.

Definition init : t :=
  {| listeners := []; isConnected := true; unsubscribe := false; pending_fetch := 0 |}.

Definition set_isConnected (b : bool) (n : t) : t :=
  {| listeners := listeners n; isConnected := b;
     unsubscribe := unsubscribe n; pending_fetch := pending_fetch n |}.

Definition set_listeners (ls : list Listener) (n : t) : t :=
  {| listeners := ls; isConnected := isConnected n;
     unsubscribe := unsubscribe n; pending_fetch := pending_fetch n |}.

(** [state.isConnected ?? false] *)
Definition reported (state : NetInfoState) : bool :=
  default false (ni_isConnected state).

Definition notifyListeners (n : t) : list Callback :=
  (λ listener, (listener, isConnected n)) <$> listeners n.

(** [initialize()]: returns at once when already subscribed; otherwise
    subscribes to the platform feed and starts the seeding probe. *)
Definition initialize (n : t) : t :=
  if unsubscribe n then n
  else {| listeners := listeners n; isConnected := isConnected n;
          unsubscribe := true; pending_fetch := S (pending_fetch n) |}.

(** The callback given to [NetInfo.addEventListener]. *)
Definition onNetInfoEvent (state : NetInfoState) (n : t) : t * list Callback :=
  let wasConnected := isConnected n in
  let n' := set_isConnected (reported state) n in
  if bool_decide (wasConnected ≠ isConnected n')
  then (n', notifyListeners n')
  else (n', []).

(** The [then] callback of the [NetInfo.fetch()] of [initialize]. *)
Definition onInitialFetch (state : NetInfoState) (n : t) : t * list Callback :=
  let n' := set_isConnected (reported state) n in
  (n', notifyListeners n').

Definition addListener (listener : Listener) (n : t) : t * list Callback :=
  let ls := if bool_decide (listener ∈ listeners n)
            then listeners n else listeners n ++ [listener] in
  (set_listeners ls n, [(listener, isConnected n)]).

(** The function returned by [addListener]. *)
Definition removeListener (listener : Listener) (n : t) : t :=
  set_listeners (filter (λ l, l ≠ listener) (listeners n)) n.

Definition getIsConnected (n : t) : bool := isConnected n.

(** [checkConnection()]: [state] is what [NetInfo.fetch()] resolves to. *)
Definition checkConnection (state : NetInfoState) (n : t) : bool * t :=
  let n' := set_isConnected (reported state) n in
  (isConnected n', n').

Definition cleanup (n : t) : t :=
  {| listeners := []; isConnected := isConnected n;
     unsubscribe := false; pending_fetch := pending_fetch n |}.

(** What can happen to the manager: calls of the application and
    deliveries of the platform.  The platform feed delivers only while
    the subscription is held, and a probe resolves only if one was
    started. *)
Inductive Action :=
| Initialize
| NetInfoEvent (state : NetInfoState)
| InitialFetchResolved (state : NetInfoState)
| AddListener (listener : Listener)
| RemoveListener (listener : Listener)
| CheckConnection (state : NetInfoState)
| Cleanup.

Definition step (a : Action) (n : t) : t * list Callback :=
  match a with
  | Initialize => (initialize n, [])
  | NetInfoEvent state =>
      if unsubscribe n then onNetInfoEvent state n else (n, [])
  | InitialFetchResolved state =>
      match pending_fetch n with
      | O => (n, [])
      | S k =>
          onInitialFetch state
            {| listeners := listeners n; isConnected := isConnected n;
               unsubscribe := unsubscribe n; pending_fetch := k |}
      end
  | AddListener listener => addListener listener n
  | RemoveListener listener => (removeListener listener n, [])
  | CheckConnection state => ((checkConnection state n).2, [])
  | Cleanup => (cleanup n, [])
  end.

(** A run of actions, with every callback it produced, in order. *)
Fixpoint run (actions : list Action) (n : t) : t * list Callback :=
  match actions with
  | [] => (n, [])
  | a :: rest =>
      let '(n1, cbs1) := step a n in
      let '(n2, cbs2) := run rest n1 in
      (n2, cbs1 ++ cbs2)
  end.

(** The values of a sequence of reports that differ from the value known
    just before them. *)
Fixpoint transitions (current : bool) (values : list bool) : list bool :=
  match values with
  | [] => []
  | v :: rest =>
      if bool_decide (current ≠ v) then v :: transitions v rest
      else transitions v rest
  end.

(** One callback per listener, in the order of the set. *)
Definition broadcast (n : t) (value : bool) : list Callback :=
  (λ listener, (listener, value)) <$> listeners n.

(** The value a listener was last called with, in a record of callbacks. *)
Definition heard (listener : Listener) (cbs : list Callback) : option bool :=
  snd <$> last (filter (λ cb, cb.1 = listener) cbs).

(** Every subscribed listener was last called with the value the manager
    holds. *)
Definition in_sync (n : t) (cbs : list Callback) : Prop :=
  ∀ listener, listener ∈ listeners n → heard listener cbs = Some (isConnected n).

Definition is_check (a : Action) : bool :=
  match a with
  | CheckConnection _ => true
  | _ => false
  end.

End NetworkStatus.

(** ** syncQueue.ts *)

Module SyncQueue.

Inductive SyncOperationType := CREATE | UPDATE | DELETE.
Inductive SyncEntityType := container | item.

#[export] Instance SyncOperationType_eq_dec : EqDecision SyncOperationType.
Proof. solve_decision. Defined.
#[export] Instance SyncEntityType_eq_dec : EqDecision SyncEntityType.
Proof. solve_decision. Defined.

Record SyncOperation := {
  op_id : string;
  op_type : SyncOperationType;
  op_entity : SyncEntityType;
  op_entityId : string;
  op_data : Payload;
  op_timestamp : string;
  op_retries : nat
}.

Definition set_data (d : Payload) (op : SyncOperation) : SyncOperation :=
  {| op_id := op_id op; op_type := op_type op; op_entity := op_entity op;
     op_entityId := op_entityId op; op_data := d;
     op_timestamp := op_timestamp op; op_retries := op_retries op |}.

Definition set_timestamp (ts : string) (op : SyncOperation) : SyncOperation :=
  {| op_id := op_id op; op_type := op_type op; op_entity := op_entity op;
     op_entityId := op_entityId op; op_data := op_data op;
     op_timestamp := ts; op_retries := op_retries op |}.

Definition set_retries (r : nat) (op : SyncOperation) : SyncOperation :=
  {| op_id := op_id op; op_type := op_type op; op_entity := op_entity op;
     op_entityId := op_entityId op; op_data := op_data op;
     op_timestamp := op_timestamp op; op_retries := r |}.

(** The object: the blob under [SYNC_QUEUE_KEY] and the private flag.
    The listener set only feeds the pending count to the user interface
    and is left out. *)
Record t := {
  stored : option (list SyncOperation);
  isSyncing : bool
}.

Definition init : t := {| stored := None; isSyncing := false |}.

Definition set_isSyncing (b : bool) (s : t) : t :=
  {| stored := stored s; isSyncing := b |}.

(** [data ? JSON.parse(data) : []] *)
Definition getQueue (s : t) : list SyncOperation := default [] (stored s).

Definition saveQueue (queue : list SyncOperation) (s : t) : t :=
  {| stored := Some queue; isSyncing := isSyncing s |}.

(** [op => op.entity === entity && op.entityId === entityId] *)
Definition targets (entity : SyncEntityType) (entityId : string)
    (op : SyncOperation) : Prop :=
  op_entity op = entity ∧ op_entityId op = entityId.

#[export] Instance targets_dec entity entityId op :
  Decision (targets entity entityId op).
Proof. unfold targets. apply _. Defined.

(** [`${Date.now()}-${Math.random().toString(36).substr(2, 9)}`] *)
Definition generateId (dateNow random : string) : string :=
  dateNow +:+ "-" +:+ random.

(** The body of [addToQueue] between [getQueue] and [saveQueue].
    [id] is [generateId()], [now] is [new Date().toISOString()].  The queue
    holds payloads as [saveQueue] serialises them. *)
Definition coalesce (id now : string) (type : SyncOperationType)
    (entity : SyncEntityType) (entityId : string) (data : Data)
    (queue : list SyncOperation) : list SyncOperation :=
  let operation :=
    {| op_id := id; op_type := type; op_entity := entity;
       op_entityId := entityId; op_data := stringify data;
       op_timestamp := now; op_retries := 0 |} in
  match list_find (targets entity entityId) queue with
  | Some (existingIndex, existing) =>
      match type with
      | DELETE =>
          match op_type existing with
          | CREATE => delete existingIndex queue
          | _ => <[existingIndex := operation]> queue
          end
      | UPDATE =>
          match op_type existing with
          | CREATE =>
              <[existingIndex :=
                  set_data (shallow_merge (op_data existing) data) existing]> queue
          | _ =>
              <[existingIndex :=
                  set_timestamp now
                    (set_data (shallow_merge (op_data existing) data) existing)]> queue
          end
      | CREATE => queue
      end
  | None => queue ++ [operation]
  end.

Definition addToQueue (id now : string) (type : SyncOperationType)
    (entity : SyncEntityType) (entityId : string) (data : Data)
    (s : t) : string * t :=
  let queue := getQueue s in
  (id, saveQueue (coalesce id now type entity entityId data queue) s).

Definition removeFromQueue (operationId : string) (s : t) : t :=
  let queue := getQueue s in
  let filtered := filter (λ op, op_id op ≠ operationId) queue in
  saveQueue filtered s.

Definition getPendingCount (s : t) : nat := length (getQueue s).

Definition clearQueue (s : t) : t :=
  {| stored := None; isSyncing := isSyncing s |}.

Record Counts := { success : nat; failed : nat }.

Definition no_counts : Counts := {| success := 0; failed := 0 |}.
Definition incr_success (c : Counts) : Counts :=
  {| success := S (success c); failed := failed c |}.
Definition incr_failed (c : Counts) : Counts :=
  {| success := success c; failed := S (failed c) |}.

(** What awaiting [executor(operation)] gives: the promise resolves to a
    boolean or rejects. *)
Inductive ExecResult := Resolved (result : bool) | Rejected.

Section Drain.
Context (getTime : string → Z).

(** [queue.sort((a, b) => getTime(a.timestamp) - getTime(b.timestamp))].
    [Array.prototype.sort] is stable; insertion from the right puts an
    element in front of the first one that does not precede it. *)
Fixpoint sort_insert (op : SyncOperation) (sorted : list SyncOperation)
    : list SyncOperation :=
  match sorted with
  | [] => [op]
  | x :: rest =>
      if (getTime (op_timestamp op) <=? getTime (op_timestamp x))%Z
      then op :: x :: rest
      else x :: sort_insert op rest
  end.

Definition sort_by_timestamp (queue : list SyncOperation) : list SyncOperation :=
  foldr sort_insert [] queue.

Context {E : Type}.
Context (executor : SyncOperation → E → ExecResult * E).

(** One iteration of [for (const operation of queue)]. *)
Definition process_operation (acc : Counts * t * E) (operation : SyncOperation)
    : Counts * t * E :=
  let '(c, s, e) := acc in
  match executor operation e with
  | (Resolved true, e') =>
      (incr_success c, removeFromQueue (op_id operation) s, e')
  | (Resolved false, e') =>
      let operation' := set_retries (S (op_retries operation)) operation in
      if 3 <=? op_retries operation'
      then (incr_failed c, removeFromQueue (op_id operation') s, e')
      else
        let currentQueue := getQueue s in
        match list_find (λ op, op_id op = op_id operation') currentQueue with
        | Some (index, _) =>
            (c, saveQueue (<[index := operation']> currentQueue) s, e')
        | None => (c, s, e')
        end
  | (Rejected, e') => (incr_failed c, s, e')
  end.

Definition process_all (ops : list SyncOperation) (acc : Counts * t * E)
    : Counts * t * E :=
  foldl process_operation acc ops.

(** [processQueue(executor)], as one call that nothing interleaves with;
    [probe] is what the [NetInfo.fetch()] of
    [networkStatus.checkConnection()] resolves to.  The same function is
    followed between its awaits by [resume] below. *)
Definition processQueue (probe : NetworkStatus.NetInfoState)
    (n : NetworkStatus.t) (s : t) (e : E)
    : Counts * NetworkStatus.t * t * E :=
  if isSyncing s then (no_counts, n, s, e)
  else
    let '(isConnected, n') := NetworkStatus.checkConnection probe n in
    if negb isConnected then (no_counts, n', s, e)
    else
      let s1 := set_isSyncing true s in
      let queue := sort_by_timestamp (getQueue s1) in
      let '(c, s2, e') := process_all queue (no_counts, s1, e) in
      (c, n', set_isSyncing false s2, e').

End Drain.

(** An executor that also writes down each operation it is given and what
    it answered. *)
Definition traced {E : Type} (executor : SyncOperation → E → ExecResult * E)
    (operation : SyncOperation) (el : E * list (SyncOperation * ExecResult))
    : ExecResult * (E * list (SyncOperation * ExecResult)) :=
  let '(r, e') := executor operation el.1 in
  (r, (e', el.2 ++ [(operation, r)])).

(** *** The drain between its awaits

    [processQueue] is an [async] function: between two of its [await]s other
    calls run.  A call of [processQueue] is followed here from one awaited
    operation to the next; the code between two awaits runs in one piece. *)

(** Where a call of [processQueue] stands: the operation it awaits, with the
    local variables it will need when resumed.  [c] holds [success] and
    [failed] as they will be once the awaited operation has returned. *)
Inductive Drain :=
| AwaitCheckConnection
    (* past the guard, in [await networkStatus.checkConnection()] *)
| AwaitGetQueue
    (* flag raised, in [await this.getQueue()] *)
| AwaitExecutor (operation : SyncOperation) (rest : list SyncOperation) (c : Counts)
    (* in [await executor(operation)] *)
| AwaitRemoveRead (operationId : string) (rest : list SyncOperation) (c : Counts)
    (* in [removeFromQueue], at [await this.getQueue()] *)
| AwaitRemoveSave (filtered : list SyncOperation) (rest : list SyncOperation)
    (c : Counts)
    (* in [removeFromQueue], at [await this.saveQueue(filtered)] *)
| AwaitRetryRead (operation : SyncOperation) (rest : list SyncOperation)
    (c : Counts)
    (* retry branch, at [await this.getQueue()] *)
| AwaitRetrySave (currentQueue : list SyncOperation) (rest : list SyncOperation)
    (c : Counts)
    (* retry branch, at [await this.saveQueue(currentQueue)] *)
| Returned (c : Counts).

(** The head of the [for] loop: the next operation goes to the executor, or
    the loop is over and [finally] lowers the flag. *)
Definition next_operation (rest : list SyncOperation) (c : Counts) (s : t)
    : Drain * t :=
  match rest with
  | operation :: rest' => (AwaitExecutor operation rest' c, s)
  | [] => (Returned c, set_isSyncing false s)
  end.

(** The call itself, up to its first [await]: the guard. *)
Definition call_processQueue (s : t) : Drain :=
  if isSyncing s then Returned no_counts else AwaitCheckConnection.

Section Awaits.
Context (getTime : string → Z).
Context {E : Type}.
Context (executor : SyncOperation → E → ExecResult * E).

(** The awaited operation completes and the call runs up to its next
    [await].  [fetched] is what [NetInfo.fetch()] resolves to; it is read by
    a call that awaits the connectivity check only. *)
Definition resume (fetched : NetworkStatus.NetInfoState) (d : Drain)
    (st : NetworkStatus.t * t * E) : Drain * (NetworkStatus.t * t * E) :=
  let '(n, s, e) := st in
  match d with
  | AwaitCheckConnection =>
      let '(isConnected, n') := NetworkStatus.checkConnection fetched n in
      if negb isConnected then (Returned no_counts, (n', s, e))
      else (AwaitGetQueue, (n', set_isSyncing true s, e))
  | AwaitGetQueue =>
      let '(d', s') :=
        next_operation (sort_by_timestamp getTime (getQueue s)) no_counts s in
      (d', (n, s', e))
  | AwaitExecutor operation rest c =>
      match executor operation e with
      | (Resolved true, e') =>
          (AwaitRemoveRead (op_id operation) rest (incr_success c), (n, s, e'))
      | (Resolved false, e') =>
          let operation' := set_retries (S (op_retries operation)) operation in
          if 3 <=? op_retries operation'
          then (AwaitRemoveRead (op_id operation') rest (incr_failed c),
                (n, s, e'))
          else (AwaitRetryRead operation' rest c, (n, s, e'))
      | (Rejected, e') =>
          let '(d', s') := next_operation rest (incr_failed c) s in
          (d', (n, s', e'))
      end
  | AwaitRemoveRead operationId rest c =>
      (AwaitRemoveSave (filter (λ op, op_id op ≠ operationId) (getQueue s))
         rest c,
       (n, s, e))
  | AwaitRemoveSave filtered rest c =>
      let '(d', s') := next_operation rest c (saveQueue filtered s) in
      (d', (n, s', e))
  | AwaitRetryRead operation rest c =>
      let currentQueue := getQueue s in
      match list_find (λ op, op_id op = op_id operation) currentQueue with
      | Some (index, _) =>
          (AwaitRetrySave (<[index := operation]> currentQueue) rest c,
           (n, s, e))
      | None =>
          let '(d', s') := next_operation rest c s in
          (d', (n, s', e))
      end
  | AwaitRetrySave currentQueue rest c =>
      let '(d', s') := next_operation rest c (saveQueue currentQueue s) in
      (d', (n, s', e))
  | Returned c => (Returned c, (n, s, e))
  end.

(** A call that nothing interleaves with: it is resumed [fuel] times in a
    row. *)
Fixpoint run_alone (fuel : nat) (fetched : NetworkStatus.NetInfoState)
    (d : Drain) (st : NetworkStatus.t * t * E)
    : Drain * (NetworkStatus.t * t * E) :=
  match fuel with
  | O => (d, st)
  | S fuel' =>
      let '(d', st') := resume fetched d st in
      run_alone fuel' fetched d' st'
  end.

(** Several calls in flight over the one queue object. *)
Record Pool := {
  pool_net : NetworkStatus.t;
  pool_queue : t;
  pool_ext : E;
  pool_calls : list Drain
}.

(** What happens next: [processQueue()] is called once more; the awaited
    operation of the call made [call]-th completes; or [clearQueue()] is
    called and its [removeItem] takes effect. *)
Inductive Event :=
| ProcessQueue
| Resume (call : nat) (fetched : NetworkStatus.NetInfoState)
| ClearQueue.

Definition happen (p : Pool) (ev : Event) : Pool :=
  match ev with
  | ProcessQueue =>
      {| pool_net := pool_net p; pool_queue := pool_queue p;
         pool_ext := pool_ext p;
         pool_calls := pool_calls p ++ [call_processQueue (pool_queue p)] |}
  | Resume call fetched =>
      match pool_calls p !! call with
      | Some d =>
          let '(d', (n, s, e)) :=
            resume fetched d (pool_net p, pool_queue p, pool_ext p) in
          {| pool_net := n; pool_queue := s; pool_ext := e;
             pool_calls := <[call := d']> (pool_calls p) |}
      | None => p
      end
  | ClearQueue =>
      {| pool_net := pool_net p; pool_queue := clearQueue (pool_queue p);
         pool_ext := pool_ext p; pool_calls := pool_calls p |}
  end.

Definition play (events : list Event) (p : Pool) : Pool :=
  foldl happen p events.

End Awaits.

Arguments Pool : clear implicits.

(** *** Vocabulary of the statements *)

(** The queued operations that target one entity. *)
Definition pending_for (entity : SyncEntityType) (entityId : string) (s : t)
    : list SyncOperation :=
  filter (targets entity entityId) (getQueue s).

(** One call [addToQueue(type, entity, entityId, data)], with the identifier
    and the timestamp it generates. *)
Record Call := {
  call_id : string;
  call_now : string;
  call_type : SyncOperationType;
  call_entity : SyncEntityType;
  call_entityId : string;
  call_data : Data
}.

Definition enqueue (c : Call) (s : t) : t :=
  (addToQueue (call_id c) (call_now c) (call_type c) (call_entity c)
     (call_entityId c) (call_data c) s).2.

Definition enqueue_all (calls : list Call) (s : t) : t :=
  foldl (λ s c, enqueue c s) s calls.

(** The call is a DELETE aimed at the given entity. *)
Definition deletes (entity : SyncEntityType) (entityId : string) (c : Call) : Prop :=
  call_type c = DELETE ∧ call_entity c = entity ∧ call_entityId c = entityId.

(** Every queued CREATE is for an entity under a temporary identifier. *)
Definition temporary_create (op : SyncOperation) : Prop :=
  op_type op = CREATE → String.prefix "temp-" (op_entityId op) = true.

Definition creates_are_temporary (s : t) : Prop :=
  Forall temporary_create (getQueue s).

(** One drain with the tracing executor: the counts it returns, the calls of
    the executor in order, and the state it leaves. *)
Definition traced_pass {E : Type} (getTime : string → Z)
    (executor : SyncOperation → E → ExecResult * E)
    (probe : NetworkStatus.NetInfoState) (st : NetworkStatus.t * t * E)
    : Counts * list (SyncOperation * ExecResult) * (NetworkStatus.t * t * E) :=
  let '(c, n', s', el) :=
    processQueue getTime (traced executor) probe st.1.1 st.1.2 (st.2, []) in
  (c, el.2, (n', s', el.1)).

(** The operations handed to the executor by one drain, in order. *)
Definition invocations {E : Type} (getTime : string → Z)
    (executor : SyncOperation → E → ExecResult * E)
    (probe : NetworkStatus.NetInfoState) (st : NetworkStatus.t * t * E)
    : list SyncOperation :=
  (traced_pass getTime executor probe st).1.2.*1.

(** Whether a call of the executor ends in [failed++]: a rejection, or a
    [false] that brings the retry counter to three. *)
Definition counted_failed (entry : SyncOperation * ExecResult) : bool :=
  match entry.2 with
  | Rejected => true
  | Resolved false => 3 <=? S (op_retries entry.1)
  | Resolved true => false
  end.

(** [a] does not come after [b] in enqueue time. *)
Definition not_after (getTime : string → Z) (a b : SyncOperation) : Prop :=
  (getTime (op_timestamp a) ≤ getTime (op_timestamp b))%Z.

(** The state of a drain admitted in [s0] after [done] iterations of its
    loop. *)
Definition in_progress {E : Type} (getTime : string → Z)
    (executor : SyncOperation → E → ExecResult * E)
    (s0 : t) (e0 : E) (done : nat) : Counts * t * E :=
  process_all executor
    (take done (sort_by_timestamp getTime (getQueue (set_isSyncing true s0))))
    (no_counts, set_isSyncing true s0, e0).

(** Successive drains, one per answer of the connectivity re-check, with the
    counts each returns. *)
Fixpoint drains {E : Type} (getTime : string → Z)
    (executor : SyncOperation → E → ExecResult * E)
    (probes : list NetworkStatus.NetInfoState) (st : NetworkStatus.t * t * E)
    : list Counts * (NetworkStatus.t * t * E) :=
  match probes with
  | [] => ([], st)
  | probe :: rest =>
      let '(c, n, s, e) := processQueue getTime executor probe st.1.1 st.1.2 st.2 in
      let '(cs, st') := drains getTime executor rest (n, s, e) in
      (c :: cs, st')
  end.

(** [o'] is [o], as stored or with its retry counter one higher. *)
Definition retried (o o' : SyncOperation) : Prop :=
  o' = o ∨ o' = set_retries (S (op_retries o)) o.

End SyncQueue.


(** ** types: the entities mirrored locally *)

Record Container := {
  c_id : string;
  c_name : string;
  c_location : string;
  c_row : Z;
  c_column : string;
  c_description : option string;
  c_qrCode : string;
  c_color : option string;
  c_itemCount : nat;
  c_parentId : option string;
  c_parentName : option string;
  c_teamId : option string;
  c_teamName : option string;
  c_createdAt : string;
  c_updatedAt : string
}.

Record Item := {
  i_id : string;
  i_name : string;
  i_description : option string;
  i_category : option string;
  i_imageUrl : string;
  i_thumbnailUrl : option string;
  i_aiTags : list string;
  i_aiConfidence : option string;     (* a number the client never computes with: its JSON text *)
  i_containerId : string;
  i_containerName : string;
  i_containerLocation : string;
  i_isBorrowed : bool;
  i_borrowedTo : option string;
  i_borrowedAt : option string;
  i_borrowedNote : option string;
  i_createdAt : string;
  i_updatedAt : string
}.

Record ContainerChild := {
  cc_id : string;
  cc_name : string;
  cc_location : option string
}.

(** [ContainerWithItems extends Container] *)
Record ContainerWithItems := {
  cw_container : Container;
  cw_items : list Item;
  cw_children : option (list ContainerChild);
  cw_path : option string
}.

Record Team := {
  t_id : string;
  t_name : string;
  t_ownerId : string;
  t_ownerName : string;
  t_memberCount : nat;
  t_createdAt : string
}.

Record CreateContainerDto := {
  dto_name : string;
  dto_row : Z;
  dto_column : string;
  dto_description : Optional string;
  dto_color : Optional string;
  dto_parentId : Optional string;
  dto_teamId : Optional string
}.

(** [Partial<CreateContainerDto>] *)
Record PartialContainerDto := {
  pdto_name : Optional string;
  pdto_row : Optional Z;
  pdto_column : Optional string;
  pdto_description : Optional string;
  pdto_color : Optional string;
  pdto_parentId : Optional string;
  pdto_teamId : Optional string
}.

Record UpdateItemDto := {
  udto_name : Optional string;
  udto_description : Optional string;
  udto_category : Optional string;
  udto_aiTags : Optional (list string)
}.

(** The JavaScript objects behind the DTOs. *)
Definition CreateContainerDto_data (d : CreateContainerDto) : Data :=
  DObject
    (with_prop "teamId" JStr (dto_teamId d)
    (with_prop "parentId" JStr (dto_parentId d)
    (with_prop "color" JStr (dto_color d)
    (with_prop "description" JStr (dto_description d)
    (<["column" := Some (JStr (dto_column d))]>
    (<["row" := Some (JNum (dto_row d))]>
    (<["name" := Some (JStr (dto_name d))]> ∅))))))).

Definition PartialContainerDto_data (d : PartialContainerDto) : Data :=
  DObject
    (with_prop "teamId" JStr (pdto_teamId d)
    (with_prop "parentId" JStr (pdto_parentId d)
    (with_prop "color" JStr (pdto_color d)
    (with_prop "description" JStr (pdto_description d)
    (with_prop "column" JStr (pdto_column d)
    (with_prop "row" JNum (pdto_row d)
    (with_prop "name" JStr (pdto_name d) ∅))))))).

Definition UpdateItemDto_data (d : UpdateItemDto) : Data :=
  DObject
    (with_prop "aiTags" JStrings (udto_aiTags d)
    (with_prop "category" JStr (udto_category d)
    (with_prop "description" JStr (udto_description d)
    (with_prop "name" JStr (udto_name d) ∅)))).

(** ** offlineStorage: the entity cache *)

Module OfflineStorage.

(** The blobs under the five [STORAGE_KEYS]; [None] when the key is unset. *)
Record t := {
  CONTAINERS : option (list Container);
  CONTAINER_DETAILS : option (gmap string ContainerWithItems);
  BORROWED_ITEMS : option (list Item);
  TEAMS : option (list Team);
  LAST_SYNC : option string
}.

Definition init : t :=
  {| CONTAINERS := None; CONTAINER_DETAILS := None; BORROWED_ITEMS := None;
     TEAMS := None; LAST_SYNC := None |}.

Definition set_CONTAINERS (v : option (list Container)) (st : t) : t :=
  {| CONTAINERS := v; CONTAINER_DETAILS := CONTAINER_DETAILS st;
     BORROWED_ITEMS := BORROWED_ITEMS st; TEAMS := TEAMS st;
     LAST_SYNC := LAST_SYNC st |}.

Definition set_CONTAINER_DETAILS (v : option (gmap string ContainerWithItems))
    (st : t) : t :=
  {| CONTAINERS := CONTAINERS st; CONTAINER_DETAILS := v;
     BORROWED_ITEMS := BORROWED_ITEMS st; TEAMS := TEAMS st;
     LAST_SYNC := LAST_SYNC st |}.

Definition set_LAST_SYNC (v : option string) (st : t) : t :=
  {| CONTAINERS := CONTAINERS st; CONTAINER_DETAILS := CONTAINER_DETAILS st;
     BORROWED_ITEMS := BORROWED_ITEMS st; TEAMS := TEAMS st;
     LAST_SYNC := v |}.

Definition getContainers (st : t) : list Container :=
  default [] (CONTAINERS st).

(** [now] is the [new Date().toISOString()] read by [setLastSync]. *)
Definition setLastSync (now : string) (st : t) : t :=
  set_LAST_SYNC (Some now) st.

Definition setContainers (now : string) (containers : list Container) (st : t) : t :=
  setLastSync now (set_CONTAINERS (Some containers) st).

Definition updateContainer (now : string) (container : Container) (st : t) : t :=
  let containers := getContainers st in
  let containers' :=
    match list_find (λ c, c_id c = c_id container) containers with
    | Some (index, _) => <[index := container]> containers
    | None => containers ++ [container]
    end in
  setContainers now containers' st.

Definition getContainerDetail (containerId : string) (st : t)
    : option ContainerWithItems :=
  match CONTAINER_DETAILS st with
  | None => None
  | Some details => details !! containerId
  end.

Definition setContainerDetail (containerId : string) (detail : ContainerWithItems)
    (st : t) : t :=
  let details := default ∅ (CONTAINER_DETAILS st) in
  set_CONTAINER_DETAILS (Some (<[containerId := detail]> details)) st.

Definition removeContainerDetail (containerId : string) (st : t) : t :=
  match CONTAINER_DETAILS st with
  | None => st
  | Some details => set_CONTAINER_DETAILS (Some (delete containerId details)) st
  end.

Definition deleteContainer (now : string) (containerId : string) (st : t) : t :=
  let containers := getContainers st in
  let filtered := filter (λ c, c_id c ≠ containerId) containers in
  removeContainerDetail containerId (setContainers now filtered st).

Definition set_items (items : list Item) (d : ContainerWithItems) : ContainerWithItems :=
  {| cw_container := cw_container d; cw_items := items;
     cw_children := cw_children d; cw_path := cw_path d |}.

Definition updateItemInCache (item : Item) (st : t) : t :=
  match getContainerDetail (i_containerId item) st with
  | Some detail =>
      match list_find (λ i, i_id i = i_id item) (cw_items detail) with
      | Some (index, _) =>
          setContainerDetail (i_containerId item)
            (set_items (<[index := item]> (cw_items detail)) detail) st
      | None => st
      end
  | None => st
  end.

Definition set_BORROWED_ITEMS (v : option (list Item)) (st : t) : t :=
  {| CONTAINERS := CONTAINERS st; CONTAINER_DETAILS := CONTAINER_DETAILS st;
     BORROWED_ITEMS := v; TEAMS := TEAMS st; LAST_SYNC := LAST_SYNC st |}.

Definition set_TEAMS (v : option (list Team)) (st : t) : t :=
  {| CONTAINERS := CONTAINERS st; CONTAINER_DETAILS := CONTAINER_DETAILS st;
     BORROWED_ITEMS := BORROWED_ITEMS st; TEAMS := v; LAST_SYNC := LAST_SYNC st |}.

(** [detail.itemCount = n] on a [ContainerWithItems]. *)
Definition set_itemCount (n : nat) (d : ContainerWithItems) : ContainerWithItems :=
  let c := cw_container d in
  {| cw_container :=
       {| c_id := c_id c; c_name := c_name c; c_location := c_location c;
          c_row := c_row c; c_column := c_column c;
          c_description := c_description c; c_qrCode := c_qrCode c;
          c_color := c_color c; c_itemCount := n; c_parentId := c_parentId c;
          c_parentName := c_parentName c; c_teamId := c_teamId c;
          c_teamName := c_teamName c; c_createdAt := c_createdAt c;
          c_updatedAt := c_updatedAt c |};
     cw_items := cw_items d; cw_children := cw_children d; cw_path := cw_path d |}.

Definition deleteItemFromCache (itemId containerId : string) (st : t) : t :=
  match getContainerDetail containerId st with
  | Some detail =>
      let items := filter (λ i, i_id i ≠ itemId) (cw_items detail) in
      setContainerDetail containerId
        (set_itemCount (length items) (set_items items detail)) st
  | None => st
  end.

Definition getBorrowedItems (st : t) : list Item := default [] (BORROWED_ITEMS st).

Definition setBorrowedItems (items : list Item) (st : t) : t :=
  set_BORROWED_ITEMS (Some items) st.

Definition getTeams (st : t) : list Team := default [] (TEAMS st).

Definition setTeams (teams : list Team) (st : t) : t := set_TEAMS (Some teams) st.

Definition getLastSync (st : t) : option string := LAST_SYNC st.

(** [AsyncStorage.multiRemove] of the five keys. *)
Definition clearCache (st : t) : t := init.

End OfflineStorage.


(** ** api: the write path with offline support *)

Module ApiService.

Import SyncQueue.

(** What a rejected [await] carries: an axios error (with or without a
    received response) or a plain [Error]. *)
Inductive Exn :=
| AxiosError (response : option nat) (code : option string) (message : string)
| Error (message : string).

Definition isNetworkError (error : Exn) : bool :=
  match error with
  | AxiosError response code message =>
      negb (bool_decide (is_Some response))
      || bool_decide (code = Some "ECONNABORTED")
      || bool_decide (code = Some "ERR_NETWORK")
      || bool_decide (message = "Network Error")
  | Error _ => false
  end.

(** The remote API, a black box: a request answers with a body or rejects,
    and may change the server.  Bodies are the serialised objects. *)
Record Remote (R : Type) := {
  post_containers : Payload → R → (Exn + Container) * R;
  put_containers : string → Payload → R → (Exn + Container) * R;
  delete_containers : string → R → (Exn + unit) * R;
  put_items : string → Payload → R → (Exn + Item) * R;
  delete_items : string → R → (Exn + unit) * R
}.
Arguments post_containers {R}.
Arguments put_containers {R}.
Arguments delete_containers {R}.
Arguments put_items {R}.
Arguments delete_items {R}.

(** The successive values of [Date.now()], [new Date().toISOString()] and
    [Math.random().toString(36)...], each already rendered as text. *)
Record Entropy := { readings : nat → string; position : nat }.

(** What the executor of the drain works on. *)
Record Ext (R : Type) := {
  cache : OfflineStorage.t;
  server : R;
  entropy : Entropy
}.
Arguments cache {R}.
Arguments server {R}.
Arguments entropy {R}.

Record World (R : Type) := {
  net : NetworkStatus.t;
  queue : SyncQueue.t;
  ext : Ext R
}.
Arguments net {R}.
Arguments queue {R}.
Arguments ext {R}.

(** Asynchronous functions: a state transformer that resolves or rejects;
    what was written before a rejection stays written. *)
Definition M (S A : Type) : Type := S → (Exn + A) * S.

Definition ret {S A} (a : A) : M S A := λ s, (inr a, s).

Definition throw {S A} (e : Exn) : M S A := λ s, (inl e, s).

Definition bind {S A B} (m : M S A) (k : A → M S B) : M S B :=
  λ s, match m s with
       | (inl e, s') => (inl e, s')
       | (inr a, s') => k a s'
       end.

Definition try_catch {S A} (m : M S A) (handler : Exn → M S A) : M S A :=
  λ s, match m s with
       | (inl e, s') => handler e s'
       | (inr a, s') => (inr a, s')
       end.

Notation "'await' x ← m 'in' k" := (bind m (λ x, k))
  (at level 10, x name, m at level 200, k at level 200,
   format "'[v' 'await'  x  ←  m  'in'  '/' k ']'").

Section Api.
Context {R : Type}.
Context (remote : Remote R).
Context (getTime : string → Z).

Definition next : M (Ext R) string :=
  λ x, (inr (readings (entropy x) (position (entropy x))),
        {| cache := cache x; server := server x;
           entropy := {| readings := readings (entropy x);
                         position := S (position (entropy x)) |} |}).

Definition on_cache (f : OfflineStorage.t → OfflineStorage.t) : M (Ext R) unit :=
  λ x, (inr tt, {| cache := f (cache x); server := server x; entropy := entropy x |}).

Definition from_cache {A} (f : OfflineStorage.t → A) : M (Ext R) A :=
  λ x, (inr (f (cache x)), x).

(** [this.api.post/put/delete] *)
Definition request {A} (call : R → (Exn + A) * R) : M (Ext R) A :=
  λ x, let '(r, sv) := call (server x) in
       (r, {| cache := cache x; server := sv; entropy := entropy x |}).

Definition on_ext {A} (m : M (Ext R) A) : M (World R) A :=
  λ w, let '(r, x) := m (ext w) in
       (r, {| net := net w; queue := queue w; ext := x |}).

Definition getIsConnected : M (World R) bool :=
  λ w, (inr (NetworkStatus.getIsConnected (net w)), w).

Definition offlineStorage_updateContainer (c : Container) : M (Ext R) unit :=
  await now ← next in
  on_cache (OfflineStorage.updateContainer now c).

Definition offlineStorage_deleteContainer (containerId : string) : M (Ext R) unit :=
  await now ← next in
  on_cache (OfflineStorage.deleteContainer now containerId).

Definition syncQueue_addToQueue (type : SyncOperationType) (entity : SyncEntityType)
    (entityId : string) (data : Data) : M (World R) string :=
  await dateNow ← on_ext next in
  await random ← on_ext next in
  await now ← on_ext next in
  λ w, let '(id, q) :=
         SyncQueue.addToQueue (generateId dateNow random) now
           type entity entityId data (queue w) in
       (inr id, {| net := net w; queue := q; ext := ext w |}).

(** [`temp-${Date.now()}-${Math.random().toString(36).substring(2, 11)}`] *)
Definition generateTempId : M (Ext R) string :=
  await dateNow ← next in
  await random ← next in
  ret ("temp-" +:+ dateNow +:+ "-" +:+ random).

Definition createContainer (data : CreateContainerDto) : M (World R) Container :=
  await isOnline ← getIsConnected in
  await online ←
    (if isOnline then
       try_catch
         (await response ←
            on_ext (request (post_containers remote
                               (stringify (CreateContainerDto_data data)))) in
          await _ ← on_ext (offlineStorage_updateContainer response) in
          ret (Some response))
         (λ error, if negb (isNetworkError error) then throw error else ret None)
     else ret None) in
  match online with
  | Some response => ret response
  | None =>
      await tempId ← on_ext generateTempId in
      await createdAt ← on_ext next in
      await updatedAt ← on_ext next in
      let tempContainer :=
        {| c_id := tempId;
           c_name := dto_name data;
           c_location := dto_column data +:+ pretty (dto_row data);
           c_row := dto_row data;
           c_column := dto_column data;
           c_description := or_null (dto_description data);
           c_qrCode := "temp-qr-" +:+ tempId;
           c_color := or_null (dto_color data);
           c_itemCount := 0;
           c_parentId := or_null (dto_parentId data);
           c_parentName := None;
           c_teamId := or_null (dto_teamId data);
           c_teamName := None;
           c_createdAt := createdAt;
           c_updatedAt := updatedAt |} in
      await _ ← on_ext (offlineStorage_updateContainer tempContainer) in
      await _ ← syncQueue_addToQueue CREATE container tempId
                  (CreateContainerDto_data data) in
      ret tempContainer
  end.

(** [data.d ?? existing.d] where the cached field may be [null]. *)
Definition nullish_opt (o : Optional string) (d : option string) : option string :=
  match o with
  | Present a => Some a
  | _ => d
  end.

Definition updateContainer (id : string) (data : PartialContainerDto)
    : M (World R) Container :=
  await isOnline ← getIsConnected in
  await online ←
    (if isOnline then
       try_catch
         (await response ←
            on_ext (request (put_containers remote id
                               (stringify (PartialContainerDto_data data)))) in
          await _ ← on_ext (offlineStorage_updateContainer response) in
          ret (Some response))
         (λ error, if negb (isNetworkError error) then throw error else ret None)
     else ret None) in
  match online with
  | Some response => ret response
  | None =>
      await containers ← on_ext (from_cache OfflineStorage.getContainers) in
      match list_find (λ c, c_id c = id) containers with
      | Some (_, existing) =>
          await updatedAt ← on_ext next in
          let updated :=
            {| c_id := c_id existing;
               c_name := nullish (pdto_name data) (c_name existing);
               c_location :=
                 match pdto_column data, pdto_row data with
                 | Present column, Present row =>
                     if truthy column && negb (bool_decide (row = 0%Z))
                     then column +:+ pretty row
                     else c_location existing
                 | _, _ => c_location existing
                 end;
               c_row := nullish (pdto_row data) (c_row existing);
               c_column := nullish (pdto_column data) (c_column existing);
               c_description := nullish_opt (pdto_description data) (c_description existing);
               c_qrCode := c_qrCode existing;
               c_color := nullish_opt (pdto_color data) (c_color existing);
               c_itemCount := c_itemCount existing;
               c_parentId := c_parentId existing;
               c_parentName := c_parentName existing;
               c_teamId := c_teamId existing;
               c_teamName := c_teamName existing;
               c_createdAt := c_createdAt existing;
               c_updatedAt := updatedAt |} in
          await _ ← on_ext (offlineStorage_updateContainer updated) in
          await _ ← syncQueue_addToQueue UPDATE container id
                      (PartialContainerDto_data data) in
          ret updated
      | None => throw (Error "Container not found in cache")
      end
  end.

Definition deleteContainer (id : string) : M (World R) unit :=
  await isOnline ← getIsConnected in
  await online ←
    (if isOnline then
       try_catch
         (await _ ← on_ext (request (delete_containers remote id)) in
          await _ ← on_ext (offlineStorage_deleteContainer id) in
          ret true)
         (λ error, if negb (isNetworkError error) then throw error else ret false)
     else ret false) in
  if (online : bool) then ret tt
  else
    await _ ← on_ext (offlineStorage_deleteContainer id) in
    if negb (String.prefix "temp-" id)
    then await _ ← syncQueue_addToQueue DELETE container id DNull in ret tt
    else ret tt.

Definition updateItem (id : string) (data : UpdateItemDto) : M (World R) Item :=
  await isOnline ← getIsConnected in
  await online ←
    (if isOnline then
       try_catch
         (await response ←
            on_ext (request (put_items remote id
                               (stringify (UpdateItemDto_data data)))) in
          await _ ← on_ext (on_cache (OfflineStorage.updateItemInCache response)) in
          ret (Some response))
         (λ error, if negb (isNetworkError error) then throw error else ret None)
     else ret None) in
  match online with
  | Some response => ret response
  | None =>
      await _ ← syncQueue_addToQueue UPDATE item id (UpdateItemDto_data data) in
      await updatedAt ← on_ext next in
      ret {| i_id := id;
             i_name := match read (udto_name data) with
                       | Some s => if truthy s then s else ""
                       | None => ""
                       end;
             i_description := or_null (udto_description data);
             i_category := or_null (udto_category data);
             i_imageUrl := "";
             i_thumbnailUrl := None;
             i_aiTags := default [] (read (udto_aiTags data));
             i_aiConfidence := None;
             i_containerId := "";
             i_containerName := "";
             i_containerLocation := "";
             i_isBorrowed := false;
             i_borrowedTo := None;
             i_borrowedAt := None;
             i_borrowedNote := None;
             i_createdAt := "";
             i_updatedAt := updatedAt |}
  end.

Definition deleteItem (id : string) : M (World R) unit :=
  await isOnline ← getIsConnected in
  await online ←
    (if isOnline then
       try_catch
         (await _ ← on_ext (request (delete_items remote id)) in
          ret true)
         (λ error, if negb (isNetworkError error) then throw error else ret false)
     else ret false) in
  if (online : bool) then ret tt
  else await _ ← syncQueue_addToQueue DELETE item id DNull in ret tt.

(** The executor handed to [syncQueue.processQueue]: the [switch] inside
    [try], and the [catch] that turns every failure into [false]. *)
Definition executor_body (operation : SyncOperation) : M (Ext R) bool :=
  try_catch
    (match op_entity operation, op_type operation with
     | container, CREATE =>
         await result ← request (post_containers remote (op_data operation)) in
         await _ ← offlineStorage_deleteContainer (op_entityId operation) in
         await _ ← offlineStorage_updateContainer result in
         ret true
     | container, UPDATE =>
         await _ ← request (put_containers remote (op_entityId operation)
                              (op_data operation)) in
         ret true
     | container, DELETE =>
         await _ ← request (delete_containers remote (op_entityId operation)) in
         ret true
     | item, UPDATE =>
         await _ ← request (put_items remote (op_entityId operation)
                              (op_data operation)) in
         ret true
     | item, DELETE =>
         await _ ← request (delete_items remote (op_entityId operation)) in
         ret true
     | item, CREATE => ret false
     end)
    (λ error, ret false).

Definition sync_executor (operation : SyncOperation) (x : Ext R)
    : ExecResult * Ext R :=
  match executor_body operation x with
  | (inr result, x') => (Resolved result, x')
  | (inl _, x') => (Rejected, x')
  end.

(** [probe] is the answer of the connectivity re-check of the drain. *)
Definition processSyncQueue (probe : NetworkStatus.NetInfoState) (w : World R)
    : Counts * World R :=
  let '(c, n, q, x) :=
    SyncQueue.processQueue getTime sync_executor probe (net w) (queue w) (ext w) in
  (c, {| net := n; queue := q; ext := x |}).

(** The offline case of a write: connectivity is known to be absent, or the
    remote call is made and fails with a connectivity failure. *)
Definition offline_case {A} (call : R → (Exn + A) * R) (w : World R) : Prop :=
  NetworkStatus.isConnected (net w) = false ∨
  ∃ error, (call (server (ext w))).1 = inl error ∧ isNetworkError error = true.

Definition cached (id : string) (w : World R) : Prop :=
  ∃ c, c ∈ OfflineStorage.getContainers (cache (ext w)) ∧ c_id c = id.

End Api.

(** The attempt of the online branch, when the remote call fails with a
    connectivity failure, falls through to the offline handling. *)
Ltac falls_through Hcall Hnet :=
  unfold bind, getIsConnected, try_catch, on_ext, request, throw, ret;
  cbn [fst snd];
  match goal with
  | |- context [NetworkStatus.getIsConnected ?n] =>
      destruct (NetworkStatus.getIsConnected n); cbn [fst snd]
  end;
  [ match type of Hcall with
    | (?call ?sv).1 = _ =>
        let r := fresh "r" in let sv' := fresh "sv" in
        destruct (call sv) as [r sv']; cbn [fst snd] in Hcall; subst r;
        cbn [fst snd]; rewrite Hnet; cbn
    end
  | cbn ].

(** Every way the online attempt of a write call can go. *)
Ltac every_outcome :=
  unfold bind, getIsConnected, try_catch, on_ext, request, throw, ret;
  cbn [fst snd];
  match goal with
  | |- context [NetworkStatus.getIsConnected ?n] =>
      destruct (NetworkStatus.getIsConnected n); cbn [fst snd]
  end;
  [ match goal with
    | |- context [?call (server (ext ?w))] =>
        let error := fresh "error" in
        let response := fresh "response" in
        let sv := fresh "sv" in
        destruct (call (server (ext w))) as [[error|response] sv];
        cbn [fst snd];
        [ destruct (isNetworkError error); cbn | cbn ]
    end
  | cbn ].

Ltac known_offline Hoff :=
  unfold bind, getIsConnected, NetworkStatus.getIsConnected;
  rewrite Hoff; cbn.

End ApiService.


(** ** api: the read path and the calls without offline support *)

Module ApiReads.

Import SyncQueue ApiService.

Record CreateItemDto := {
  idto_containerId : string;
  idto_imageBase64 : string;
  idto_name : Optional string;
  idto_description : Optional string;
  idto_category : Optional string
}.

Definition CreateItemDto_data (d : CreateItemDto) : Data :=
  DObject
    (with_prop "category" JStr (idto_category d)
    (with_prop "description" JStr (idto_description d)
    (with_prop "name" JStr (idto_name d)
    (<["imageBase64" := Some (JStr (idto_imageBase64 d))]>
    (<["containerId" := Some (JStr (idto_containerId d))]> ∅))))).

(** The read endpoints of the remote API, and [POST /items]. *)
Record RemoteReads (R : Type) := {
  get_containers : R → (Exn + list Container) * R;
  get_container : string → R → (Exn + ContainerWithItems) * R;
  get_container_qr : string → R → (Exn + ContainerWithItems) * R;
  post_items : Payload → R → (Exn + Item) * R;
  get_items_container : string → R → (Exn + list Item) * R;
  get_items_borrowed : R → (Exn + list Item) * R;
  get_teams : R → (Exn + list Team) * R
}.
Arguments get_containers {R}.
Arguments get_container {R}.
Arguments get_container_qr {R}.
Arguments post_items {R}.
Arguments get_items_container {R}.
Arguments get_items_borrowed {R}.
Arguments get_teams {R}.

(** The keys [token] and [user] of AsyncStorage. *)
Record Session := { token : option string; user : option string }.

Section Reads.
Context {R : Type}.
Context (reads : RemoteReads R).

Definition offlineStorage_setContainers (containers : list Container)
    : M (Ext R) unit :=
  await now ← next in
  on_cache (OfflineStorage.setContainers now containers).

Definition getContainers : M (World R) (list Container) :=
  try_catch
    (await response ← on_ext (request (get_containers reads)) in
     await _ ← on_ext (offlineStorage_setContainers response) in
     ret response)
    (λ error,
       if isNetworkError error
       then on_ext (from_cache OfflineStorage.getContainers)
       else throw error).

Definition getContainer (id : string) : M (World R) ContainerWithItems :=
  try_catch
    (await response ← on_ext (request (get_container reads id)) in
     await _ ← on_ext (on_cache (OfflineStorage.setContainerDetail id response)) in
     ret response)
    (λ error,
       if isNetworkError error
       then
         await cached ← on_ext (from_cache (OfflineStorage.getContainerDetail id)) in
         match cached with
         | Some detail => ret detail
         | None => throw error
         end
       else throw error).

Definition getContainerByQr (qrCode : string) : M (World R) ContainerWithItems :=
  try_catch
    (await response ← on_ext (request (get_container_qr reads qrCode)) in
     await _ ← on_ext (on_cache (OfflineStorage.setContainerDetail
                                   (c_id (cw_container response)) response)) in
     ret response)
    (λ error,
       if isNetworkError error
       then
         await containers ← on_ext (from_cache OfflineStorage.getContainers) in
         match list_find (λ c, c_qrCode c = qrCode) containers with
         | Some (_, c) =>
             await detail ← on_ext (from_cache
                                      (OfflineStorage.getContainerDetail (c_id c))) in
             match detail with
             | Some d => ret d
             | None => throw error
             end
         | None => throw error
         end
       else throw error).

(** [addItem]: no [try], every failure of the request is the caller's. *)
Definition addItem (data : CreateItemDto) : M (World R) Item :=
  await response ←
    on_ext (request (post_items reads (stringify (CreateItemDto_data data)))) in
  await containerDetail ←
    on_ext (from_cache (OfflineStorage.getContainerDetail (idto_containerId data))) in
  match containerDetail with
  | Some detail =>
      let items := cw_items detail ++ [response] in
      await _ ←
        on_ext (on_cache
                  (OfflineStorage.setContainerDetail (idto_containerId data)
                     (OfflineStorage.set_itemCount (length items)
                        (OfflineStorage.set_items items detail)))) in
      ret response
  | None => ret response
  end.

Definition getItemsByContainer (containerId : string) : M (World R) (list Item) :=
  try_catch
    (on_ext (request (get_items_container reads containerId)))
    (λ error,
       if isNetworkError error
       then
         await cached ← on_ext (from_cache
                                  (OfflineStorage.getContainerDetail containerId)) in
         match cached with
         | Some detail => ret (cw_items detail)
         | None => throw error
         end
       else throw error).

Definition getBorrowedItems : M (World R) (list Item) :=
  try_catch
    (await response ← on_ext (request (get_items_borrowed reads)) in
     await _ ← on_ext (on_cache (OfflineStorage.setBorrowedItems response)) in
     ret response)
    (λ error,
       if isNetworkError error
       then on_ext (from_cache OfflineStorage.getBorrowedItems)
       else throw error).

Definition getTeams : M (World R) (list Team) :=
  try_catch
    (await response ← on_ext (request (get_teams reads)) in
     await _ ← on_ext (on_cache (OfflineStorage.setTeams response)) in
     ret response)
    (λ error,
       if isNetworkError error
       then on_ext (from_cache OfflineStorage.getTeams)
       else throw error).

(** [logout]: the two session keys, the cache and the queue; the
    in-progress flag of the queue object is not a stored key. *)
Definition logout (sw : Session * World R) : Session * World R :=
  let w := sw.2 in
  ({| token := None; user := None |},
   {| net := net w;
      queue := SyncQueue.clearQueue (queue w);
      ext := {| cache := OfflineStorage.clearCache (cache (ext w));
                server := server (ext w);
                entropy := entropy (ext w) |} |}).

End Reads.

(** *** Vocabulary of the statements *)

(** The call rejects with [error] and leaves the queue, the cache and the
    connectivity flag as they were. *)
Definition fails_untouched {R A} (error : Exn) (w : World R)
    (r : (Exn + A) * World R) : Prop :=
  r.1 = inl error ∧ queue r.2 = queue w ∧ cache (ext r.2) = cache (ext w) ∧
  net r.2 = net w.

(** The request was answered with a body. *)
Definition accepted {A} (r : Exn + A) : bool :=
  match r with
  | inr _ => true
  | inl _ => false
  end.

(** The [k]-th reading of the clock or the random source from now on. *)
Definition reading {R} (w : World R) (k : nat) : string :=
  readings (entropy (ext w)) (k + position (entropy (ext w))).

(** The container [createContainer] makes up when it cannot reach the
    server. *)
Definition placeholder (data : CreateContainerDto)
    (tempId createdAt updatedAt : string) : Container :=
  {| c_id := tempId;
     c_name := dto_name data;
     c_location := dto_column data +:+ pretty (dto_row data);
     c_row := dto_row data;
     c_column := dto_column data;
     c_description := or_null (dto_description data);
     c_qrCode := "temp-qr-" +:+ tempId;
     c_color := or_null (dto_color data);
     c_itemCount := 0;
     c_parentId := or_null (dto_parentId data);
     c_parentName := None;
     c_teamId := or_null (dto_teamId data);
     c_teamName := None;
     c_createdAt := createdAt;
     c_updatedAt := updatedAt |}.

(** The container [updateContainer] returns when it cannot reach the
    server: the cached one with the fields of the request laid over it. *)
Definition patched (existing : Container) (data : PartialContainerDto)
    (updatedAt : string) : Container :=
  {| c_id := c_id existing;
     c_name := nullish (pdto_name data) (c_name existing);
     c_location :=
       match pdto_column data, pdto_row data with
       | Present column, Present row =>
           if truthy column && negb (bool_decide (row = 0%Z))
           then column +:+ pretty row
           else c_location existing
       | _, _ => c_location existing
       end;
     c_row := nullish (pdto_row data) (c_row existing);
     c_column := nullish (pdto_column data) (c_column existing);
     c_description := nullish_opt (pdto_description data) (c_description existing);
     c_qrCode := c_qrCode existing;
     c_color := nullish_opt (pdto_color data) (c_color existing);
     c_itemCount := c_itemCount existing;
     c_parentId := c_parentId existing;
     c_parentName := c_parentName existing;
     c_teamId := c_teamId existing;
     c_teamName := c_teamName existing;
     c_createdAt := c_createdAt existing;
     c_updatedAt := updatedAt |}.

(** The item [updateItem] returns when it cannot reach the server. *)
Definition item_placeholder (id : string) (data : UpdateItemDto)
    (updatedAt : string) : Item :=
  {| i_id := id;
     i_name := match read (udto_name data) with
               | Some s => if truthy s then s else ""
               | None => ""
               end;
     i_description := or_null (udto_description data);
     i_category := or_null (udto_category data);
     i_imageUrl := "";
     i_thumbnailUrl := None;
     i_aiTags := default [] (read (udto_aiTags data));
     i_aiConfidence := None;
     i_containerId := "";
     i_containerName := "";
     i_containerLocation := "";
     i_isBorrowed := false;
     i_borrowedTo := None;
     i_borrowedAt := None;
     i_borrowedNote := None;
     i_createdAt := "";
     i_updatedAt := updatedAt |}.

(** The request of a write call made with connectivity believed present. *)
Ltac attempted Hon Hcall :=
  unfold bind, getIsConnected, NetworkStatus.getIsConnected, try_catch,
    on_ext, request, throw, ret;
  rewrite Hon; cbn [fst snd];
  match type of Hcall with
  | (?call ?sv).1 = _ =>
      let r := fresh "r" in let sv' := fresh "sv" in
      destruct (call sv) as [r sv']; cbn [fst snd] in Hcall; subst r;
      cbn [fst snd]
  end.

(** The request of a read call. *)
Ltac requested Hcall :=
  unfold bind, try_catch, on_ext, request, from_cache, on_cache, throw, ret;
  cbn [fst snd];
  match type of Hcall with
  | (?call ?sv).1 = _ =>
      let r := fresh "r" in let sv' := fresh "sv" in
      destruct (call sv) as [r sv']; cbn [fst snd] in Hcall; subst r;
      cbn [fst snd]
  end.

End ApiReads.

(** ** Sample data for the worked instances *)

Module Samples.

Import SyncQueue ApiService ApiReads.

Definition unreachable : Exn :=
  AxiosError None (Some "ERR_NETWORK") "Network Error".

Definition refused : Exn :=
  AxiosError (Some 422) (Some "ERR_BAD_REQUEST")
    "Request failed with status code 422".

Definition attic : Container :=
  {| c_id := "c-1"; c_name := "Attic"; c_location := "A1"; c_row := 1%Z;
     c_column := "A"; c_description := None; c_qrCode := "qr-1";
     c_color := None; c_itemCount := 1; c_parentId := None;
     c_parentName := None; c_teamId := None; c_teamName := None;
     c_createdAt := "2026-01-01T09:00:00.000Z";
     c_updatedAt := "2026-01-01T09:00:00.000Z" |}.

Definition lamp : Item :=
  {| i_id := "i-1"; i_name := "Lamp"; i_description := None;
     i_category := None; i_imageUrl := "https://img/lamp.jpg";
     i_thumbnailUrl := None; i_aiTags := ["light"]; i_aiConfidence := None;
     i_containerId := "c-1"; i_containerName := "Attic";
     i_containerLocation := "A1"; i_isBorrowed := false;
     i_borrowedTo := None; i_borrowedAt := None; i_borrowedNote := None;
     i_createdAt := "2026-01-01T09:10:00.000Z";
     i_updatedAt := "2026-01-01T09:10:00.000Z" |}.

Definition attic_detail : ContainerWithItems :=
  {| cw_container := attic; cw_items := [lamp]; cw_children := None;
     cw_path := None |}.

Definition team : Team :=
  {| t_id := "t-1"; t_name := "Home"; t_ownerId := "u-1";
     t_ownerName := "Ana"; t_memberCount := 2;
     t_createdAt := "2026-01-01T08:00:00.000Z" |}.

Definition attic_dto : CreateContainerDto :=
  {| dto_name := "Attic"; dto_row := 1%Z; dto_column := "A";
     dto_description := Absent; dto_color := Absent; dto_parentId := Absent;
     dto_teamId := Absent |}.

Definition rename_dto : PartialContainerDto :=
  {| pdto_name := Present "Loft"; pdto_row := Absent; pdto_column := Absent;
     pdto_description := Absent; pdto_color := Absent; pdto_parentId := Absent;
     pdto_teamId := Absent |}.

Definition item_dto : UpdateItemDto :=
  {| udto_name := Present "Desk lamp"; udto_description := Absent;
     udto_category := Absent; udto_aiTags := Absent |}.

(** A server that answers every write with the same outcome. *)
Definition remote_failing (error : Exn) : Remote unit :=
  {| post_containers := λ _ r, (inl error, r);
     put_containers := λ _ _ r, (inl error, r);
     delete_containers := λ _ r, (inl error, r);
     put_items := λ _ _ r, (inl error, r);
     delete_items := λ _ r, (inl error, r) |}.

Definition remote_accepting : Remote unit :=
  {| post_containers := λ _ r, (inr attic, r);
     put_containers := λ _ _ r, (inr attic, r);
     delete_containers := λ _ r, (inr tt, r);
     put_items := λ _ _ r, (inr lamp, r);
     delete_items := λ _ r, (inr tt, r) |}.

(** A server that can be reached once: the state says whether it still
    can. *)
Definition reads_once : RemoteReads bool :=
  {| get_containers := λ up : bool,
       (if up then inr [attic] else inl unreachable, false);
     get_container := λ (_ : string) (up : bool),
       (if up then inr attic_detail else inl unreachable, false);
     get_container_qr := λ (_ : string) (up : bool),
       (if up then inr attic_detail else inl unreachable, false);
     post_items := λ (_ : Payload) (up : bool), (if up then inr lamp else inl unreachable, false);
     get_items_container := λ (_ : string) (up : bool),
       (if up then inr [lamp] else inl unreachable, false);
     get_items_borrowed := λ up : bool,
       (if up then inr [lamp] else inl unreachable, false);
     get_teams := λ up : bool, (if up then inr [team] else inl unreachable, false) |}.

Definition clock : Entropy := {| readings := λ k, pretty k; position := 0 |}.

Definition world {R} (connected : bool) (q : SyncQueue.t)
    (st : OfflineStorage.t) (sv : R) : World R :=
  {| net := NetworkStatus.set_isConnected connected NetworkStatus.init;
     queue := q;
     ext := {| cache := st; server := sv; entropy := clock |} |}.

Definition pending_rename : SyncOperation :=
  {| op_id := "1-a"; op_type := UPDATE; op_entity := container;
     op_entityId := "c-1"; op_data := PNull;
     op_timestamp := "2026-01-01T10:00:00.000Z"; op_retries := 0 |}.

Definition online : NetworkStatus.NetInfoState :=
  {| NetworkStatus.ni_isConnected := Some true |}.

End Samples.

(** * Properties *)

(** ** The mutation queue: one slot per entity, coalescing *)

Module QueueProperties.

Import SyncQueue.

Section Slots.
Implicit Types (queue : list SyncOperation) (op : SyncOperation).

Lemma stringify_parse (p : Payload) : stringify (parse p) = p.
Proof.
  destruct p as [|o]; [done|]. simpl. f_equal.
  apply map_eq. intros k. rewrite lookup_omap, lookup_fmap.
  by destruct (o !! k).
Qed.

(** A property of the merged payload reads the incoming object first, and
    falls back on the stored payload only for a property the incoming object
    does not have at all. *)
Lemma shallow_merge_lookup (existing : Payload) (incoming : Data) (k : string) :
  spread (parse (shallow_merge existing incoming)) !! k =
    match spread incoming !! k with
    | Some (Some v) => Some (Some v)
    | Some None => None
    | None => spread (parse existing) !! k
    end.
Proof.
  unfold shallow_merge, object_spread. simpl.
  rewrite lookup_fmap, lookup_omap, lookup_union.
  destruct (spread incoming !! k) as [[v|]|] eqn:Hin; simpl.
  - by destruct (spread (parse existing) !! k).
  - by destruct (spread (parse existing) !! k).
  - destruct existing as [|o]; simpl; [by rewrite lookup_empty|].
    rewrite lookup_fmap. by destruct (o !! k).
Qed.

Lemma filter_targets_insert entity entityId queue i existing op :
  queue !! i = Some existing →
  op_entity op = op_entity existing →
  op_entityId op = op_entityId existing →
  length (filter (targets entity entityId) (<[i := op]> queue)) =
  length (filter (targets entity entityId) queue).
Proof.
  intros Hi He Hid.
  rewrite insert_take_drop by eauto using lookup_lt_Some.
  rewrite <- (take_drop_middle queue i existing Hi) at 3.
  rewrite !filter_app, !filter_cons, !length_app.
  destruct (decide (targets entity entityId op)) as [Hp|Hp],
    (decide (targets entity entityId existing)) as [Hq|Hq];
    simpl; try done; exfalso; unfold targets in *;
    rewrite He, Hid in *; tauto.
Qed.

Lemma filter_targets_delete entity entityId queue i :
  length (filter (targets entity entityId) (delete i queue)) ≤
  length (filter (targets entity entityId) queue).
Proof.
  revert i. induction queue as [|x l IH]; intros [|i]; simpl; try lia.
  - rewrite filter_cons. destruct (decide _); simpl; lia.
  - rewrite !filter_cons. specialize (IH i).
    destruct (decide _); simpl; lia.
Qed.

(** One call never leaves more operations on an entity than there were,
    one at the least. *)
Lemma coalesce_slot id now type entity entityId data queue entity' entityId' :
  length (filter (targets entity' entityId')
            (coalesce id now type entity entityId data queue)) ≤
  Nat.max 1 (length (filter (targets entity' entityId') queue)).
Proof.
  unfold coalesce.
  destruct (list_find _ queue) as [[i existing]|] eqn:Hfind.
  - apply list_find_Some in Hfind as (Hi & [He Hid] & _).
    destruct type.
    + lia.
    + destruct (op_type existing);
        (erewrite filter_targets_insert; [lia|done|simpl; congruence..]).
    + destruct (op_type existing).
      * etrans; [apply filter_targets_delete|lia].
      * erewrite filter_targets_insert; [lia|done|simpl; congruence..].
      * erewrite filter_targets_insert; [lia|done|simpl; congruence..].
  - apply list_find_None in Hfind.
    rewrite filter_app, length_app, filter_cons, filter_nil.
    destruct (decide _) as [[He Hid]|Hne]; simpl in *; [|lia].
    subst entity' entityId'.
    assert (filter (targets entity entityId) queue = []) as ->; [|simpl; lia].
    clear -Hfind. induction Hfind as [|x l Hx _ IH]; [done|].
    by rewrite filter_cons_False.
Qed.

Lemma filter_nil_Forall {A} (P : A → Prop) `{!∀ x, Decision (P x)} (l : list A) :
  filter P l = [] → Forall (λ x, ¬ P x) l.
Proof.
  intros Hl. apply Forall_forall. intros x Hx HP.
  by eapply filter_nil_not_elem_of.
Qed.

Lemma Forall_filter_nil {A} (P : A → Prop) `{!∀ x, Decision (P x)} (l : list A) :
  Forall (λ x, ¬ P x) l → filter P l = [].
Proof.
  induction 1 as [|x l Hx _ IH]; [done|]. by rewrite filter_cons_False.
Qed.

Lemma getQueue_addToQueue id now type entity entityId data (s : t) :
  getQueue (addToQueue id now type entity entityId data s).2 =
  coalesce id now type entity entityId data (getQueue s).
Proof. done. Qed.

Lemma pending_for_enqueue (c : Call) (s : t) entity entityId :
  pending_for entity entityId (enqueue c s) =
  filter (targets entity entityId)
    (coalesce (call_id c) (call_now c) (call_type c) (call_entity c)
       (call_entityId c) (call_data c) (getQueue s)).
Proof. done. Qed.

Lemma enqueue_slot (c : Call) (s : t) :
  (∀ entity entityId, length (pending_for entity entityId s) ≤ 1) →
  ∀ entity entityId, length (pending_for entity entityId (enqueue c s)) ≤ 1.
Proof.
  intros Hs entity entityId. rewrite pending_for_enqueue.
  etrans; [apply coalesce_slot|].
  specialize (Hs entity entityId). unfold pending_for in Hs. lia.
Qed.

Lemma enqueue_all_slot (calls : list Call) (s : t) :
  (∀ entity entityId, length (pending_for entity entityId s) ≤ 1) →
  ∀ entity entityId, length (pending_for entity entityId (enqueue_all calls s)) ≤ 1.
Proof.
  revert s. induction calls as [|c calls IH]; intros s Hs; [done|].
  simpl. apply IH. by apply enqueue_slot.
Qed.

(** A call appends when the entity has no queued operation, and never
    lengthens the queue when it has one. *)
Lemma enqueue_appends_or_coalesces (c : Call) (s : t) :
  (pending_for (call_entity c) (call_entityId c) s = [] →
   getQueue (enqueue c s) =
   getQueue s ++ [ {| op_id := call_id c; op_type := call_type c;
                      op_entity := call_entity c;
                      op_entityId := call_entityId c;
                      op_data := stringify (call_data c);
                      op_timestamp := call_now c; op_retries := 0 |} ]) ∧
  (pending_for (call_entity c) (call_entityId c) s ≠ [] →
   length (getQueue (enqueue c s)) ≤ length (getQueue s)).
Proof.
  unfold enqueue. rewrite getQueue_addToQueue. unfold coalesce. split.
  - intros Hnone. apply filter_nil_Forall in Hnone.
    assert (list_find (targets (call_entity c) (call_entityId c)) (getQueue s)
            = None) as -> by by apply list_find_None.
    done.
  - intros Hsome.
    destruct (list_find _ (getQueue s)) as [[i existing]|] eqn:Hfind.
    + apply list_find_Some in Hfind as (Hi & _).
      destruct (call_type c), (op_type existing);
        rewrite ?length_insert; try done.
      rewrite length_delete by done. lia.
    + apply list_find_None in Hfind.
      destruct Hsome. by apply Forall_filter_nil.
Qed.

(** C1.  Whatever calls of [addToQueue] are made on a queue that holds at
    most one operation per (entity kind, entity identifier), after each of
    them (after the first [n] calls, for every [n]) the persisted queue
    still holds at most one operation for every such pair.  Each call
    appends its operation when the entity has none queued, and otherwise
    works on the queued one without lengthening the queue. *)
Theorem at_most_one_operation_per_entity (calls : list Call) (s : t) :
  (∀ entity entityId, length (pending_for entity entityId s) ≤ 1) →
  (∀ n entity entityId,
     length (pending_for entity entityId (enqueue_all (take n calls) s)) ≤ 1) ∧
  (∀ c s',
     (pending_for (call_entity c) (call_entityId c) s' = [] →
      getQueue (enqueue c s') =
      getQueue s' ++ [ {| op_id := call_id c; op_type := call_type c;
                          op_entity := call_entity c;
                          op_entityId := call_entityId c;
                          op_data := stringify (call_data c);
                          op_timestamp := call_now c; op_retries := 0 |} ]) ∧
     (pending_for (call_entity c) (call_entityId c) s' ≠ [] →
      length (getQueue (enqueue c s')) ≤ length (getQueue s'))).
Proof.
  intros Hs. split.
  - intros n. by apply enqueue_all_slot.
  - apply enqueue_appends_or_coalesces.
Qed.

Lemma at_most_one_operation_per_entity_witness :
  (∀ entity entityId, length (pending_for entity entityId init) ≤ 1) ∧
  length (pending_for container "temp-1"
            (enqueue_all
               (take 3
                  [ {| call_id := "1-a"; call_now := "2026-01-01T10:00:00.000Z";
                       call_type := CREATE; call_entity := container;
                       call_entityId := "temp-1"; call_data := DNull |};
                    {| call_id := "2-b"; call_now := "2026-01-01T10:00:01.000Z";
                       call_type := UPDATE; call_entity := item;
                       call_entityId := "temp-1"; call_data := DNull |};
                    {| call_id := "3-c"; call_now := "2026-01-01T10:00:02.000Z";
                       call_type := UPDATE; call_entity := container;
                       call_entityId := "temp-1"; call_data := DNull |};
                    {| call_id := "4-d"; call_now := "2026-01-01T10:00:03.000Z";
                       call_type := DELETE; call_entity := container;
                       call_entityId := "temp-1"; call_data := DNull |} ])
               init)) ≤ 1.
Proof.
  split.
  - intros entity entityId. simpl. lia.
  - apply at_most_one_operation_per_entity. intros entity entityId. simpl. lia.
Defined.


Section Middle.
Context {A : Type} (P : A → Prop) `{!∀ x, Decision (P x)}.

Lemma filter_middle (l : list A) i y :
  l !! i = Some y →
  filter P l = filter P (take i l) ++ filter P [y] ++ filter P (drop (S i) l).
Proof.
  intros Hi. rewrite <- (take_drop_middle l i y Hi) at 1.
  change (y :: drop (S i) l) with ([y] ++ drop (S i) l).
  by rewrite !filter_app.
Qed.

Lemma filter_insert_middle (l : list A) i x y :
  l !! i = Some y →
  filter P (<[i := x]> l) =
  filter P (take i l) ++ filter P [x] ++ filter P (drop (S i) l).
Proof.
  intros Hi. rewrite insert_take_drop by eauto using lookup_lt_Some.
  change (x :: drop (S i) l) with ([x] ++ drop (S i) l).
  by rewrite !filter_app.
Qed.

Lemma filter_delete_middle (l : list A) i :
  filter P (delete i l) = filter P (take i l) ++ filter P (drop (S i) l).
Proof. by rewrite delete_take_drop, filter_app. Qed.

Lemma filter_take_find (l : list A) i y :
  list_find P l = Some (i, y) → filter P (take i l) = [].
Proof.
  intros (_ & _ & Hmin)%list_find_Some.
  apply Forall_filter_nil, Forall_lookup. intros j z Hj.
  apply lookup_take_Some in Hj as [Hj Hlt]. by eapply Hmin.
Qed.

End Middle.

(** The slot of the entity holds one operation, a CREATE. *)
Lemma coalesce_keeps_create entity entityId id now type entity' entityId'
    data queue :
  (∃ op, filter (targets entity entityId) queue = [op] ∧ op_type op = CREATE) →
  ¬ (type = DELETE ∧ entity' = entity ∧ entityId' = entityId) →
  ∃ op, filter (targets entity entityId)
          (coalesce id now type entity' entityId' data queue) = [op] ∧
        op_type op = CREATE.
Proof.
  intros (op & Hslot & Hcreate) Hcall. unfold coalesce.
  destruct (list_find _ queue) as [[i existing]|] eqn:Hfind.
  - pose proof (filter_take_find _ _ _ _ Hfind) as Htake.
    apply list_find_Some in Hfind as (Hi & [He Hid] & _).
    pose proof (filter_middle (targets entity entityId) _ _ _ Hi) as Hmid.
    destruct (decide (entity' = entity ∧ entityId' = entityId)) as [[-> ->]|Hother].
    + rewrite Htake, Hslot in Hmid.
      rewrite filter_cons_True, filter_nil in Hmid by done.
      simpl in Hmid. injection Hmid as -> Hdrop. symmetry in Hdrop.
      destruct type; [by exists existing| |by destruct Hcall].
      rewrite Hcreate.
      rewrite (filter_insert_middle _ _ _ _ existing) by done.
      rewrite Htake, Hdrop, filter_cons_True, filter_nil by done.
      by eexists.
    + assert (∀ x, op_entity x = entity' → op_entityId x = entityId' →
                   filter (targets entity entityId) [x] = []) as Hnot.
      { intros x Hxe Hxid. rewrite filter_cons_False, filter_nil; [done|].
        intros [??]. apply Hother. split; congruence. }
      rewrite (Hnot existing) in Hmid by done.
      exists op. split; [|done]. rewrite <- Hslot, Hmid.
      destruct type; [done|..].
      * destruct (op_type existing);
          (rewrite (filter_insert_middle _ _ _ _ existing) by done;
           by rewrite Hnot).
      * destruct (op_type existing);
          [by rewrite filter_delete_middle|..];
          (rewrite (filter_insert_middle _ _ _ _ existing) by done;
           by rewrite Hnot).
  - apply list_find_None in Hfind.
    exists op. split; [|done].
    rewrite filter_app, Hslot, filter_cons_False, filter_nil; [done|].
    intros [He Hid]. simpl in He, Hid. subst entity' entityId'.
    assert (op ∈ filter (targets entity entityId) queue) as Hop
      by (rewrite Hslot; by apply list_elem_of_singleton).
    apply list_elem_of_filter in Hop as [Hp Hop].
    eapply Forall_forall in Hfind; [|exact Hop]. done.
Qed.

Lemma enqueue_all_keeps_create entity entityId (calls : list Call) (s : t) :
  (∃ op, pending_for entity entityId s = [op] ∧ op_type op = CREATE) →
  Forall (λ c, ¬ deletes entity entityId c) calls →
  ∃ op, pending_for entity entityId (enqueue_all calls s) = [op] ∧
        op_type op = CREATE.
Proof.
  revert s. induction calls as [|c calls IH]; intros s Hs Hcalls; [done|].
  apply Forall_cons in Hcalls as [Hc Hcalls].
  simpl. apply IH; [|done].
  rewrite pending_for_enqueue. by apply coalesce_keeps_create.
Qed.

(** A DELETE for an entity whose slot holds a pending CREATE removes that
    CREATE and queues nothing. *)
Lemma delete_removes_pending_create id now entity entityId data (s : t) :
  (∃ op, pending_for entity entityId s = [op] ∧ op_type op = CREATE) →
  pending_for entity entityId
    (addToQueue id now DELETE entity entityId data s).2 = [] ∧
  S (length (getQueue (addToQueue id now DELETE entity entityId data s).2)) =
    length (getQueue s).
Proof.
  intros (op & Hslot & Hcreate).
  assert (op ∈ pending_for entity entityId s) as Hop
    by (rewrite Hslot; by apply list_elem_of_singleton).
  apply list_elem_of_filter in Hop as [Hp Hop].
  destruct (list_find_elem_of (targets entity entityId) _ op Hop Hp)
    as [[i existing] Hfind].
  pose proof (filter_take_find _ _ _ _ Hfind) as Htake.
  pose proof Hfind as (Hi & Hpe & _)%list_find_Some.
  pose proof (filter_middle (targets entity entityId) _ _ _ Hi) as Hmid.
  fold (pending_for entity entityId s) in Hmid.
  rewrite Hslot, Htake, filter_cons_True, filter_nil in Hmid by done.
  simpl in Hmid. injection Hmid as -> Hdrop.
  unfold pending_for. rewrite getQueue_addToQueue. unfold coalesce.
  rewrite Hfind, Hcreate. split.
  - by rewrite filter_delete_middle, Htake, <- Hdrop.
  - rewrite length_delete by done.
    apply lookup_lt_Some in Hi. lia.
Qed.

(** C2.  On a queue with no operation for an entity, enqueueing a CREATE for
    it puts exactly that CREATE in its slot; whatever is enqueued next, short
    of a DELETE for this entity (operations on other entities, updates of
    this one), the slot still holds one CREATE; and the DELETE for the
    entity then removes it and queues nothing: the slot is empty.  With
    nothing enqueued in between, the queue is the one from before the
    CREATE.  The last step does not depend on the history: in any state
    whose slot for the entity holds a pending CREATE, the DELETE leaves the
    slot empty. *)
Theorem create_then_delete_cancels (s : t) entity entityId
    id1 now1 data1 (between : list Call) id2 now2 data2 :
  pending_for entity entityId s = [] →
  Forall (λ c, ¬ deletes entity entityId c) between →
  let s1 := (addToQueue id1 now1 CREATE entity entityId data1 s).2 in
  let s2 := enqueue_all between s1 in
  let s3 := (addToQueue id2 now2 DELETE entity entityId data2 s2).2 in
  (∃ op, pending_for entity entityId s2 = [op] ∧ op_type op = CREATE) ∧
  pending_for entity entityId s3 = [] ∧
  (between = [] → getQueue s3 = getQueue s) ∧
  (∀ s', (∃ op, pending_for entity entityId s' = [op] ∧ op_type op = CREATE) →
         pending_for entity entityId
           (addToQueue id2 now2 DELETE entity entityId data2 s').2 = []).
Proof.
  intros Hnone Hbetween s1 s2 s3.
  pose proof (filter_nil_Forall _ _ Hnone) as Hall.
  assert (list_find (targets entity entityId) (getQueue s) = None) as Hfind
    by by apply list_find_None.
  set (op := {| op_id := id1; op_type := CREATE; op_entity := entity;
                op_entityId := entityId; op_data := stringify data1;
                op_timestamp := now1; op_retries := 0 |}).
  assert (getQueue s1 = getQueue s ++ [op]) as Hq1.
  { subst s1. simpl. unfold coalesce. by rewrite Hfind. }
  assert (∃ op, pending_for entity entityId s2 = [op] ∧ op_type op = CREATE)
    as Hs2.
  { apply enqueue_all_keeps_create; [|done].
    exists op. split; [|done]. unfold pending_for. rewrite Hq1, filter_app.
    fold (pending_for entity entityId s). rewrite Hnone. simpl.
    by rewrite filter_cons_True, filter_nil. }
  split_and!; [done|..].
  - by apply delete_removes_pending_create.
  - intros ->. subst s3 s2. rewrite getQueue_addToQueue.
    change (enqueue_all [] s1) with s1. rewrite Hq1. unfold coalesce.
    rewrite list_find_app_r by done. simpl.
    rewrite decide_True by done. simpl.
    rewrite delete_take_drop, take_app_length.
    rewrite drop_app_ge by lia.
    replace (S (length (getQueue s)) - length (getQueue s)) with 1 by lia.
    simpl. by rewrite app_nil_r.
  - intros s' Hs'. by apply delete_removes_pending_create.
Qed.

Lemma create_then_delete_cancels_witness :
  let s := {| stored := Some [ {| op_id := "9-z"; op_type := UPDATE;
                                  op_entity := item; op_entityId := "item-7";
                                  op_data := PNull;
                                  op_timestamp := "2026-01-01T09:00:00.000Z";
                                  op_retries := 1 |} ];
              isSyncing := false |} in
  let between :=
    [ {| call_id := "3-c"; call_now := "2026-01-01T10:00:00.500Z";
         call_type := UPDATE; call_entity := container;
         call_entityId := "temp-1";
         call_data := DObject {[ "color" := Some (JStr "red") ]} |};
      {| call_id := "4-d"; call_now := "2026-01-01T10:00:00.700Z";
         call_type := DELETE; call_entity := item;
         call_entityId := "item-7"; call_data := DNull |} ] in
  (pending_for container "temp-1" s = [] ∧
   Forall (λ c, ¬ deletes container "temp-1" c) between) ∧
  pending_for container "temp-1"
    (addToQueue "2-b" "2026-01-01T10:00:01.000Z" DELETE container "temp-1" DNull
       (enqueue_all between
          (addToQueue "1-a" "2026-01-01T10:00:00.000Z" CREATE container "temp-1"
             DNull s).2)).2 = [].
Proof.
  intros s between.
  assert (Forall (λ c, ¬ deletes container "temp-1" c) between) as Hbetween.
  { repeat constructor; intros (Ht & He & Hid); discriminate. }
  split; [by split|].
  destruct (create_then_delete_cancels s container "temp-1"
              "1-a" "2026-01-01T10:00:00.000Z" DNull between
              "2-b" "2026-01-01T10:00:01.000Z" DNull eq_refl Hbetween)
    as (_ & Hempty & _ & _).
  exact Hempty.
Defined.

(** The persisted merge is an object, and holds for each property the
    incoming value, nothing when the incoming object holds [undefined], and
    the stored value when the incoming object lacks the property. *)
Lemma shallow_merge_fields (existing : Payload) (incoming : Data) :
  ∃ fields,
    shallow_merge existing incoming = PObject fields ∧
    ∀ k, fields !! k =
         match spread incoming !! k with
         | Some (Some v) => Some v
         | Some None => None
         | None => fields_of existing !! k
         end.
Proof.
  unfold shallow_merge, object_spread. simpl. eexists. split; [done|].
  intros k. rewrite lookup_omap, lookup_union.
  destruct (spread incoming !! k) as [[v|]|] eqn:Hin; simpl.
  - by destruct (spread (parse existing) !! k).
  - by destruct (spread (parse existing) !! k).
  - destruct existing as [|o]; simpl; [by rewrite lookup_empty|].
    rewrite lookup_fmap. by destruct (o !! k).
Qed.

(** C3.  When [addToQueue] finds an operation [existing] for the entity, at
    index [i]:
      - CREATE then UPDATE: the slot keeps [existing] (a CREATE, same
        identifier, timestamp and retry counter) with the payload
        [{...existing.data, ...data}];
      - UPDATE then UPDATE: the slot keeps [existing] with the merged payload
        and the timestamp of the incoming operation;
      - UPDATE then DELETE: the slot holds the incoming DELETE operation,
        whose payload is the incoming one;
      - an existing DELETE: whatever comes in, the slot holds a DELETE.
    The merged payload is an object that holds, property by property, the
    incoming value where the incoming data have one, and the stored value
    where the incoming data lack the property; a property the incoming data
    hold as [undefined] is not persisted.  In each of these cases the queue
    keeps its length: no second operation is queued. *)
Theorem coalescing_table (s : t) id now type entity entityId data i existing :
  list_find (targets entity entityId) (getQueue s) = Some (i, existing) →
  let s' := (addToQueue id now type entity entityId data s).2 in
  let merged := shallow_merge (op_data existing) data in
  (∃ fields,
     merged = PObject fields ∧
     ∀ k, fields !! k =
          match spread data !! k with
          | Some (Some v) => Some v
          | Some None => None
          | None => fields_of (op_data existing) !! k
          end) ∧
  (op_type existing = CREATE → type = UPDATE →
     getQueue s' = <[i := set_data merged existing]> (getQueue s) ∧
     op_type (set_data merged existing) = CREATE) ∧
  (op_type existing = UPDATE → type = UPDATE →
     getQueue s' =
       <[i := set_timestamp now (set_data merged existing)]> (getQueue s) ∧
     op_type (set_timestamp now (set_data merged existing)) = UPDATE) ∧
  (op_type existing = UPDATE → type = DELETE →
     getQueue s' =
       <[i := {| op_id := id; op_type := DELETE; op_entity := entity;
                 op_entityId := entityId; op_data := stringify data;
                 op_timestamp := now; op_retries := 0 |}]> (getQueue s)) ∧
  (op_type existing = DELETE →
     length (getQueue s') = length (getQueue s) ∧
     ∃ op, getQueue s' !! i = Some op ∧ op_type op = DELETE).
Proof.
  intros Hfind s' merged.
  assert (getQueue s' =
          coalesce id now type entity entityId data (getQueue s)) as Hq by done.
  pose proof Hfind as (Hi & _ & _)%list_find_Some.
  pose proof (lookup_lt_Some _ _ _ Hi) as Hlt.
  rewrite Hq. unfold coalesce. rewrite Hfind.
  split_and!.
  - apply shallow_merge_fields.
  - intros Hex ->. rewrite Hex. done.
  - intros Hex ->. rewrite Hex. done.
  - intros Hex ->. rewrite Hex. done.
  - intros Hex. rewrite Hex. destruct type.
    + split; [done|]. by exists existing.
    + rewrite length_insert. split; [done|]. eexists. split.
      * by apply list_lookup_insert_eq.
      * done.
    + rewrite length_insert. split; [done|]. eexists. split.
      * by apply list_lookup_insert_eq.
      * done.
Qed.

Lemma coalescing_table_witness :
  let existing := {| op_id := "1-a"; op_type := UPDATE; op_entity := container;
                     op_entityId := "c-1";
                     op_data := PObject {[ "name" := JStr "Attic" ]};
                     op_timestamp := "2026-01-01T10:00:00.000Z";
                     op_retries := 2 |} in
  let s := {| stored := Some [existing]; isSyncing := false |} in
  let incoming := DObject {[ "color" := Some (JStr "red") ]} in
  list_find (targets container "c-1") (getQueue s) = Some (0, existing) ∧
  ∃ fields,
    getQueue
      (addToQueue "2-b" "2026-01-01T10:00:05.000Z" UPDATE container "c-1"
         incoming s).2 =
    [ {| op_id := "1-a"; op_type := UPDATE; op_entity := container;
         op_entityId := "c-1";
         op_data := PObject fields;
         op_timestamp := "2026-01-01T10:00:05.000Z";
         op_retries := 2 |} ] ∧
    fields !! "name" = Some (JStr "Attic") ∧
    fields !! "color" = Some (JStr "red") ∧
    fields !! "row" = None.
Proof.
  intros existing s incoming. split; [reflexivity|].
  destruct (coalescing_table s "2-b" "2026-01-01T10:00:05.000Z" UPDATE
              container "c-1" incoming 0 existing eq_refl)
    as ((fields & Hmerged & Hfields) & _ & Hupdate & _ & _).
  destruct (Hupdate eq_refl eq_refl) as [Hqueue _].
  exists fields. split_and!.
  - rewrite Hqueue, Hmerged. reflexivity.
  - by rewrite Hfields.
  - by rewrite Hfields.
  - by rewrite Hfields.
Defined.

Lemma Forall_insert_2 {A} (P : A → Prop) (l : list A) i x :
  Forall P l → P x → Forall P (<[i := x]> l).
Proof.
  intros Hl Hx. apply Forall_lookup. intros j y Hj.
  apply list_lookup_insert_Some in Hj as [(-> & <- & _)|[_ Hj]]; [done|].
  by eapply Forall_lookup_1.
Qed.

Lemma Forall_filter_2 {A} (P Q : A → Prop) `{!∀ x, Decision (Q x)} (l : list A) :
  Forall P l → Forall P (filter Q l).
Proof.
  intros Hl. apply Forall_forall. intros x [_ Hx]%list_elem_of_filter.
  by eapply Forall_forall.
Qed.

Lemma Forall_delete_2 {A} (P : A → Prop) (l : list A) i :
  Forall P l → Forall P (delete i l).
Proof.
  intros Hl. eapply Forall_forall. intros x Hx.
  eapply Forall_forall; [exact Hl|].
  eapply sublist_subseteq; [apply sublist_delete|done].
Qed.

(** [addToQueue] queues a CREATE only when it is called with one. *)
Lemma coalesce_creates_temporary id now type entity entityId data queue :
  Forall temporary_create queue →
  (type = CREATE → String.prefix "temp-" entityId = true) →
  Forall temporary_create (coalesce id now type entity entityId data queue).
Proof.
  intros Hq Hnew. unfold coalesce.
  destruct (list_find _ queue) as [[i existing]|] eqn:Hfind.
  - apply list_find_Some in Hfind as (Hi & [He Hid] & _).
    pose proof (Forall_lookup_1 _ _ _ _ Hq Hi) as Hex.
    destruct type; [done|..].
    + destruct (op_type existing) eqn:Hty;
        (apply Forall_insert_2; [done|]); unfold temporary_create in *;
        simpl; rewrite ?Hty; auto; by intros ?.
    + destruct (op_type existing) eqn:Hty;
        [by apply Forall_delete_2|..];
        (apply Forall_insert_2; [done|]); by intros ?.
  - apply Forall_app. split; [done|].
    constructor; [|done]. exact Hnew.
Qed.

(** A DELETE for an identifier that is not temporary leaves every queued
    CREATE where it is. *)
Lemma coalesce_delete_keeps_creates id now entity entityId data queue op :
  Forall temporary_create queue →
  String.prefix "temp-" entityId = false →
  op ∈ queue → op_type op = CREATE →
  op ∈ coalesce id now DELETE entity entityId data queue.
Proof.
  intros Hq Hid Hop Hcreate. unfold coalesce.
  destruct (list_find _ queue) as [[i existing]|] eqn:Hfind.
  - apply list_find_Some in Hfind as (Hi & [He Hexid] & _).
    pose proof (Forall_lookup_1 _ _ _ _ Hq Hi) as Hex.
    unfold temporary_create in Hex. rewrite Hexid, Hid in Hex.
    assert (op_type existing ≠ CREATE) as Hty by (intros ?; by specialize (Hex ltac:(done))).
    assert (op ∈ <[i := {| op_id := id; op_type := DELETE; op_entity := entity;
                           op_entityId := entityId; op_data := stringify data;
                           op_timestamp := now; op_retries := 0 |}]> queue).
    { apply list_elem_of_lookup in Hop as [k Hk].
      apply list_elem_of_lookup. exists k.
      rewrite list_lookup_insert_ne; [done|].
      intros ->. rewrite Hi in Hk. by simplify_eq. }
    by destruct (op_type existing).
  - apply elem_of_app. by left.
Qed.

End Slots.

End QueueProperties.

(** ** The drain: order of replay, refusals, retries *)

Module DrainProperties.

Import SyncQueue.

Section Order.
Context (getTime : string → Z).

Lemma sort_insert_perm op l : sort_insert getTime op l ≡ₚ op :: l.
Proof.
  induction l as [|x l IH]; simpl; [done|].
  destruct (_ <=? _)%Z; [done|].
  rewrite IH. apply Permutation_swap.
Qed.

Lemma sort_by_timestamp_perm queue : sort_by_timestamp getTime queue ≡ₚ queue.
Proof.
  induction queue as [|x l IH]; simpl; [done|].
  by rewrite sort_insert_perm, IH.
Qed.

Lemma sort_insert_sorted op l :
  StronglySorted (not_after getTime) l → StronglySorted (not_after getTime) (sort_insert getTime op l).
Proof.
  induction 1 as [|x l Hl IH Hx]; simpl.
  - repeat constructor.
  - destruct (_ <=? _)%Z eqn:Hle.
    + apply Z.leb_le in Hle. constructor; [by constructor|].
      constructor; [done|].
      eapply Forall_impl; [exact Hx|]. unfold not_after. simpl. intros; lia.
    + apply Z.leb_gt in Hle. constructor; [done|].
      rewrite sort_insert_perm. constructor; [|done].
      unfold not_after. lia.
Qed.

Lemma sort_by_timestamp_sorted queue :
  StronglySorted (not_after getTime) (sort_by_timestamp getTime queue).
Proof.
  induction queue as [|x l IH]; simpl; [constructor|].
  by apply sort_insert_sorted.
Qed.

Lemma sorted_lookup_le (l : list SyncOperation) i j a b :
  StronglySorted (not_after getTime) l →
  l !! i = Some a → l !! j = Some b → i < j → not_after getTime a b.
Proof.
  intros Hs. revert i j. induction Hs as [|x l Hl IH Hx]; intros i j Hi Hj Hlt.
  - done.
  - destruct i as [|i], j as [|j]; simplify_eq/=; try lia.
    + eapply Forall_forall; [exact Hx|]. by eapply list_elem_of_lookup_2.
    + eapply IH; [done..|lia].
Qed.

End Order.

Section Trace.
Context {E : Type}.
Context (getTime : string → Z).
Context (executor : SyncOperation → E → ExecResult * E).
Implicit Types (s : t) (c : Counts) (e : E) (ops : list SyncOperation)
  (log : list (SyncOperation * ExecResult)).

Lemma process_operation_isSyncing {X} (ex : SyncOperation → X → ExecResult * X)
    (acc : Counts * t * X) op :
  isSyncing (process_operation ex acc op).1.2 = isSyncing acc.1.2.
Proof.
  destruct acc as [[c s] e]. unfold process_operation.
  destruct (ex op e) as [[[]|] e']; simpl; try done.
  repeat case_match; done.
Qed.

Lemma process_all_isSyncing {X} (ex : SyncOperation → X → ExecResult * X)
    ops (acc : Counts * t * X) :
  isSyncing (process_all ex ops acc).1.2 = isSyncing acc.1.2.
Proof.
  revert acc. induction ops as [|op ops IH]; intros acc; [done|].
  unfold process_all in *. cbn [foldl]. by rewrite IH, process_operation_isSyncing.
Qed.

(** The tracing executor changes nothing but the trace. *)
Lemma process_operation_traced c s e log op :
  ∃ r, process_operation (traced executor) (c, s, (e, log)) op =
       ((process_operation executor (c, s, e) op).1,
        ((process_operation executor (c, s, e) op).2, log ++ [(op, r)])) ∧
       r = (executor op e).1.
Proof.
  unfold process_operation, traced. simpl.
  destruct (executor op e) as [[[]|] e'] eqn:Hex; simpl;
    (eexists; split; [|reflexivity]); try done.
  repeat case_match; done.
Qed.

Lemma process_operation_failed c s e op :
  failed (process_operation executor (c, s, e) op).1.1 =
  failed c + length (filter (λ entry, counted_failed entry)
                       [(op, (executor op e).1)]).
Proof.
  unfold process_operation, counted_failed.
  rewrite filter_cons, filter_nil. simpl.
  destruct (executor op e) as [[[]|] e']; simpl; [lia| |lia].
  destruct (op_retries op) as [|[|r]]; simpl;
    repeat case_match; simpl; lia.
Qed.

Lemma process_all_traced ops c s e log :
  ∃ new, process_all (traced executor) ops (c, s, (e, log)) =
         ((process_all executor ops (c, s, e)).1,
          ((process_all executor ops (c, s, e)).2, log ++ new)) ∧
         new.*1 = ops ∧
         Forall (λ entry, ∃ e', entry.2 = (executor entry.1 e').1) new ∧
         failed (process_all executor ops (c, s, e)).1.1 =
           failed c + length (filter (λ entry, counted_failed entry) new).
Proof.
  revert c s e log. induction ops as [|op ops IH]; intros c s e log.
  - exists []. rewrite app_nil_r. split_and!; try done.
  - unfold process_all in *. cbn [foldl].
    destruct (process_operation_traced c s e log op) as (r & -> & Hr).
    pose proof (process_operation_failed c s e op) as Hfail.
    destruct (process_operation executor (c, s, e) op) as [[c1 s1] e1].
    cbn [fst snd] in *.
    destruct (IH c1 s1 e1 (log ++ [(op, r)])) as (new & -> & Hnew & Hall & Hf).
    exists ((op, r) :: new). split_and!.
    + by rewrite <- app_assoc.
    + by rewrite fmap_cons, Hnew.
    + constructor; [|done]. by exists e.
    + rewrite Hf, Hfail, <- Hr.
      rewrite (filter_cons _ (op, r) new), (filter_cons _ (op, r) []), filter_nil.
      destruct (decide _); simpl; lia.
Qed.

Lemma traced_pass_faithful probe n s e :
  (traced_pass getTime executor probe (n, s, e)).1.1 =
    (processQueue getTime executor probe n s e).1.1.1 ∧
  (traced_pass getTime executor probe (n, s, e)).2 =
    ((processQueue getTime executor probe n s e).1.1.2,
     (processQueue getTime executor probe n s e).1.2,
     (processQueue getTime executor probe n s e).2).
Proof.
  unfold traced_pass, processQueue. simpl.
  destruct (isSyncing s); [done|].
  destruct (negb _); [done|].
  destruct (process_all_traced
              (sort_by_timestamp getTime (getQueue (set_isSyncing true s)))
              no_counts (set_isSyncing true s) e []) as (new & -> & _ & _ & _).
  by destruct (process_all executor _ _) as [[??]?].
Qed.

Lemma invocations_admitted probe n s e :
  isSyncing s = false → NetworkStatus.reported probe = true →
  invocations getTime executor probe (n, s, e) =
    sort_by_timestamp getTime (getQueue s).
Proof.
  intros Hs Hp. unfold invocations, traced_pass, processQueue. simpl.
  rewrite Hs, Hp. simpl.
  destruct (process_all_traced
              (sort_by_timestamp getTime (getQueue (set_isSyncing true s)))
              no_counts (set_isSyncing true s) e []) as (new & -> & Hnew & _ & _).
  by destruct (process_all executor _ _) as [[??]?].
Qed.

Lemma invocations_refused probe n s e :
  isSyncing s = true ∨ NetworkStatus.reported probe = false →
  invocations getTime executor probe (n, s, e) = [].
Proof.
  intros Hr. unfold invocations, traced_pass, processQueue. simpl.
  destruct (isSyncing s); [done|].
  destruct Hr as [Hr|Hr]; [done|]. by rewrite Hr.
Qed.

(** C4.  In a drain that runs (no other drain in progress, connectivity
    confirmed), the executor is called on exactly the stored operations, in
    ascending order of enqueue time, and for two stored operations [a] and
    [b] with [a] enqueued strictly before [b], on [a] before [b]: some call
    on [a] precedes a call on [b], and no call on [b] precedes a call on
    [a].  The order of the stored queue plays no part. *)
Theorem replay_in_timestamp_order probe n s e a b :
  isSyncing s = false →
  NetworkStatus.reported probe = true →
  a ∈ getQueue s → b ∈ getQueue s →
  (getTime (op_timestamp a) < getTime (op_timestamp b))%Z →
  let calls := invocations getTime executor probe (n, s, e) in
  calls ≡ₚ getQueue s ∧
  StronglySorted (not_after getTime) calls ∧
  (∃ i j, calls !! i = Some a ∧ calls !! j = Some b ∧ i < j) ∧
  (∀ i j, calls !! i = Some a → calls !! j = Some b → i < j).
Proof.
  intros Hs Hp Ha Hb Hlt calls.
  assert (calls = sort_by_timestamp getTime (getQueue s)) as Hcalls
    by by apply invocations_admitted.
  assert (calls ≡ₚ getQueue s) as Hperm
    by (rewrite Hcalls; apply sort_by_timestamp_perm).
  assert (∀ i j, calls !! i = Some a → calls !! j = Some b → i < j) as Horder.
  { intros i j Hi Hj. destruct (decide (i < j)) as [|Hge]; [done|].
    exfalso. destruct (decide (i = j)) as [->|Hne].
    - rewrite Hi in Hj. simplify_eq. lia.
    - assert (not_after getTime b a) as Hba.
      { eapply (sorted_lookup_le getTime calls j i); [|done..|lia].
        rewrite Hcalls. apply sort_by_timestamp_sorted. }
      unfold not_after in Hba. lia. }
  split_and!; [done| | |done].
  { rewrite Hcalls. apply sort_by_timestamp_sorted. }
  rewrite <- Hperm in Ha, Hb.
  apply list_elem_of_lookup in Ha as [i Hi], Hb as [j Hj].
  exists i, j. eauto.
Qed.

(** What the in-progress flag does give.  A drain asked for while the flag
    is up returns [{success: 0, failed: 0}] at once: the executor is not
    called and nothing changes.  A drain that nothing interleaves with raises
    the flag once its connectivity re-check has passed and keeps it up in
    every state its loop goes through ([in_progress]).  A drain whose
    connectivity re-check reports unreachable returns the same counts, calls
    no executor, and leaves the persisted queue (and what the executor works
    on) as it was. *)
Theorem drain_refused probe n s e :
  (isSyncing s = true →
     processQueue getTime executor probe n s e = (no_counts, n, s, e) ∧
     invocations getTime executor probe (n, s, e) = []) ∧
  (∀ s0 e0 done,
     let mid := (in_progress getTime executor s0 e0 done).1.2 in
     processQueue getTime executor probe n mid e = (no_counts, n, mid, e) ∧
     invocations getTime executor probe (n, mid, e) = []) ∧
  (isSyncing s = false → NetworkStatus.reported probe = false →
     processQueue getTime executor probe n s e =
       (no_counts, NetworkStatus.set_isConnected false n, s, e) ∧
     invocations getTime executor probe (n, s, e) = []).
Proof.
  assert (∀ s', isSyncing s' = true →
            processQueue getTime executor probe n s' e = (no_counts, n, s', e) ∧
            invocations getTime executor probe (n, s', e) = []) as Hbusy.
  { intros s' Hs'. split.
    - unfold processQueue. by rewrite Hs'.
    - apply invocations_refused. by left. }
  split_and!.
  - apply Hbusy.
  - intros s0 e0 done mid. apply Hbusy. subst mid.
    unfold in_progress. by rewrite process_all_isSyncing.
  - intros Hs Hp. split.
    + unfold processQueue, NetworkStatus.checkConnection. rewrite Hs. simpl.
      by rewrite Hp.
    + apply invocations_refused. by right.
Qed.

End Trace.

Lemma replay_in_timestamp_order_witness :
  let getTime := λ ts : string,
    if String.eqb ts "2026-01-01T10:00:00.000Z" then 1767261600000%Z
    else 1767261605000%Z in
  let a := {| op_id := "1-a"; op_type := CREATE; op_entity := container;
              op_entityId := "temp-1"; op_data := PNull;
              op_timestamp := "2026-01-01T10:00:00.000Z"; op_retries := 0 |} in
  let b := {| op_id := "2-b"; op_type := UPDATE; op_entity := item;
              op_entityId := "item-7"; op_data := PNull;
              op_timestamp := "2026-01-01T10:00:05.000Z"; op_retries := 0 |} in
  let s := {| stored := Some [b; a]; isSyncing := false |} in
  let executor := λ (_ : SyncOperation) (e : unit), (Resolved true, e) in
  let probe := {| NetworkStatus.ni_isConnected := Some true |} in
  (getTime (op_timestamp a) < getTime (op_timestamp b))%Z ∧
  ∀ i j,
    invocations getTime executor probe (NetworkStatus.init, s, tt) !! i = Some a →
    invocations getTime executor probe (NetworkStatus.init, s, tt) !! j = Some b →
    i < j.
Proof.
  intros getTime a b s executor probe.
  split; [reflexivity|].
  apply (replay_in_timestamp_order getTime executor probe NetworkStatus.init
           s tt a b); try reflexivity.
  - apply list_elem_of_lookup. by exists 1.
  - apply list_elem_of_lookup. by exists 0.
Defined.

Lemma drain_refused_witness :
  let getTime := λ _ : string, 0%Z in
  let a := {| op_id := "1-a"; op_type := CREATE; op_entity := container;
              op_entityId := "temp-1"; op_data := PNull;
              op_timestamp := "2026-01-01T10:00:00.000Z"; op_retries := 0 |} in
  let s := {| stored := Some [a]; isSyncing := true |} in
  let executor := λ (_ : SyncOperation) (e : unit), (Resolved true, e) in
  let probe := {| NetworkStatus.ni_isConnected := Some true |} in
  isSyncing s = true ∧
  processQueue getTime executor probe NetworkStatus.init s tt =
    (no_counts, NetworkStatus.init, s, tt).
Proof.
  intros getTime a s executor probe. split; [reflexivity|].
  destruct (drain_refused getTime executor probe NetworkStatus.init s tt)
    as (Hbusy & _ & _).
  destruct (Hbusy eq_refl) as [Hq _]. exact Hq.
Defined.

Section Retry.
Context {E : Type}.
Context (getTime : string → Z).
Context (executor : SyncOperation → E → ExecResult * E).
Implicit Types (s : t) (c : Counts) (e : E) (ops : list SyncOperation)
  (log : list (SyncOperation * ExecResult)).

Lemma getQueue_removeFromQueue operationId s :
  getQueue (removeFromQueue operationId s) =
  filter (λ op, op_id op ≠ operationId) (getQueue s).
Proof. done. Qed.

Lemma getQueue_saveQueue queue s : getQueue (saveQueue queue s) = queue.
Proof. done. Qed.

(** An iteration on another operation leaves [o] in the persisted queue. *)
Lemma process_operation_keeps {X} (ex : SyncOperation → X → ExecResult * X)
    c s (x : X) op o :
  o ∈ getQueue s → op_id op ≠ op_id o →
  o ∈ getQueue (process_operation ex (c, s, x) op).1.2.
Proof.
  intros Ho Hne. unfold process_operation.
  destruct (ex op x) as [[[]|] x']; cbn [fst snd]; [| |done].
  - rewrite getQueue_removeFromQueue. apply list_elem_of_filter. split; [congruence|done].
  - destruct (3 <=? _).
    + cbn [fst snd]. rewrite getQueue_removeFromQueue.
      apply list_elem_of_filter. split; [simpl; congruence|done].
    + destruct (list_find _ _) as [[j y]|] eqn:Hfind; cbn [fst snd]; [|done].
      apply list_find_Some in Hfind as (Hj & Hy & _). simpl in Hy.
      apply list_elem_of_lookup in Ho as [k Hk].
      rewrite getQueue_saveQueue.
      apply list_elem_of_lookup. exists k.
      rewrite list_lookup_insert_ne; [done|].
      intros ->. rewrite Hj in Hk. by simplify_eq.
Qed.

Lemma process_all_keeps {X} (ex : SyncOperation → X → ExecResult * X)
    ops c s (x : X) o :
  o ∈ getQueue s → Forall (λ op, op_id op ≠ op_id o) ops →
  o ∈ getQueue (process_all ex ops (c, s, x)).1.2.
Proof.
  revert c s x. induction ops as [|op ops IH]; intros c s x Ho Hall; [done|].
  apply Forall_cons in Hall as [Hop Hall].
  unfold process_all in *. cbn [foldl].
  pose proof (process_operation_keeps ex c s x op o Ho Hop) as Hkeep.
  destruct (process_operation ex (c, s, x) op) as [[c1 s1] x1].
  by apply IH.
Qed.

(** An iteration on another operation queues nothing under [id]. *)
Lemma process_operation_absent {X} (ex : SyncOperation → X → ExecResult * X)
    c s (x : X) op id :
  (∀ o, o ∈ getQueue s → op_id o ≠ id) → op_id op ≠ id →
  ∀ o, o ∈ getQueue (process_operation ex (c, s, x) op).1.2 → op_id o ≠ id.
Proof.
  intros Hs Hne o. unfold process_operation.
  destruct (ex op x) as [[[]|] x']; cbn [fst snd]; [| |by auto].
  - rewrite getQueue_removeFromQueue. intros [_ Ho]%list_elem_of_filter. by auto.
  - destruct (3 <=? _).
    + cbn [fst snd]. rewrite getQueue_removeFromQueue.
      intros [_ Ho]%list_elem_of_filter. by auto.
    + destruct (list_find _ _) as [[j y]|] eqn:Hfind; cbn [fst snd]; [|by auto].
      rewrite getQueue_saveQueue. intros [k Hk]%list_elem_of_lookup.
      apply list_lookup_insert_Some in Hk as [(-> & <- & _)|[_ Hk]]; [done|].
      apply Hs. by eapply list_elem_of_lookup_2.
Qed.

Lemma process_all_absent {X} (ex : SyncOperation → X → ExecResult * X)
    ops c s (x : X) id :
  (∀ o, o ∈ getQueue s → op_id o ≠ id) → Forall (λ op, op_id op ≠ id) ops →
  ∀ o, o ∈ getQueue (process_all ex ops (c, s, x)).1.2 → op_id o ≠ id.
Proof.
  revert c s x. induction ops as [|op ops IH]; intros c s x Hs Hall; [done|].
  apply Forall_cons in Hall as [Hop Hall].
  unfold process_all in *. cbn [foldl].
  pose proof (process_operation_absent ex c s x op id Hs Hop) as Habs.
  destruct (process_operation ex (c, s, x) op) as [[c1 s1] x1].
  by apply IH.
Qed.

(** Identifiers stay unique in the persisted queue. *)
Lemma process_operation_ids {X} (ex : SyncOperation → X → ExecResult * X)
    c s (x : X) op :
  NoDup (op_id <$> getQueue s) →
  NoDup (op_id <$> getQueue (process_operation ex (c, s, x) op).1.2).
Proof.
  intros Hnd. unfold process_operation.
  assert (∀ id, NoDup (op_id <$> getQueue (removeFromQueue id s))) as Hrm.
  { intros id. rewrite getQueue_removeFromQueue.
    eapply sublist_NoDup; [exact Hnd|]. apply fmap_sublist, sublist_filter. }
  destruct (ex op x) as [[[]|] x']; cbn [fst snd]; [apply Hrm| |done].
  destruct (3 <=? _); [apply Hrm|].
  destruct (list_find _ _) as [[j y]|] eqn:Hfind; cbn [fst snd]; [|done].
  apply list_find_Some in Hfind as (Hj & Hy & _). simpl in Hy.
  rewrite getQueue_saveQueue, list_fmap_insert, list_insert_id; [done|].
  rewrite list_lookup_fmap, Hj. simpl. by rewrite Hy.
Qed.

Lemma process_all_ids {X} (ex : SyncOperation → X → ExecResult * X)
    ops c s (x : X) :
  NoDup (op_id <$> getQueue s) →
  NoDup (op_id <$> getQueue (process_all ex ops (c, s, x)).1.2).
Proof.
  revert c s x. induction ops as [|op ops IH]; intros c s x Hnd; [done|].
  unfold process_all in *. cbn [foldl].
  pose proof (process_operation_ids ex c s x op Hnd) as Hnd1.
  destruct (process_operation ex (c, s, x) op) as [[c1 s1] x1].
  by apply IH.
Qed.

(** The iteration on an operation that is not handled. *)
Lemma process_operation_not_handled {X} (ex : SyncOperation → X → ExecResult * X)
    c s (x : X) op :
  op ∈ getQueue s → (ex op x).1 = Resolved false →
  if 3 <=? S (op_retries op)
  then ∀ o, o ∈ getQueue (process_operation ex (c, s, x) op).1.2 →
            op_id o ≠ op_id op
  else set_retries (S (op_retries op)) op ∈
         getQueue (process_operation ex (c, s, x) op).1.2.
Proof.
  intros Hop Hex. unfold process_operation.
  destruct (ex op x) as [r x']. simpl in Hex. subst r.
  change (op_retries (set_retries (S (op_retries op)) op))
    with (S (op_retries op)).
  destruct (3 <=? S (op_retries op)); cbn [fst snd].
  - intros o. rewrite getQueue_removeFromQueue.
    by intros [Ho _]%list_elem_of_filter.
  - destruct (list_find _ _) as [[j y]|] eqn:Hfind; cbn [fst snd].
    + apply list_find_Some in Hfind as (Hj & _ & _).
      rewrite getQueue_saveQueue.
      apply list_elem_of_insert. by eapply lookup_lt_Some.
    + apply list_find_None in Hfind.
      eapply Forall_forall in Hfind; [|exact Hop]. by destruct Hfind.
Qed.

Lemma filter_id_nil log id :
  id ∉ op_id <$> log.*1 →
  filter (λ entry, op_id entry.1 = id) log = [].
Proof.
  induction log as [|entry log IH]; [done|].
  rewrite !fmap_cons, not_elem_of_cons. intros [Hne Hnot].
  rewrite filter_cons_False by (simpl; congruence). by apply IH.
Qed.

(** With unique identifiers, the trace holds one call for [op]. *)
Lemma trace_of_operation log op r :
  NoDup (op_id <$> log.*1) → op ∈ log.*1 →
  Forall (λ entry, entry.1 = op → entry.2 = r) log →
  filter (λ entry, op_id entry.1 = op_id op) log = [(op, r)].
Proof.
  induction log as [|[x rx] log IH]; [by intros _ ?%not_elem_of_nil|].
  rewrite !fmap_cons. cbn [fst].
  intros [Hx Hnd]%NoDup_cons Hin [Hr Hall]%Forall_cons.
  apply elem_of_cons in Hin as [->|Hin].
  - rewrite filter_cons_True by done.
    rewrite filter_id_nil by done. simpl in Hr. by rewrite Hr.
  - rewrite filter_cons_False; [by apply IH|].
    simpl. intros Heq. apply Hx. rewrite Heq.
    by apply list_elem_of_fmap_2.
Qed.

Lemma filter_split {A} (P Q : A → Prop)
    `{!∀ x, Decision (P x)} `{!∀ x, Decision (Q x)} (l : list A) :
  length (filter P l) =
  length (filter P (filter Q l)) + length (filter P (filter (λ x, ¬ Q x) l)).
Proof.
  induction l as [|x l IH]; [done|].
  rewrite (filter_cons Q), (filter_cons (λ x, ¬ Q x)), (filter_cons P x l).
  destruct (decide (Q x)), (decide (¬ Q x)); try tauto;
    rewrite ?(filter_cons P x); destruct (decide (P x)); simpl; lia.
Qed.

Lemma process_all_not_handled {X} (ex : SyncOperation → X → ExecResult * X)
    ops c s (x : X) op :
  NoDup (op_id <$> ops) → op ∈ ops → op ∈ getQueue s →
  (∀ o x', op_id o = op_id op → (ex o x').1 = Resolved false) →
  if 3 <=? S (op_retries op)
  then ∀ o, o ∈ getQueue (process_all ex ops (c, s, x)).1.2 → op_id o ≠ op_id op
  else set_retries (S (op_retries op)) op ∈
         getQueue (process_all ex ops (c, s, x)).1.2.
Proof.
  intros Hnd Hin Hq Hex.
  apply list_elem_of_split in Hin as (l1 & l2 & ->).
  rewrite fmap_app, fmap_cons in Hnd.
  apply NoDup_app in Hnd as (_ & Hdisj & [Hnot2 _]%NoDup_cons).
  assert (Forall (λ o, op_id o ≠ op_id op) l1) as H1.
  { apply Forall_forall. intros o Ho Heq.
    apply (Hdisj (op_id o)); [by apply list_elem_of_fmap_2|].
    rewrite Heq. apply elem_of_cons. by left. }
  assert (Forall (λ o, op_id o ≠ op_id op) l2) as H2.
  { apply Forall_forall. intros o Ho Heq.
    apply Hnot2. rewrite <- Heq. by apply list_elem_of_fmap_2. }
  unfold process_all. rewrite foldl_app. cbn [foldl].
  fold (process_all ex l1 (c, s, x)).
  pose proof (process_all_keeps ex l1 c s x op Hq H1) as Hkeep.
  destruct (process_all ex l1 (c, s, x)) as [[c1 s1] x1]. cbn [fst snd] in Hkeep.
  pose proof (process_operation_not_handled ex c1 s1 x1 op Hkeep
                (Hex op x1 eq_refl)) as Hstep.
  destruct (process_operation ex (c1, s1, x1) op) as [[c2 s2] x2].
  cbn [fst snd] in Hstep.
  fold (process_all ex l2 (c2, s2, x2)).
  destruct (3 <=? S (op_retries op)).
  - by apply process_all_absent.
  - by apply process_all_keeps.
Qed.

(** One admitted drain over a queue that holds an operation the executor
    does not handle. *)
Lemma pass_not_handled probe n s e op :
  isSyncing s = false → NetworkStatus.reported probe = true →
  NoDup (op_id <$> getQueue s) → op ∈ getQueue s →
  (∀ o e', op_id o = op_id op → (executor o e').1 = Resolved false) →
  let r := traced_pass getTime executor probe (n, s, e) in
  isSyncing r.2.1.2 = false ∧
  NoDup (op_id <$> getQueue r.2.1.2) ∧
  filter (λ entry, op_id entry.1 = op_id op) r.1.2 = [(op, Resolved false)] ∧
  failed r.1.1 = length (filter (λ entry, counted_failed entry) r.1.2) ∧
  (if 3 <=? S (op_retries op)
   then ∀ o, o ∈ getQueue r.2.1.2 → op_id o ≠ op_id op
   else set_retries (S (op_retries op)) op ∈ getQueue r.2.1.2).
Proof.
  intros Hs Hp Hnd Hin Hex r. subst r.
  unfold traced_pass, processQueue, NetworkStatus.checkConnection.
  cbn [fst snd]. rewrite Hs, Hp. cbn [negb NetworkStatus.isConnected
    NetworkStatus.set_isConnected].
  set (s1 := set_isSyncing true s).
  set (ops := sort_by_timestamp getTime (getQueue s1)).
  assert (ops ≡ₚ getQueue s) as Hperm by apply sort_by_timestamp_perm.
  assert (NoDup (op_id <$> ops)) as Hnd' by by rewrite Hperm.
  assert (op ∈ ops) as Hin' by by rewrite Hperm.
  destruct (process_all_traced executor ops no_counts s1 e [])
    as (new & -> & Hnew & Hall & Hfail).
  pose proof (process_all_ids executor ops no_counts s1 e Hnd) as Hids.
  pose proof (process_all_not_handled executor ops no_counts s1 e op
                Hnd' Hin' Hin Hex) as Hq.
  destruct (process_all executor ops (no_counts, s1, e)) as [[c' s'] e'].
  cbn [fst snd app] in *.
  split_and!; try done.
  apply trace_of_operation.
  - by rewrite Hnew.
  - by rewrite Hnew.
  - eapply Forall_impl; [exact Hall|].
    intros entry [e0 Hr] Hop. rewrite Hr, Hop. by apply Hex.
Qed.

(** A drain only removes operations or writes back an operation of its
    snapshot with a new retry counter. *)
Lemma process_all_Forall {X} (ex : SyncOperation → X → ExecResult * X)
    (P : SyncOperation → Prop) ops c s (x : X) :
  (∀ o r, P o → P (set_retries r o)) →
  Forall P ops → Forall P (getQueue s) →
  Forall P (getQueue (process_all ex ops (c, s, x)).1.2).
Proof.
  intros HP. revert c s x.
  induction ops as [|op ops IH]; intros c s x Hops Hs; [done|].
  apply Forall_cons in Hops as [Hop Hops].
  unfold process_all in *. cbn [foldl].
  assert (Forall P (getQueue (process_operation ex (c, s, x) op).1.2)) as Hstep.
  { unfold process_operation.
    assert (∀ id, Forall P (getQueue (removeFromQueue id s))) as Hrm.
    { intros id. rewrite getQueue_removeFromQueue. by apply QueueProperties.Forall_filter_2. }
    destruct (ex op x) as [[[]|] x']; cbn [fst snd]; [apply Hrm| |done].
    destruct (3 <=? _); [apply Hrm|].
    destruct (list_find _ _) as [[j y]|]; cbn [fst snd]; [|done].
    rewrite getQueue_saveQueue.
    apply QueueProperties.Forall_insert_2; [done|]. by apply HP. }
  destruct (process_operation ex (c, s, x) op) as [[c1 s1] x1].
  by apply IH.
Qed.

Lemma processQueue_Forall (P : SyncOperation → Prop) probe n s e :
  (∀ o r, P o → P (set_retries r o)) →
  Forall P (getQueue s) →
  Forall P (getQueue (processQueue getTime executor probe n s e).1.2).
Proof.
  intros HP Hs. unfold processQueue.
  destruct (isSyncing s); [done|].
  destruct (NetworkStatus.checkConnection probe n) as [connected n'].
  destruct (negb connected); [done|].
  pose proof (process_all_Forall executor P
                (sort_by_timestamp getTime (getQueue (set_isSyncing true s)))
                no_counts (set_isSyncing true s) e HP) as Hall.
  destruct (process_all executor _ _) as [[c' s'] e']. cbn [fst snd] in *.
  apply Hall; [|done].
  by rewrite sort_by_timestamp_perm.
Qed.

(** C5.  Let the executor answer "not handled" ([false], no rejection) for
    an operation freshly queued (retry counter 0), in a queue with unique
    operation identifiers, over three drains that run one after the other.
    After the first drain the operation is still queued, with counter 1,
    and after the second with counter 2; in both, the [failed] count of the
    drain is made of the failures of the other operations only.  The third
    drain removes it, and its [failed] count is one more than the failures
    of the other operations.  In each drain the executor is called on the
    operation once, with the counter as persisted. *)
Theorem retry_exhaustion p1 p2 p3 n0 s0 e0 op :
  isSyncing s0 = false →
  NetworkStatus.reported p1 = true →
  NetworkStatus.reported p2 = true →
  NetworkStatus.reported p3 = true →
  NoDup (op_id <$> getQueue s0) →
  op ∈ getQueue s0 →
  op_retries op = 0 →
  (∀ o e, op_id o = op_id op → (executor o e).1 = Resolved false) →
  let r1 := traced_pass getTime executor p1 (n0, s0, e0) in
  let r2 := traced_pass getTime executor p2 r1.2 in
  let r3 := traced_pass getTime executor p3 r2.2 in
  let this log := filter (λ entry, op_id entry.1 = op_id op) log in
  let others log := filter (λ entry, ¬ op_id entry.1 = op_id op) log in
  let failures log := length (filter (λ entry, counted_failed entry) log) in
  (set_retries 1 op ∈ getQueue r1.2.1.2 ∧
   this r1.1.2 = [(op, Resolved false)] ∧
   failed r1.1.1 = failures (others r1.1.2)) ∧
  (set_retries 2 op ∈ getQueue r2.2.1.2 ∧
   this r2.1.2 = [(set_retries 1 op, Resolved false)] ∧
   failed r2.1.1 = failures (others r2.1.2)) ∧
  ((∀ o, o ∈ getQueue r3.2.1.2 → op_id o ≠ op_id op) ∧
   this r3.1.2 = [(set_retries 2 op, Resolved false)] ∧
   failed r3.1.1 = S (failures (others r3.1.2))).
Proof.
  intros Hs Hp1 Hp2 Hp3 Hnd Hin Hr Hex r1 r2 r3 this others failures.
  assert (∀ log, failures log = failures (this log) + failures (others log))
    as Hsplit.
  { intros log. subst failures this others. cbv beta.
    apply (filter_split (λ entry, counted_failed entry)
             (λ entry, op_id entry.1 = op_id op)). }
  pose proof (pass_not_handled p1 n0 s0 e0 op Hs Hp1 Hnd Hin Hex)
    as (Hs1 & Hnd1 & Ht1 & Hf1 & Hq1).
  fold r1 in Hs1, Hnd1, Ht1, Hf1, Hq1.
  rewrite Hr in Hq1. cbn [Nat.leb] in Hq1.
  destruct r1 as [[c1 log1] [[n1 s1] e1]]. cbn [fst snd] in *.
  pose proof (pass_not_handled p2 n1 s1 e1 (set_retries 1 op) Hs1 Hp2 Hnd1 Hq1 Hex)
    as (Hs2 & Hnd2 & Ht2 & Hf2 & Hq2).
  fold r2 in Hs2, Hnd2, Ht2, Hf2, Hq2.
  cbn [op_retries set_retries Nat.leb] in Hq2.
  destruct r2 as [[c2 log2] [[n2 s2] e2]]. cbn [fst snd] in *.
  pose proof (pass_not_handled p3 n2 s2 e2 (set_retries 2 op) Hs2 Hp3 Hnd2 Hq2 Hex)
    as (Hs3 & Hnd3 & Ht3 & Hf3 & Hq3).
  fold r3 in Hs3, Hnd3, Ht3, Hf3, Hq3.
  cbn [op_retries set_retries Nat.leb] in Hq3.
  destruct r3 as [[c3 log3] [[n3 s3] e3]]. cbn [fst snd] in *.
  fold (failures log1) in Hf1. fold (failures log2) in Hf2.
  fold (failures log3) in Hf3.
  rewrite Hsplit in Hf1, Hf2, Hf3.
  fold (this log1) in Ht1. fold (this log2) in Ht2. fold (this log3) in Ht3.
  cbn [op_id set_retries] in Ht2, Ht3.
  fold (this log2) in Ht2. fold (this log3) in Ht3.
  rewrite Ht1 in Hf1. rewrite Ht2 in Hf2. rewrite Ht3 in Hf3.
  assert (∀ o, failures [(o, Resolved false)] =
               if 3 <=? S (op_retries o) then 1 else 0) as Hone.
  { intros o. unfold failures. rewrite filter_cons, filter_nil.
    unfold counted_failed. cbn [fst snd].
    by destruct (3 <=? S (op_retries o)). }
  rewrite Hone in Hf1, Hf2, Hf3.
  rewrite Hr in Hf1. cbn [op_retries set_retries Nat.leb] in Hf1, Hf2, Hf3.
  split_and!; done.
Qed.

End Retry.

Lemma retry_exhaustion_witness :
  let getTime := λ _ : string, 0%Z in
  let op := {| op_id := "1-a"; op_type := CREATE; op_entity := item;
               op_entityId := "item-7"; op_data := PNull;
               op_timestamp := "2026-01-01T10:00:00.000Z"; op_retries := 0 |} in
  let s0 := {| stored := Some [op]; isSyncing := false |} in
  let executor := λ (_ : SyncOperation) (e : unit), (Resolved false, e) in
  let probe := {| NetworkStatus.ni_isConnected := Some true |} in
  let r1 := traced_pass getTime executor probe (NetworkStatus.init, s0, tt) in
  let r2 := traced_pass getTime executor probe r1.2 in
  let r3 := traced_pass getTime executor probe r2.2 in
  (isSyncing s0 = false ∧ NoDup (op_id <$> getQueue s0) ∧
   op ∈ getQueue s0 ∧ op_retries op = 0) ∧
  (set_retries 1 op ∈ getQueue r1.2.1.2 ∧ failed r1.1.1 = 0) ∧
  (set_retries 2 op ∈ getQueue r2.2.1.2 ∧ failed r2.1.1 = 0) ∧
  ((∀ o, o ∈ getQueue r3.2.1.2 → op_id o ≠ op_id op) ∧ failed r3.1.1 = 1).
Proof.
  intros getTime op s0 executor probe r1 r2 r3.
  assert (NoDup (op_id <$> getQueue s0)) as Hnd by apply NoDup_singleton.
  assert (op ∈ getQueue s0) as Hin by (by apply list_elem_of_singleton).
  split; [by split_and!|].
  destruct (retry_exhaustion getTime executor probe probe probe
              NetworkStatus.init s0 tt op eq_refl eq_refl eq_refl eq_refl
              Hnd Hin eq_refl (λ _ _ _, eq_refl))
    as ((H1 & _ & _) & (H2 & _ & _) & (H3 & _ & _)).
  split_and!; [exact H1|reflexivity|exact H2|reflexivity|exact H3|reflexivity].
Defined.

Section Awaits.
Context (getTime : string → Z).
Context {E : Type}.
Context (executor : SyncOperation → E → ExecResult * E).

Lemma run_alone_Returned fuel fetched c st :
  run_alone getTime executor fuel fetched (Returned c) st = (Returned c, st).
Proof.
  induction fuel as [|fuel IH]; [done|].
  destruct st as [[n s] e]. cbn [run_alone resume]. apply IH.
Qed.

(** The loop of a drain that nothing interleaves with is the fold
    [process_all], followed by [finally]. *)
Lemma loop_uninterrupted fetched n ops c s e fuel :
  3 * length ops ≤ fuel →
  run_alone getTime executor fuel fetched (next_operation ops c s).1
    (n, (next_operation ops c s).2, e) =
  (Returned (process_all executor ops (c, s, e)).1.1,
   (n, set_isSyncing false (process_all executor ops (c, s, e)).1.2,
    (process_all executor ops (c, s, e)).2)).
Proof.
  revert c s e fuel. induction ops as [|op rest IH]; intros c s e fuel Hfuel.
  - cbn [next_operation fst snd]. by rewrite run_alone_Returned.
  - cbn [next_operation fst snd length] in *.
    destruct fuel as [|[|[|fuel]]]; [lia|lia|lia|].
    unfold process_all. cbn [foldl]. fold (process_all executor rest).
    cbn [run_alone resume]. unfold process_operation.
    destruct (executor op e) as [[[|]|] e'].
    + cbn [run_alone resume].
      change (saveQueue (filter (λ o, op_id o ≠ op_id op) (getQueue s)) s)
        with (removeFromQueue (op_id op) s).
      specialize (IH (incr_success c) (removeFromQueue (op_id op) s) e' fuel).
      destruct (next_operation rest _ _) as [d' s']. apply IH. lia.
    + change (op_retries (set_retries (S (op_retries op)) op))
        with (S (op_retries op)).
      change (op_id (set_retries (S (op_retries op)) op)) with (op_id op).
      destruct (3 <=? S (op_retries op)).
      * cbn [run_alone resume].
        change (saveQueue (filter (λ o, op_id o ≠ op_id op) (getQueue s)) s)
          with (removeFromQueue (op_id op) s).
        specialize (IH (incr_failed c) (removeFromQueue (op_id op) s) e' fuel).
        destruct (next_operation rest _ _) as [d' s']. apply IH. lia.
      * cbn [run_alone resume].
        change (op_id (set_retries (S (op_retries op)) op)) with (op_id op).
        destruct (list_find _ (getQueue s)) as [[index y]|].
        -- cbn [run_alone resume].
           specialize (IH c (saveQueue
                               (<[index := set_retries (S (op_retries op)) op]>
                                  (getQueue s)) s) e' fuel).
           destruct (next_operation rest _ _) as [d' s']. apply IH. lia.
        -- specialize (IH c s e' (S fuel)).
           destruct (next_operation rest _ _) as [d' s']. apply IH. lia.
    + specialize (IH (incr_failed c) s e' (S (S fuel))).
      destruct (next_operation rest _ _) as [d' s']. apply IH. lia.
Qed.

(** [processQueue] is the call that nothing interleaves with: resumed often
    enough, the call returns what [processQueue] returns and leaves what it
    leaves. *)
Lemma processQueue_uninterrupted fetched n s e fuel :
  2 + 3 * length (getQueue s) ≤ fuel →
  run_alone getTime executor fuel fetched (call_processQueue s) (n, s, e) =
  (Returned (processQueue getTime executor fetched n s e).1.1.1,
   ((processQueue getTime executor fetched n s e).1.1.2,
    (processQueue getTime executor fetched n s e).1.2,
    (processQueue getTime executor fetched n s e).2)).
Proof.
  intros Hfuel. unfold call_processQueue, processQueue.
  destruct (isSyncing s) eqn:Hs; [by rewrite run_alone_Returned|].
  destruct fuel as [|[|fuel]]; [lia|lia|].
  cbn [run_alone resume]. unfold NetworkStatus.checkConnection.
  cbn [fst snd].
  change (NetworkStatus.isConnected
            (NetworkStatus.set_isConnected (NetworkStatus.reported fetched) n))
    with (NetworkStatus.reported fetched).
  destruct (NetworkStatus.reported fetched); cbn [negb].
  - cbn [run_alone resume].
    pose proof (loop_uninterrupted fetched
                  (NetworkStatus.set_isConnected true n)
                  (sort_by_timestamp getTime (getQueue (set_isSyncing true s)))
                  no_counts (set_isSyncing true s) e fuel) as Hloop.
    destruct (next_operation _ _ _) as [d' s']. cbn [fst snd] in Hloop.
    rewrite Hloop.
    + by destruct (process_all executor _ _) as [[c1 s1] e1].
    + rewrite (Permutation_length (sort_by_timestamp_perm getTime _)).
      change (getQueue (set_isSyncing true s)) with (getQueue s). lia.
  - cbn [resume]. by rewrite run_alone_Returned.
Qed.

Lemma resume_executor_traced fetched op rest c n s (e : E)
    (tr : list (SyncOperation * ExecResult)) :
  (resume getTime (traced executor) fetched (AwaitExecutor op rest c)
     (n, s, (e, tr))).2.2 =
  ((executor op e).2, tr ++ [(op, (executor op e).1)]).
Proof.
  cbn [resume]. unfold traced. cbn [fst snd].
  destruct (executor op e) as [[[|]|] e']; cbn [fst snd]; [done| |].
  - by destruct (3 <=? _).
  - by destruct (next_operation rest _ s).
Qed.

(** A call that stands at the executor is resumed: the executor is called
    on its operation, and the other calls stay where they are. *)
Lemma happen_executor_traced (p : Pool (E * list (SyncOperation * ExecResult)))
    i fetched op rest c :
  pool_calls p !! i = Some (AwaitExecutor op rest c) →
  pool_ext (happen getTime (traced executor) p (Resume i fetched)) =
    ((executor op (pool_ext p).1).2,
     (pool_ext p).2 ++ [(op, (executor op (pool_ext p).1).1)]) ∧
  ∀ j, j ≠ i →
    pool_calls (happen getTime (traced executor) p (Resume i fetched)) !! j =
    pool_calls p !! j.
Proof.
  intros Hi. unfold happen. rewrite Hi.
  pose proof (resume_executor_traced fetched op rest c (pool_net p)
                (pool_queue p) (pool_ext p).1 (pool_ext p).2) as Hext.
  destruct (pool_ext p) as [e tr]. cbn [fst snd] in *.
  destruct (resume _ _ _ _ _) as [d' [[n' s'] e']]. cbn [fst snd] in Hext.
  cbn [pool_ext pool_calls]. split; [done|].
  intros j Hj. by rewrite list_lookup_insert_ne.
Qed.

(** C6.  A call of [processQueue] made while another drain is in progress
    is to return [{success: 0, failed: 0}] at once, without calling the
    executor.  The code raises the in-progress flag only after its awaited
    connectivity check, so the guard lets through every call made while a
    first one is still in that check.  With one operation queued and no
    drain in progress, two calls in a row both pass the guard; once their
    connectivity checks and their reads of the queue have completed, both
    stand in the loop at the same operation with the flag up, and the
    executor is then called on that operation twice.  A call made after the
    flag has been raised is refused. *)
Theorem overlapping_drains_both_run (n : NetworkStatus.t) (s : t) (e : E)
    (operation : SyncOperation) :
  let online := {| NetworkStatus.ni_isConnected := Some true |} in
  let p0 := {| pool_net := n;
               pool_queue := saveQueue [operation] (set_isSyncing false s);
               pool_ext := (e, []);
               pool_calls := [] |} in
  let called := play getTime (traced executor) [ProcessQueue; ProcessQueue] p0 in
  let looping :=
    play getTime (traced executor)
      [Resume 0 online; Resume 1 online; Resume 0 online; Resume 1 online]
      called in
  let replayed :=
    play getTime (traced executor) [Resume 0 online; Resume 1 online] looping in
  pool_calls called = [AwaitCheckConnection; AwaitCheckConnection] ∧
  pool_calls looping =
    [AwaitExecutor operation [] no_counts; AwaitExecutor operation [] no_counts] ∧
  isSyncing (pool_queue looping) = true ∧
  (pool_ext replayed).2.*1 = [operation; operation] ∧
  pool_calls (play getTime (traced executor) [ProcessQueue] looping) !! 2 =
    Some (Returned no_counts).
Proof.
  intros online p0 called looping replayed.
  assert (called =
          {| pool_net := n;
             pool_queue := saveQueue [operation] (set_isSyncing false s);
             pool_ext := (e, []);
             pool_calls := [AwaitCheckConnection; AwaitCheckConnection] |})
    as Hcalled by reflexivity.
  assert (looping =
          {| pool_net := NetworkStatus.set_isConnected true
                           (NetworkStatus.set_isConnected true n);
             pool_queue :=
               set_isSyncing true
                 (set_isSyncing true
                    (saveQueue [operation] (set_isSyncing false s)));
             pool_ext := (e, []);
             pool_calls := [AwaitExecutor operation [] no_counts;
                            AwaitExecutor operation [] no_counts] |})
    as Hlooping.
  { subst looping. rewrite Hcalled. reflexivity. }
  split_and!.
  - by rewrite Hcalled.
  - by rewrite Hlooping.
  - by rewrite Hlooping.
  - subst replayed. unfold play. cbn [foldl].
    destruct (happen_executor_traced looping 0 online operation [] no_counts)
      as [Hext1 Hcalls1]; [by rewrite Hlooping|].
    destruct (happen_executor_traced
                (happen getTime (traced executor) looping (Resume 0 online))
                1 online operation [] no_counts) as [Hext2 _].
    { rewrite Hcalls1 by done. by rewrite Hlooping. }
    rewrite Hext2, Hext1. cbn [fst snd]. rewrite Hlooping. cbn [pool_ext snd].
    by rewrite !fmap_app.
  - by rewrite Hlooping.
Qed.

End Awaits.

End DrainProperties.


(** ** The connectivity monitor *)

Module MonitorProperties.

Import NetworkStatus.

Lemma run_app (xs ys : list Action) (n : t) :
  run (xs ++ ys) n =
  ((run ys (run xs n).1).1, (run xs n).2 ++ (run ys (run xs n).1).2).
Proof.
  revert n. induction xs as [|a xs IH]; intros n; simpl.
  - by destruct (run ys n).
  - destruct (step a n) as [n1 cbs1]. rewrite IH.
    destruct (run xs n1) as [n2 cbs2]. simpl.
    destruct (run ys n2) as [n3 cbs3]. simpl. by rewrite app_assoc.
Qed.

(** C9.  Subscribers are to be called only at reachability transitions, the
    seeding probe of [initialize] included.  The code does not filter that
    probe: with a listener subscribed and the manager holding [true], the
    probe resolving to [true] calls the listener again, although the guard
    of the sibling feed callback ("notify listeners only when status
    changes") would have kept silent. *)
Lemma seeding_probe_notifies_without_transition :
  let n := (run [AddListener 7; Initialize] init).1 in
  let state := {| ni_isConnected := Some true |} in
  reported state = isConnected n ∧
  (step (InitialFetchResolved state) n).2 = [(7, true)].
Proof. split; reflexivity. Qed.

Lemma onNetInfoEvent_callbacks state n :
  (onNetInfoEvent state n).1 = set_isConnected (reported state) n ∧
  (onNetInfoEvent state n).2 =
    if bool_decide (isConnected n ≠ reported state)
    then broadcast n (reported state) else [].
Proof.
  unfold onNetInfoEvent. simpl. by destruct (bool_decide _).
Qed.

(** What the monitor does with platform deliveries.  While the platform
    subscription is held, the reports of the network-change feed reach the
    listeners only at transitions: over any sequence of reports, the
    callbacks are one broadcast for each report whose value differs from
    the value known just before it, and none for a report that repeats it.
    The seeding probe of [initialize] is not filtered: when it resolves,
    every listener is called with the probed value, whether or not it
    differs. *)
Theorem notified_on_transitions_only (n : t) (reports : list NetInfoState)
    (state : NetInfoState) :
  unsubscribe n = true →
  (run (NetInfoEvent <$> reports) n).2 =
    transitions (isConnected n) (reported <$> reports) ≫= broadcast n ∧
  (reported state = isConnected n → (step (NetInfoEvent state) n).2 = []) ∧
  (0 < pending_fetch n →
     (step (InitialFetchResolved state) n).2 = broadcast n (reported state)).
Proof.
  intros Hsub. split_and!.
  - revert n Hsub. induction reports as [|r reports IH]; intros n Hsub; [done|].
    rewrite !fmap_cons. cbn [run step transitions]. rewrite Hsub.
    destruct (onNetInfoEvent_callbacks r n) as [Hn Hcbs].
    destruct (onNetInfoEvent r n) as [n1 cbs1]. cbn [fst snd] in Hn, Hcbs.
    specialize (IH n1). rewrite Hn in IH. specialize (IH Hsub).
    rewrite <- Hn in IH.
    destruct (run (NetInfoEvent <$> reports) n1) as [n2 cbs2].
    cbn [fst snd] in *. rewrite IH, Hcbs, Hn.
    change (isConnected (set_isConnected (reported r) n)) with (reported r).
    change (broadcast (set_isConnected (reported r) n)) with (broadcast n).
    destruct (bool_decide _); [|done].
    by rewrite bind_cons.
  - intros Hsame. cbn [step]. rewrite Hsub.
    destruct (onNetInfoEvent_callbacks state n) as [_ ->].
    rewrite bool_decide_eq_false_2; [done|]. congruence.
  - intros Hpending. cbn [step].
    destruct (pending_fetch n); [lia|]. done.
Qed.

Lemma notified_on_transitions_only_witness :
  let n := (run [AddListener 7; Initialize] init).1 in
  let up := {| ni_isConnected := Some true |} in
  let down := {| ni_isConnected := None |} in
  unsubscribe n = true ∧
  (run (NetInfoEvent <$> [up; down; down; up]) n).2 = [(7, false); (7, true)].
Proof.
  intros n up down. split; [reflexivity|].
  destruct (notified_on_transitions_only n [up; down; down; up] up eq_refl)
    as [Hrun _].
  exact Hrun.
Defined.

End MonitorProperties.

(** ** The entity cache *)

Module CacheProperties.

Import OfflineStorage.

Lemma getContainers_deleteContainer now containerId (st : t) :
  getContainers (deleteContainer now containerId st) =
  filter (λ c, c_id c ≠ containerId) (getContainers st).
Proof.
  unfold deleteContainer, removeContainerDetail, setContainers. simpl.
  by destruct (CONTAINER_DETAILS st).
Qed.

Lemma getContainerDetail_deleteContainer now containerId (st : t) :
  getContainerDetail containerId (deleteContainer now containerId st) = None.
Proof.
  unfold deleteContainer, removeContainerDetail, setContainers,
    getContainerDetail.
  simpl. destruct (CONTAINER_DETAILS st) as [details|] eqn:Hd; simpl.
  - apply lookup_delete_eq.
  - by rewrite Hd.
Qed.

Lemma deleteContainer_not_cached now containerId (st : t) :
  Forall (λ c, c_id c ≠ containerId)
    (getContainers (deleteContainer now containerId st)).
Proof.
  rewrite getContainers_deleteContainer. apply Forall_forall.
  by intros c [Hc _]%list_elem_of_filter.
Qed.

(** C10.  After [deleteContainer(X)] the cached collection holds no
    container with identifier [X], and [getContainerDetail(X)] answers
    [null]; the detail entries of the other containers are untouched. *)
Theorem detail_cascade now containerId (st : t) :
  getContainerDetail containerId (deleteContainer now containerId st) = None ∧
  Forall (λ c, c_id c ≠ containerId)
    (getContainers (deleteContainer now containerId st)) ∧
  ∀ other, other ≠ containerId →
    getContainerDetail other (deleteContainer now containerId st) =
    getContainerDetail other st.
Proof.
  split_and!.
  - apply getContainerDetail_deleteContainer.
  - apply deleteContainer_not_cached.
  - intros other Hne.
    unfold deleteContainer, removeContainerDetail, setContainers,
      getContainerDetail.
    simpl. destruct (CONTAINER_DETAILS st) as [details|] eqn:Hd; simpl.
    + by apply lookup_delete_ne.
    + by rewrite Hd.
Qed.

Lemma detail_cascade_witness :
  let attic :=
    {| c_id := "c-1"; c_name := "Attic"; c_location := "A1"; c_row := 1%Z;
       c_column := "A"; c_description := None; c_qrCode := "qr-1";
       c_color := None; c_itemCount := 0; c_parentId := None;
       c_parentName := None; c_teamId := None; c_teamName := None;
       c_createdAt := "2026-01-01T09:00:00.000Z";
       c_updatedAt := "2026-01-01T09:00:00.000Z" |} in
  let detail := {| cw_container := attic; cw_items := [];
                   cw_children := None; cw_path := None |} in
  let st := setContainerDetail "c-1" detail
              (updateContainer "2026-01-01T09:00:01.000Z" attic init) in
  getContainerDetail "c-1" st = Some detail ∧
  getContainerDetail "c-1"
    (deleteContainer "2026-01-01T09:30:00.000Z" "c-1" st) = None.
Proof.
  intros attic detail st. split; [reflexivity|].
  destruct (detail_cascade "2026-01-01T09:30:00.000Z" "c-1" st) as (Hgone & _ & _).
  exact Hgone.
Defined.

Lemma getContainers_updateContainer now c (st : t) :
  c ∈ getContainers (updateContainer now c st).
Proof.
  unfold updateContainer, setContainers. simpl.
  destruct (list_find _ _) as [[i y]|] eqn:Hfind.
  - apply list_find_Some in Hfind as (Hi & _ & _).
    apply list_elem_of_insert. by eapply lookup_lt_Some.
  - apply elem_of_app. right. by apply list_elem_of_singleton.
Qed.

End CacheProperties.

(** ** The write path of the API layer *)

Module ApiProperties.

Import SyncQueue ApiService.

Lemma prefix_temp (x : string) : String.prefix "temp-" ("temp-" +:+ x) = true.
Proof. by destruct x. Qed.

Ltac enqueued_or_untouched :=
  first
    [ assumption
    | apply QueueProperties.coalesce_creates_temporary;
      [ assumption | intros; first [ discriminate | apply prefix_temp ] ] ].

Section Writes.
Context {R : Type}.
Context (remote : Remote R).
Implicit Types (w : World R) (id : string).

Lemma list_find_cached id w :
  cached id w →
  ∃ i existing,
    list_find (λ c, c_id c = id)
      (OfflineStorage.getContainers (cache (ext w))) = Some (i, existing) ∧
    c_id existing = id.
Proof.
  intros (c & Hc & Hid).
  destruct (list_find_elem_of (λ c, c_id c = id) _ c Hc Hid) as [[i x] Hfind].
  exists i, x. split; [done|].
  by apply list_find_Some in Hfind as (_ & ? & _).
Qed.

Lemma list_find_not_cached id w :
  ¬ cached id w →
  list_find (λ c, c_id c = id)
    (OfflineStorage.getContainers (cache (ext w))) = None.
Proof.
  intros Hnot. apply list_find_None, Forall_forall.
  intros c Hc Hid. apply Hnot. by exists c.
Qed.

Lemma createContainer_offline data w :
  offline_case (post_containers remote (stringify (CreateContainerDto_data data))) w →
  ∃ tempId createdAt updatedAt opid now w',
    createContainer remote data w =
      (inr (ApiReads.placeholder data tempId createdAt updatedAt), w') ∧
    String.prefix "temp-" tempId = true ∧
    ApiReads.placeholder data tempId createdAt updatedAt
      ∈ OfflineStorage.getContainers (cache (ext w')) ∧
    queue w' = (addToQueue opid now CREATE container tempId
                  (CreateContainerDto_data data) (queue w)).2.
Proof.
  intros [Hoff|(error & Hcall & Hnet)]; unfold createContainer.
  - known_offline Hoff. eexists _, _, _, _, _, _.
    split_and!; [reflexivity|apply prefix_temp| |reflexivity].
    cbn [ext cache]. apply CacheProperties.getContainers_updateContainer.
  - falls_through Hcall Hnet.
    all: eexists _, _, _, _, _, _;
      (split_and!; [reflexivity|apply prefix_temp| |reflexivity]);
      cbn [ext cache]; apply CacheProperties.getContainers_updateContainer.
Qed.

Lemma updateContainer_offline_cached id data w :
  offline_case (put_containers remote id
                  (stringify (PartialContainerDto_data data))) w →
  cached id w →
  ∃ i existing updatedAt opid now w',
    list_find (λ c, c_id c = id)
      (OfflineStorage.getContainers (cache (ext w))) = Some (i, existing) ∧
    updateContainer remote id data w =
      (inr (ApiReads.patched existing data updatedAt), w') ∧
    c_id (ApiReads.patched existing data updatedAt) = id ∧
    ApiReads.patched existing data updatedAt
      ∈ OfflineStorage.getContainers (cache (ext w')) ∧
    queue w' = (addToQueue opid now UPDATE container id
                  (PartialContainerDto_data data) (queue w)).2.
Proof.
  intros Hoffline (i & existing & Hfind & Hid)%list_find_cached.
  exists i, existing.
  unfold updateContainer. cbn in Hfind.
  destruct Hoffline as [Hoff|(error & Hcall & Hnet)].
  - known_offline Hoff. rewrite Hfind. cbn.
    eexists _, _, _, _.
    split_and!; [reflexivity|reflexivity|exact Hid| |reflexivity].
    cbn [ext cache]. apply CacheProperties.getContainers_updateContainer.
  - falls_through Hcall Hnet.
    all: rewrite Hfind; cbn; eexists _, _, _, _;
      (split_and!; [reflexivity|reflexivity|exact Hid| |reflexivity]);
      cbn [ext cache]; apply CacheProperties.getContainers_updateContainer.
Qed.

Lemma updateContainer_offline_not_cached id data w :
  offline_case (put_containers remote id
                  (stringify (PartialContainerDto_data data))) w →
  ¬ cached id w →
  ∃ w', updateContainer remote id data w =
          (inl (Error "Container not found in cache"), w') ∧
        queue w' = queue w ∧ cache (ext w') = cache (ext w).
Proof.
  intros Hoffline Hfind%list_find_not_cached.
  unfold updateContainer. cbn in Hfind.
  destruct Hoffline as [Hoff|(error & Hcall & Hnet)].
  - known_offline Hoff. rewrite Hfind. cbn. by eexists.
  - falls_through Hcall Hnet.
    all: rewrite Hfind; cbn; by eexists.
Qed.

Lemma deleteContainer_offline id w :
  offline_case (delete_containers remote id) w →
  ∃ w', deleteContainer remote id w = (inr tt, w') ∧
        (∃ now, cache (ext w') =
                OfflineStorage.deleteContainer now id (cache (ext w))) ∧
        if String.prefix "temp-" id then queue w' = queue w
        else ∃ opid now,
               queue w' =
               (addToQueue opid now DELETE container id DNull (queue w)).2.
Proof.
  intros [Hoff|(error & Hcall & Hnet)]; unfold deleteContainer.
  - known_offline Hoff.
    destruct (String.prefix "temp-" id); cbn;
      (eexists; split_and!; [reflexivity|by eexists|]); [done|by eexists _, _].
  - falls_through Hcall Hnet.
    all: destruct (String.prefix "temp-" id); cbn;
      (eexists; split_and!; [reflexivity|by eexists|]); [done|by eexists _, _].
Qed.

(** Through [deleteContainer], offline, no queued CREATE is ever removed:
    for a temporary identifier nothing is enqueued, and for any other the
    DELETE it enqueues finds no CREATE in the slot. *)
Lemma deleteContainer_keeps_creates id w op :
  offline_case (delete_containers remote id) w →
  creates_are_temporary (queue w) →
  op ∈ getQueue (queue w) → op_type op = CREATE →
  op ∈ getQueue (queue (deleteContainer remote id w).2).
Proof.
  intros Hoff Hinv Hop Hcreate.
  destruct (deleteContainer_offline id w Hoff) as (w' & -> & _ & Hq).
  cbn [snd]. destruct (String.prefix "temp-" id) eqn:Htemp.
  - by rewrite Hq.
  - destruct Hq as (opid & now & ->).
    rewrite QueueProperties.getQueue_addToQueue.
    by apply QueueProperties.coalesce_delete_keeps_creates.
Qed.

Lemma updateItem_offline id data w :
  offline_case (put_items remote id (stringify (UpdateItemDto_data data))) w →
  ∃ updatedAt opid now w',
    updateItem remote id data w =
      (inr (ApiReads.item_placeholder id data updatedAt), w') ∧
    queue w' = (addToQueue opid now UPDATE item id (UpdateItemDto_data data)
                  (queue w)).2.
Proof.
  intros [Hoff|(error & Hcall & Hnet)]; unfold updateItem.
  - known_offline Hoff. by eexists _, _, _, _.
  - falls_through Hcall Hnet.
    all: by eexists _, _, _, _.
Qed.

Lemma deleteItem_offline id w :
  offline_case (delete_items remote id) w →
  ∃ opid now w',
    deleteItem remote id w = (inr tt, w') ∧
    queue w' = (addToQueue opid now DELETE item id DNull (queue w)).2.
Proof.
  intros [Hoff|(error & Hcall & Hnet)]; unfold deleteItem.
  - known_offline Hoff. by eexists _, _, _.
  - falls_through Hcall Hnet.
    all: by eexists _, _, _.
Qed.

(** C7, amended.  In the offline case none of [createContainer],
    [deleteContainer], [updateItem] and [deleteItem] throws.
    [createContainer] returns the placeholder container made from the
    request under a temporary identifier, has it in the cached collection
    and queues a CREATE for it with the data of the request.
    [deleteContainer] completes, leaves no container under the identifier in
    the cached collection, and queues a DELETE unless the identifier is a
    temporary one.  [updateItem] returns the placeholder item made from the
    request and queues an UPDATE with its data; [deleteItem] completes and
    queues a DELETE.  [updateContainer] returns the patched container (the
    cached one with the fields of the request laid over it), has it in the
    cached collection and queues an UPDATE with the data of the request,
    when the collection cache holds a container with the given identifier;
    it throws [Container not found in cache], queueing and caching nothing,
    when it holds none. *)
Theorem offline_writes id w (data : CreateContainerDto)
    (pdata : PartialContainerDto) (udata : UpdateItemDto) :
  (offline_case
     (post_containers remote (stringify (CreateContainerDto_data data))) w →
   ∃ tempId createdAt updatedAt opid now w',
     createContainer remote data w =
       (inr (ApiReads.placeholder data tempId createdAt updatedAt), w') ∧
     String.prefix "temp-" tempId = true ∧
     ApiReads.placeholder data tempId createdAt updatedAt
       ∈ OfflineStorage.getContainers (cache (ext w')) ∧
     queue w' = (addToQueue opid now CREATE container tempId
                   (CreateContainerDto_data data) (queue w)).2) ∧
  (offline_case (delete_containers remote id) w →
   ∃ w', deleteContainer remote id w = (inr tt, w') ∧
         ¬ cached id w' ∧
         if String.prefix "temp-" id then queue w' = queue w
         else ∃ opid now,
                queue w' =
                (addToQueue opid now DELETE container id DNull (queue w)).2) ∧
  (offline_case
     (put_items remote id (stringify (UpdateItemDto_data udata))) w →
   ∃ updatedAt opid now w',
     updateItem remote id udata w =
       (inr (ApiReads.item_placeholder id udata updatedAt), w') ∧
     queue w' = (addToQueue opid now UPDATE item id (UpdateItemDto_data udata)
                   (queue w)).2) ∧
  (offline_case (delete_items remote id) w →
   ∃ opid now w',
     deleteItem remote id w = (inr tt, w') ∧
     queue w' = (addToQueue opid now DELETE item id DNull (queue w)).2) ∧
  (offline_case
     (put_containers remote id (stringify (PartialContainerDto_data pdata))) w →
   (cached id w →
    ∃ i existing updatedAt opid now w',
      list_find (λ c, c_id c = id)
        (OfflineStorage.getContainers (cache (ext w))) = Some (i, existing) ∧
      updateContainer remote id pdata w =
        (inr (ApiReads.patched existing pdata updatedAt), w') ∧
      c_id (ApiReads.patched existing pdata updatedAt) = id ∧
      ApiReads.patched existing pdata updatedAt
        ∈ OfflineStorage.getContainers (cache (ext w')) ∧
      queue w' = (addToQueue opid now UPDATE container id
                    (PartialContainerDto_data pdata) (queue w)).2) ∧
   (¬ cached id w →
    ∃ w', updateContainer remote id pdata w =
            (inl (Error "Container not found in cache"), w') ∧
          queue w' = queue w ∧ cache (ext w') = cache (ext w))).
Proof.
  split_and!.
  - apply createContainer_offline.
  - intros (w' & Hdel & [now Hcache] & Hq)%deleteContainer_offline.
    exists w'. split_and!; [done| |done].
    intros (c & Hc & Hcid). rewrite Hcache in Hc.
    pose proof (CacheProperties.deleteContainer_not_cached now id
                  (cache (ext w))) as Hall.
    eapply Forall_forall in Hall; [|exact Hc]. done.
  - apply updateItem_offline.
  - apply deleteItem_offline.
  - intros Hoff. split.
    + by apply updateContainer_offline_cached.
    + by apply updateContainer_offline_not_cached.
Qed.

(** The write calls and the drain keep every queued CREATE under a temporary
    identifier: only [createContainer] queues a CREATE, under the identifier
    it has just generated. *)
Lemma writes_keep_creates_temporary (getTime : string → Z) probe id w
    (data : CreateContainerDto) (pdata : PartialContainerDto)
    (udata : UpdateItemDto) :
  creates_are_temporary (queue w) →
  creates_are_temporary (queue (createContainer remote data w).2) ∧
  creates_are_temporary (queue (updateContainer remote id pdata w).2) ∧
  creates_are_temporary (queue (deleteContainer remote id w).2) ∧
  creates_are_temporary (queue (updateItem remote id udata w).2) ∧
  creates_are_temporary (queue (deleteItem remote id w).2) ∧
  creates_are_temporary (queue (processSyncQueue remote getTime probe w).2).
Proof.
  intros Hinv. unfold creates_are_temporary in *.
  split_and!.
  - unfold createContainer. every_outcome. all: enqueued_or_untouched.
  - unfold updateContainer. every_outcome.
    all: try match goal with
             | |- context [list_find ?P ?l] => destruct (list_find P l) as [[??]|]
             end; cbn.
    all: enqueued_or_untouched.
  - unfold deleteContainer. every_outcome.
    all: try match goal with
             | |- context [String.prefix ?p ?i] => destruct (String.prefix p i)
             end; cbn.
    all: enqueued_or_untouched.
  - unfold updateItem. every_outcome. all: enqueued_or_untouched.
  - unfold deleteItem. every_outcome. all: enqueued_or_untouched.
  - unfold processSyncQueue.
    pose proof (DrainProperties.processQueue_Forall getTime
                  (sync_executor remote) temporary_create probe
                  (net w) (queue w) (ext w)) as Hdrain.
    destruct (processQueue _ _ _ _ _ _) as [[[c n] q] x]. cbn [fst snd queue] in *.
    apply Hdrain; [|done]. by intros o r.
Qed.

Lemma sync_executor_create (op : SyncOperation) (x : Ext R) c' sv' :
  op_entity op = container → op_type op = CREATE →
  post_containers remote (op_data op) (server x) = (inr c', sv') →
  ∃ x', sync_executor remote op x = (Resolved true, x') ∧
        c' ∈ OfflineStorage.getContainers (cache x').
Proof.
  intros He Ht Hpost.
  unfold sync_executor, executor_body, try_catch, bind, request.
  rewrite He, Ht, Hpost. cbn.
  eexists. split; [reflexivity|].
  cbn [cache]. apply CacheProperties.getContainers_updateContainer.
Qed.

(** C8.  [deleteContainer], in the offline case, on an identifier with the
    temporary prefix: it completes normally, the container is gone from the
    cached collection and from the detail cache, and the sync queue is left
    as it was, so no DELETE is queued and a pending CREATE for that identifier
    stays queued.  More generally, whatever the identifier, an offline
    [deleteContainer] removes no CREATE from a queue whose CREATEs are all
    under temporary identifiers (the only ones the write calls queue).
    Replaying a pending CREATE against a server that accepts it
    puts the container answered by the server into the cached collection; in
    particular, when that CREATE is the whole queue, the next drain that runs
    counts one success, empties the queue and leaves the answered container
    in the cache. *)
Theorem temp_delete_keeps_pending_create (getTime : string → Z)
    id w (op : SyncOperation) probe :
  String.prefix "temp-" id = true →
  offline_case (delete_containers remote id) w →
  op_entity op = container → op_type op = CREATE → op_entityId op = id →
  let w1 := (deleteContainer remote id w).2 in
  (deleteContainer remote id w).1 = inr tt ∧
  ¬ cached id w1 ∧
  OfflineStorage.getContainerDetail id (cache (ext w1)) = None ∧
  queue w1 = queue w ∧
  (∀ id' o,
     offline_case (delete_containers remote id') w →
     creates_are_temporary (queue w) →
     o ∈ getQueue (queue w) → op_type o = CREATE →
     o ∈ getQueue (queue (deleteContainer remote id' w).2)) ∧
  (∀ x c' sv',
     post_containers remote (op_data op) (server x) = (inr c', sv') →
     (sync_executor remote op x).1 = Resolved true ∧
     c' ∈ OfflineStorage.getContainers (cache (sync_executor remote op x).2)) ∧
  (∀ c' sv',
     getQueue (queue w) = [op] → isSyncing (queue w) = false →
     NetworkStatus.reported probe = true →
     post_containers remote (op_data op) (server (ext w1)) = (inr c', sv') →
     let r := processSyncQueue remote getTime probe w1 in
     r.1 = {| success := 1; failed := 0 |} ∧
     getQueue (queue r.2) = [] ∧
     c' ∈ OfflineStorage.getContainers (cache (ext r.2))).
Proof.
  intros Htemp Hoff He Ht Hid w1.
  destruct (deleteContainer_offline id w Hoff) as (w' & Hdel & [now Hcache] & Hq).
  subst w1. rewrite Hdel. cbn [fst snd]. rewrite Htemp in Hq.
  split_and!.
  - done.
  - intros (c & Hc & Hcid). rewrite Hcache in Hc.
    pose proof (CacheProperties.deleteContainer_not_cached now id
                  (cache (ext w))) as Hall.
    eapply Forall_forall in Hall; [|exact Hc]. done.
  - rewrite Hcache. apply CacheProperties.getContainerDetail_deleteContainer.
  - done.
  - intros id' o. apply deleteContainer_keeps_creates.
  - intros x c' sv' Hpost.
    destruct (sync_executor_create op x c' sv' He Ht Hpost) as (x' & -> & Hc).
    done.
  - intros c' sv' Hqueue Hsync Hprobe Hpost.
    destruct (sync_executor_create op (ext w') c' sv' He Ht Hpost)
      as (x' & Hex & Hc).
    unfold processSyncQueue, processQueue, NetworkStatus.checkConnection.
    rewrite Hq, Hsync. cbn [fst snd]. rewrite Hprobe.
    cbn [negb NetworkStatus.isConnected NetworkStatus.set_isConnected].
    change (getQueue (set_isSyncing true (queue w))) with (getQueue (queue w)).
    rewrite Hqueue.
    cbn [sort_by_timestamp foldr sort_insert process_all foldl process_operation].
    rewrite Hex. cbn [fst snd queue ext].
    split_and!; [done| |done].
    change (getQueue (set_isSyncing false ?s)) with (getQueue s).
    rewrite DrainProperties.getQueue_removeFromQueue.
    change (getQueue (set_isSyncing true (queue w))) with (getQueue (queue w)).
    rewrite Hqueue, filter_cons_False, filter_nil; [done|]. by intros ?.
Qed.

End Writes.

(** C7, as the claim has it, fails: offline, with no container cached under
    the identifier, [updateContainer] throws. *)
Lemma updateContainer_offline_throws :
  let unreachable := AxiosError None (Some "ERR_NETWORK") "Network Error" in
  let remote : Remote unit :=
    {| post_containers := λ _ r, (inl unreachable, r);
       put_containers := λ _ _ r, (inl unreachable, r);
       delete_containers := λ _ r, (inl unreachable, r);
       put_items := λ _ _ r, (inl unreachable, r);
       delete_items := λ _ r, (inl unreachable, r) |} in
  let w := {| net := NetworkStatus.set_isConnected false NetworkStatus.init;
              queue := SyncQueue.init;
              ext := {| cache := OfflineStorage.init; server := tt;
                        entropy := {| readings := λ _, "0"; position := 0 |} |} |} in
  let data := {| pdto_name := Present "Attic"; pdto_row := Absent;
                 pdto_column := Absent; pdto_description := Absent;
                 pdto_color := Absent; pdto_parentId := Absent;
                 pdto_teamId := Absent |} in
  NetworkStatus.isConnected (net w) = false ∧
  (updateContainer remote "c-404" data w).1 =
    inl (Error "Container not found in cache").
Proof. split; reflexivity. Qed.

Lemma offline_writes_witness :
  let unreachable := AxiosError None (Some "ERR_NETWORK") "Network Error" in
  let remote : Remote unit :=
    {| post_containers := λ _ r, (inl unreachable, r);
       put_containers := λ _ _ r, (inl unreachable, r);
       delete_containers := λ _ r, (inl unreachable, r);
       put_items := λ _ _ r, (inl unreachable, r);
       delete_items := λ _ r, (inl unreachable, r) |} in
  let attic :=
    {| c_id := "c-1"; c_name := "Attic"; c_location := "A1"; c_row := 1%Z;
       c_column := "A"; c_description := None; c_qrCode := "qr-1";
       c_color := None; c_itemCount := 0; c_parentId := None;
       c_parentName := None; c_teamId := None; c_teamName := None;
       c_createdAt := "2026-01-01T09:00:00.000Z";
       c_updatedAt := "2026-01-01T09:00:00.000Z" |} in
  let w := {| net := NetworkStatus.init;
              queue := SyncQueue.init;
              ext := {| cache := OfflineStorage.set_CONTAINERS (Some [attic])
                                   OfflineStorage.init;
                        server := tt;
                        entropy := {| readings := λ _, "0"; position := 0 |} |} |} in
  let data := {| dto_name := "Shed"; dto_row := 2%Z; dto_column := "B";
                 dto_description := Absent; dto_color := Absent;
                 dto_parentId := Absent; dto_teamId := Absent |} in
  let pdata := {| pdto_name := Present "Loft"; pdto_row := Absent;
                  pdto_column := Absent; pdto_description := Undefined;
                  pdto_color := Absent; pdto_parentId := Absent;
                  pdto_teamId := Absent |} in
  let udata := {| udto_name := Absent; udto_description := Absent;
                  udto_category := Absent; udto_aiTags := Absent |} in
  offline_case
    (put_containers remote "c-1" (stringify (PartialContainerDto_data pdata))) w ∧
  cached "c-1" w ∧
  ∃ updatedAt w',
    updateContainer remote "c-1" pdata w =
      (inr (ApiReads.patched attic pdata updatedAt), w') ∧
    c_name (ApiReads.patched attic pdata updatedAt) = "Loft" ∧
    c_qrCode (ApiReads.patched attic pdata updatedAt) = "qr-1" ∧
    length (getQueue (queue w')) = 1.
Proof.
  intros unreachable remote attic w data pdata udata.
  assert (offline_case
            (put_containers remote "c-1"
               (stringify (PartialContainerDto_data pdata))) w) as Hoff.
  { right. exists unreachable. split; reflexivity. }
  assert (cached "c-1" w) as Hcached.
  { exists attic. split; [|reflexivity]. by apply list_elem_of_singleton. }
  split_and!; [exact Hoff|exact Hcached|].
  destruct (offline_writes remote "c-1" w data pdata udata)
    as (_ & _ & _ & _ & Hupdate).
  destruct (Hupdate Hoff) as [Hreturns _].
  destruct (Hreturns Hcached)
    as (i & existing & updatedAt & opid & now & w' & Hfind & Hcall & _ & _ & Hq).
  assert (existing = attic) as -> by (by injection Hfind).
  exists updatedAt, w'. split_and!; [exact Hcall|reflexivity|reflexivity|].
  rewrite Hq. reflexivity.
Defined.

Lemma temp_delete_keeps_pending_create_witness :
  let unreachable := AxiosError None (Some "ERR_NETWORK") "Network Error" in
  let created :=
    {| c_id := "c-1"; c_name := "Attic"; c_location := "A1"; c_row := 1%Z;
       c_column := "A"; c_description := None; c_qrCode := "qr-1";
       c_color := None; c_itemCount := 0; c_parentId := None;
       c_parentName := None; c_teamId := None; c_teamName := None;
       c_createdAt := "2026-01-01T11:00:00.000Z";
       c_updatedAt := "2026-01-01T11:00:00.000Z" |} in
  let remote : Remote unit :=
    {| post_containers := λ _ r, (inr created, r);
       put_containers := λ _ _ r, (inl unreachable, r);
       delete_containers := λ _ r, (inl unreachable, r);
       put_items := λ _ _ r, (inl unreachable, r);
       delete_items := λ _ r, (inl unreachable, r) |} in
  let getTime := λ _ : string, 0%Z in
  let op := {| op_id := "1-a"; op_type := CREATE; op_entity := container;
               op_entityId := "temp-1-a"; op_data := PNull;
               op_timestamp := "2026-01-01T10:00:00.000Z"; op_retries := 0 |} in
  let w := {| net := NetworkStatus.set_isConnected false NetworkStatus.init;
              queue := {| stored := Some [op]; isSyncing := false |};
              ext := {| cache := OfflineStorage.init; server := tt;
                        entropy := {| readings := λ _, "0"; position := 0 |} |} |} in
  let probe := {| NetworkStatus.ni_isConnected := Some true |} in
  let w1 := (deleteContainer remote "temp-1-a" w).2 in
  (String.prefix "temp-" "temp-1-a" = true ∧
   offline_case (delete_containers remote "temp-1-a") w) ∧
  getQueue (queue w1) = [op] ∧
  (processSyncQueue remote getTime probe w1).1 = {| success := 1; failed := 0 |} ∧
  created ∈ OfflineStorage.getContainers
              (cache (ext (processSyncQueue remote getTime probe w1).2)).
Proof.
  intros unreachable created remote getTime op w probe w1.
  assert (offline_case (delete_containers remote "temp-1-a") w) as Hoff
    by (left; reflexivity).
  split; [by split|].
  destruct (temp_delete_keeps_pending_create remote getTime "temp-1-a" w op
              probe eq_refl Hoff eq_refl eq_refl eq_refl)
    as (_ & _ & _ & Hqueue & _ & _ & Hdrain).
  destruct (Hdrain created tt eq_refl eq_refl eq_refl eq_refl)
    as (Hcounts & _ & Hcached).
  split_and!; [|exact Hcounts|exact Hcached].
  fold w1 in Hqueue. by rewrite Hqueue.
Defined.

End ApiProperties.


(** * Further properties of the services *)

(** ** The mutation queue *)

Module QueueExtras.

Import SyncQueue.

Lemma shallow_merge_assoc (a : Payload) (b c : Data) :
  shallow_merge (shallow_merge a b) c = shallow_merge a (object_spread b c).
Proof.
  unfold shallow_merge, object_spread. simpl. f_equal.
  apply map_eq. intros k.
  rewrite !lookup_omap, !lookup_union, lookup_fmap, lookup_omap, !lookup_union.
  destruct (spread c !! k) as [[?|]|], (spread b !! k) as [[?|]|],
    (spread (parse a) !! k) as [[?|]|]; done.
Qed.

Lemma shallow_merge_stringify (a b : Data) :
  shallow_merge (stringify a) b = stringify (object_spread a b).
Proof.
  unfold shallow_merge, object_spread. simpl. f_equal.
  apply map_eq. intros k.
  rewrite !lookup_omap, !lookup_union.
  destruct a as [|o]; simpl.
  - rewrite !lookup_empty. by destruct (spread b !! k) as [[?|]|].
  - rewrite lookup_fmap, lookup_omap.
    destruct (spread b !! k) as [[?|]|], (o !! k) as [[?|]|]; done.
Qed.

Lemma list_find_insert_same {A} (P : A → Prop) `{!∀ x, Decision (P x)}
    (l : list A) i y x :
  list_find P l = Some (i, y) → P x →
  list_find P (<[i := x]> l) = Some (i, x).
Proof.
  intros (Hi & _ & Hmin)%list_find_Some Hx.
  apply list_find_Some. split_and!; [|done|].
  - apply list_lookup_insert_eq. by eapply lookup_lt_Some.
  - intros j z Hj Hlt. rewrite list_lookup_insert_ne in Hj by lia. eauto.
Qed.

(** X1.  Two UPDATEs enqueued one after the other for the same entity leave
    the queue exactly as one UPDATE whose payload is [{...d1, ...d2}] would,
    under the identifier generated for the first and the timestamp of the
    second: whatever the queue held for the entity before. *)
Theorem updates_compose (s : t) entity entityId id1 now1 d1 id2 now2 d2 :
  getQueue
    (addToQueue id2 now2 UPDATE entity entityId d2
       (addToQueue id1 now1 UPDATE entity entityId d1 s).2).2 =
  getQueue
    (addToQueue id1 now2 UPDATE entity entityId (object_spread d1 d2) s).2.
Proof.
  rewrite !QueueProperties.getQueue_addToQueue. unfold coalesce.
  destruct (list_find _ (getQueue s)) as [[i existing]|] eqn:Hfind.
  - pose proof Hfind as (Hi & [He Hid] & _)%list_find_Some.
    destruct (op_type existing) eqn:Hty.
    + erewrite list_find_insert_same; [|exact Hfind|done].
      cbn [op_type set_data]. rewrite Hty, list_insert_insert_eq.
      cbn [op_data set_data]. by rewrite shallow_merge_assoc.
    + erewrite list_find_insert_same; [|exact Hfind|done].
      cbn [op_type set_data set_timestamp]. rewrite Hty, list_insert_insert_eq.
      cbn [op_data set_data set_timestamp]. by rewrite shallow_merge_assoc.
    + erewrite list_find_insert_same; [|exact Hfind|done].
      cbn [op_type set_data set_timestamp]. rewrite Hty, list_insert_insert_eq.
      cbn [op_data set_data set_timestamp]. by rewrite shallow_merge_assoc.
  - set (op1 := {| op_id := id1; op_type := UPDATE; op_entity := entity;
                   op_entityId := entityId; op_data := stringify d1;
                   op_timestamp := now1; op_retries := 0 |}).
    assert (list_find (targets entity entityId) (getQueue s ++ [op1]) =
            Some (length (getQueue s), op1)) as ->.
    { apply list_find_app_Some. right. split_and!; [lia|done|].
      rewrite Nat.sub_diag. apply list_find_Some. split_and!; [done|done|].
      intros j z _ Hlt. lia. }
    cbn [op_type op1].
    rewrite insert_app_r_alt, Nat.sub_diag by lia.
    change (<[0 := ?x]> [op1]) with [x].
    unfold set_timestamp, set_data. cbn [op_id op_type op_entity op_entityId
      op_data op_timestamp op_retries op1].
    by rewrite shallow_merge_stringify.
Qed.

(** X2.  The payload persisted by a merge, property by property: the value
    of the incoming object where it has one, nothing where the incoming
    object holds [undefined] (the stored value is erased), and the stored
    value where the incoming object lacks the property.  Merging into or
    with [null] gives an object, never [null]. *)
Theorem merged_payload (existing : Payload) (incoming : Data) :
  ∃ merged,
    shallow_merge existing incoming = PObject merged ∧
    ∀ k, merged !! k =
         match spread incoming !! k with
         | Some (Some v) => Some v
         | Some None => None
         | None => fields_of existing !! k
         end.
Proof.
  unfold shallow_merge, object_spread. simpl. eexists. split; [done|].
  intros k. rewrite lookup_omap, lookup_union.
  destruct (spread incoming !! k) as [[v|]|] eqn:Hin; simpl.
  - by destruct (spread (parse existing) !! k).
  - by destruct (spread (parse existing) !! k).
  - destruct existing as [|o]; simpl.
    + by rewrite !lookup_empty.
    + rewrite lookup_fmap. by destruct (o !! k).
Qed.

(** Coalescing never raises a retry counter: a new operation starts at 0 and
    a merged one keeps the counter it had. *)
Lemma coalesce_retries (bound : nat) id now type entity entityId data queue :
  0 < bound →
  Forall (λ o, op_retries o < bound) queue →
  Forall (λ o, op_retries o < bound)
    (coalesce id now type entity entityId data queue).
Proof.
  intros Hb Hq. unfold coalesce.
  destruct (list_find _ queue) as [[i existing]|] eqn:Hfind.
  - apply list_find_Some in Hfind as (Hi & _ & _).
    pose proof (Forall_lookup_1 _ _ _ _ Hq Hi) as Hex.
    destruct type; [done|..];
      destruct (op_type existing);
      try (by apply QueueProperties.Forall_delete_2);
      by apply QueueProperties.Forall_insert_2.
  - apply Forall_app. split; [done|]. by constructor.
Qed.

End QueueExtras.

(** ** The drain *)

Module DrainExtras.

Import SyncQueue.

Section Extras.
Context {E : Type}.
Context (getTime : string → Z).
Context (executor : SyncOperation → E → ExecResult * E).
Implicit Types (s : t) (c : Counts) (e : E) (ops : list SyncOperation).

Lemma process_operation_inv (P : SyncOperation → Prop) c s e op :
  (S (op_retries op) < 3 → P (set_retries (S (op_retries op)) op)) →
  Forall P (getQueue s) →
  Forall P (getQueue (process_operation executor (c, s, e) op).1.2).
Proof.
  intros Hop Hs. unfold process_operation.
  assert (∀ id, Forall P (getQueue (removeFromQueue id s))) as Hrm.
  { intros id. rewrite DrainProperties.getQueue_removeFromQueue.
    by apply QueueProperties.Forall_filter_2. }
  destruct (executor op e) as [[[]|] e']; cbn [fst snd]; [apply Hrm| |done].
  change (op_retries (set_retries (S (op_retries op)) op))
    with (S (op_retries op)).
  destruct (3 <=? S (op_retries op)) eqn:Hle; [apply Hrm|].
  apply Nat.leb_gt in Hle.
  destruct (list_find _ _) as [[j y]|]; cbn [fst snd]; [|done].
  rewrite DrainProperties.getQueue_saveQueue.
  apply QueueProperties.Forall_insert_2; [done|]. by apply Hop.
Qed.

Lemma process_all_inv (P : SyncOperation → Prop) ops c s e :
  Forall (λ o, S (op_retries o) < 3 → P (set_retries (S (op_retries o)) o)) ops →
  Forall P (getQueue s) →
  Forall P (getQueue (process_all executor ops (c, s, e)).1.2).
Proof.
  revert c s e. induction ops as [|op ops IH]; intros c s e Hops Hs; [done|].
  apply Forall_cons in Hops as [Hop Hops].
  unfold process_all in *. cbn [foldl].
  pose proof (process_operation_inv P c s e op Hop Hs) as Hstep.
  destruct (process_operation executor (c, s, e) op) as [[c1 s1] e1].
  by apply IH.
Qed.

Lemma process_operation_length c s e op :
  length (getQueue (process_operation executor (c, s, e) op).1.2) ≤
  length (getQueue s).
Proof.
  unfold process_operation.
  assert (∀ id, length (getQueue (removeFromQueue id s)) ≤ length (getQueue s))
    as Hrm.
  { intros id. rewrite DrainProperties.getQueue_removeFromQueue.
    apply length_filter. }
  destruct (executor op e) as [[[]|] e']; cbn [fst snd]; [apply Hrm| |done].
  destruct (3 <=? _); [apply Hrm|].
  destruct (list_find _ _) as [[j y]|]; cbn [fst snd]; [|done].
  by rewrite DrainProperties.getQueue_saveQueue, length_insert.
Qed.

Lemma process_all_length ops c s e :
  length (getQueue (process_all executor ops (c, s, e)).1.2) ≤
  length (getQueue s).
Proof.
  revert c s e. induction ops as [|op ops IH]; intros c s e; [done|].
  unfold process_all in *. cbn [foldl].
  pose proof (process_operation_length c s e op) as Hstep.
  destruct (process_operation executor (c, s, e) op) as [[c1 s1] e1].
  etrans; [apply IH|done].
Qed.

(** The queue and the counts of a drain that runs, in terms of the fold
    over the snapshot. *)
Lemma processQueue_admitted probe n s e :
  isSyncing s = false →
  NetworkStatus.reported probe = true →
  isSyncing (processQueue getTime executor probe n s e).1.2 = false ∧
  getQueue (processQueue getTime executor probe n s e).1.2 =
    getQueue (process_all executor (sort_by_timestamp getTime (getQueue s))
                (no_counts, set_isSyncing true s, e)).1.2 ∧
  (processQueue getTime executor probe n s e).1.1.1 =
    (process_all executor (sort_by_timestamp getTime (getQueue s))
       (no_counts, set_isSyncing true s, e)).1.1.
Proof.
  intros Hs Hp.
  unfold processQueue, NetworkStatus.checkConnection. cbn [fst snd].
  rewrite Hs.
  change (NetworkStatus.isConnected
            (NetworkStatus.set_isConnected (NetworkStatus.reported probe) n))
    with (NetworkStatus.reported probe).
  rewrite Hp. cbn [negb].
  change (getQueue (set_isSyncing true s)) with (getQueue s).
  by destruct (process_all executor _ _) as [[c' s'] e'].
Qed.

Lemma processQueue_queue probe n s e :
  (processQueue getTime executor probe n s e).1.2 = s ∨
  isSyncing s = false ∧
  NetworkStatus.reported probe = true ∧
  isSyncing (processQueue getTime executor probe n s e).1.2 = false ∧
  getQueue (processQueue getTime executor probe n s e).1.2 =
    getQueue (process_all executor (sort_by_timestamp getTime (getQueue s))
                (no_counts, set_isSyncing true s, e)).1.2 ∧
  (processQueue getTime executor probe n s e).1.1.1 =
    (process_all executor (sort_by_timestamp getTime (getQueue s))
       (no_counts, set_isSyncing true s, e)).1.1.
Proof.
  destruct (isSyncing s) eqn:Hs.
  { left. unfold processQueue. by rewrite Hs. }
  destruct (NetworkStatus.reported probe) eqn:Hp.
  { right. split; [done|]. split; [done|]. by apply processQueue_admitted. }
  left. unfold processQueue, NetworkStatus.checkConnection. cbn [fst snd].
  rewrite Hs.
  change (NetworkStatus.isConnected
            (NetworkStatus.set_isConnected (NetworkStatus.reported probe) n))
    with (NetworkStatus.reported probe).
  by rewrite Hp.
Qed.

(** X3.  A drain queues nothing and rewrites nothing but retry counters:
    every operation it leaves in the queue is an operation that was stored,
    as it was or with its counter one higher, the queue is no longer than
    before, and the in-progress flag is as before. *)
Theorem drain_touches_only_retries probe n s e :
  let s' := (processQueue getTime executor probe n s e).1.2 in
  Forall (λ o', ∃ o, o ∈ getQueue s ∧ retried o o') (getQueue s') ∧
  length (getQueue s') ≤ length (getQueue s) ∧
  isSyncing s' = isSyncing s.
Proof.
  intros s'. subst s'.
  assert (Forall (λ o', ∃ o, o ∈ getQueue s ∧ retried o o') (getQueue s))
    as Hsame.
  { apply Forall_forall. intros o Ho. exists o. split; [done|by left]. }
  destruct (processQueue_queue probe n s e)
    as [->|(Hs & _ & Hflag & -> & _)]; [done|].
  split_and!.
  - apply process_all_inv; [|done].
    apply Forall_forall. intros o Ho _. exists o. split; [|by right].
    by rewrite DrainProperties.sort_by_timestamp_perm in Ho.
  - apply (process_all_length _ no_counts (set_isSyncing true s) e).
  - by rewrite Hflag, Hs.
Qed.

(** X4.  No queued operation ever carries a retry counter of three or more:
    the bound holds in the empty queue, every [addToQueue] keeps it, and so
    does every drain, whatever the executor answers. *)
Theorem retry_counter_below_three probe n s e (call : Call) :
  Forall (λ o, op_retries o < 3) (getQueue init) ∧
  (Forall (λ o, op_retries o < 3) (getQueue s) →
   Forall (λ o, op_retries o < 3) (getQueue (enqueue call s)) ∧
   Forall (λ o, op_retries o < 3)
     (getQueue (processQueue getTime executor probe n s e).1.2)).
Proof.
  split; [by constructor|]. intros Hs. split.
  - unfold enqueue. rewrite QueueProperties.getQueue_addToQueue.
    apply QueueExtras.coalesce_retries; [lia|done].
  - destruct (processQueue_queue probe n s e)
      as [->|(_ & _ & _ & -> & _)]; [done|].
    apply process_all_inv; [|done].
    apply Forall_forall. by intros o _ Hlt.
Qed.

Lemma process_all_success ops c s e :
  (∀ op e', op ∈ ops → (executor op e').1 = Resolved true) →
  (process_all executor ops (c, s, e)).1.1 =
    {| success := success c + length ops; failed := failed c |} ∧
  ∀ o, o ∈ getQueue (process_all executor ops (c, s, e)).1.2 →
       o ∈ getQueue s ∧ op_id o ∉ op_id <$> ops.
Proof.
  revert c s e. induction ops as [|op ops IH]; intros c s e Hex.
  - split.
    + destruct c. simpl. f_equal. lia.
    + intros o Ho. split; [done|]. apply not_elem_of_nil.
  - unfold process_all in *. cbn [foldl].
    assert (process_operation executor (c, s, e) op =
            (incr_success c, removeFromQueue (op_id op) s, (executor op e).2))
      as ->.
    { unfold process_operation.
      pose proof (Hex op e ltac:(apply elem_of_cons; by left)) as Hop.
      destruct (executor op e) as [r e']. simpl in Hop. by subst r. }
    destruct (IH (incr_success c) (removeFromQueue (op_id op) s)
                (executor op e).2) as [-> Hq].
    { intros o e' Ho. apply Hex. apply elem_of_cons. by right. }
    split.
    + simpl. f_equal. lia.
    + intros o [Ho Hid]%Hq.
      rewrite DrainProperties.getQueue_removeFromQueue in Ho.
      apply list_elem_of_filter in Ho as [Hne Ho].
      split; [done|]. rewrite fmap_cons.
      apply not_elem_of_cons. by split.
Qed.

(** X5.  A drain that runs with an executor that succeeds on every stored
    operation empties the queue, counts one success per stored operation and
    no failure, and leaves the in-progress flag down. *)
Theorem drain_all_succeed probe n s e :
  isSyncing s = false →
  NetworkStatus.reported probe = true →
  (∀ op e', op ∈ getQueue s → (executor op e').1 = Resolved true) →
  let r := processQueue getTime executor probe n s e in
  r.1.1.1 = {| success := length (getQueue s); failed := 0 |} ∧
  getQueue r.1.2 = [] ∧
  isSyncing r.1.2 = false.
Proof.
  intros Hs Hp Hex r. subst r.
  destruct (processQueue_admitted probe n s e Hs Hp) as (Hflag & Hq & Hc).
  destruct (process_all_success (sort_by_timestamp getTime (getQueue s))
              no_counts (set_isSyncing true s) e) as [Hcount Hleft].
  { intros op e' Hop. apply Hex.
    by rewrite DrainProperties.sort_by_timestamp_perm in Hop. }
  rewrite Hc, Hq, Hcount. split_and!.
  - simpl. by rewrite DrainProperties.sort_by_timestamp_perm.
  - destruct (getQueue (process_all executor _ _).1.2) as [|o rest] eqn:Hfinal;
      [done|].
    destruct (Hleft o) as [Ho Hid]; [apply elem_of_cons; by left|].
    destruct Hid. apply list_elem_of_fmap_2.
    by rewrite DrainProperties.sort_by_timestamp_perm.
  - done.
Qed.

Lemma failed_monotone ops c s e :
  failed c ≤ failed (process_all executor ops (c, s, e)).1.1.
Proof.
  revert c s e. induction ops as [|op ops IH]; intros c s e; [done|].
  unfold process_all in *. cbn [foldl].
  pose proof (DrainProperties.process_operation_failed executor c s e op) as Hf.
  destruct (process_operation executor (c, s, e) op) as [[c1 s1] e1].
  cbn [fst snd] in Hf. etrans; [|apply IH]. lia.
Qed.

Lemma process_all_rejected ops c s e op :
  NoDup (op_id <$> ops) → op ∈ ops → op ∈ getQueue s →
  (∀ o e', op_id o = op_id op → (executor o e').1 = Rejected) →
  op ∈ getQueue (process_all executor ops (c, s, e)).1.2 ∧
  failed c < failed (process_all executor ops (c, s, e)).1.1.
Proof.
  intros Hnd Hin Hq Hex.
  apply list_elem_of_split in Hin as (l1 & l2 & ->).
  rewrite fmap_app, fmap_cons in Hnd.
  apply NoDup_app in Hnd as (_ & Hdisj & [Hnot2 _]%NoDup_cons).
  assert (Forall (λ o, op_id o ≠ op_id op) l1) as H1.
  { apply Forall_forall. intros o Ho Heq.
    apply (Hdisj (op_id o)); [by apply list_elem_of_fmap_2|].
    rewrite Heq. apply elem_of_cons. by left. }
  assert (Forall (λ o, op_id o ≠ op_id op) l2) as H2.
  { apply Forall_forall. intros o Ho Heq.
    apply Hnot2. rewrite <- Heq. by apply list_elem_of_fmap_2. }
  unfold process_all. rewrite foldl_app. cbn [foldl].
  fold (process_all executor l1 (c, s, e)).
  pose proof (DrainProperties.process_all_keeps executor l1 c s e op Hq H1)
    as Hkeep.
  pose proof (failed_monotone l1 c s e) as Hf1.
  destruct (process_all executor l1 (c, s, e)) as [[c1 s1] e1].
  cbn [fst snd] in Hkeep, Hf1.
  assert (process_operation executor (c1, s1, e1) op =
          (incr_failed c1, s1, (executor op e1).2)) as ->.
  { unfold process_operation. pose proof (Hex op e1 eq_refl) as Hop.
    destruct (executor op e1) as [r e']. simpl in Hop. by subst r. }
  fold (process_all executor l2 (incr_failed c1, s1, (executor op e1).2)).
  split.
  - by apply DrainProperties.process_all_keeps.
  - pose proof (failed_monotone l2 (incr_failed c1) s1 (executor op e1).2) as Hf2.
    simpl in Hf2. lia.
Qed.

(** X6.  An operation on which the executor raises is never given up: over
    any number of drains that run, it stays in the queue as it was stored,
    retry counter included, and every one of those drains counts a failure.
    Only the answer [false] wears the retry budget. *)
Theorem rejected_is_retried_forever (probes : list NetworkStatus.NetInfoState)
    n s e op :
  isSyncing s = false →
  Forall (λ probe, NetworkStatus.reported probe = true) probes →
  NoDup (op_id <$> getQueue s) →
  op ∈ getQueue s →
  (∀ o e', op_id o = op_id op → (executor o e').1 = Rejected) →
  let r := drains getTime executor probes (n, s, e) in
  op ∈ getQueue r.2.1.2 ∧
  Forall (λ c, 1 ≤ failed c) r.1 ∧
  length r.1 = length probes.
Proof.
  intros Hs Hprobes Hnd Hin Hex. revert n s e Hs Hnd Hin.
  induction Hprobes as [|probe probes Hp _ IH]; intros n s e Hs Hnd Hin; [done|].
  cbn [drains fst snd].
  destruct (processQueue_admitted probe n s e Hs Hp) as (Hflag & Hq & Hc).
  destruct (process_all_rejected (sort_by_timestamp getTime (getQueue s))
              no_counts (set_isSyncing true s) e op) as [Hkeep Hfail];
    [by rewrite DrainProperties.sort_by_timestamp_perm
    |by rewrite DrainProperties.sort_by_timestamp_perm|done|done|].
  pose proof (DrainProperties.process_all_ids executor
                (sort_by_timestamp getTime (getQueue s))
                no_counts (set_isSyncing true s) e Hnd) as Hnd1.
  rewrite <- Hq in Hkeep, Hnd1. rewrite <- Hc in Hfail.
  destruct (processQueue getTime executor probe n s e) as [[[c1 n1] s1] e1].
  cbn [fst snd] in *.
  specialize (IH n1 s1 e1 Hflag Hnd1 Hkeep).
  destruct (drains getTime executor probes (n1, s1, e1)) as [cs st'].
  cbn [fst snd] in *. destruct IH as (Hop & Hcs & Hlen).
  split_and!; [done| |by simpl; rewrite Hlen].
  constructor; [|done]. simpl in Hfail. lia.
Qed.


Lemma still_pending (k : nat) (op o' : SyncOperation) (ops : list SyncOperation) :
  o' ∈ op :: ops ∨
    ((S k ≤ op_retries o' ∧ op_retries o' < 3) ∧ op_id o' ∉ op_id <$> op :: ops) →
  op_id o' ≠ op_id op →
  o' ∈ ops ∨ ((S k ≤ op_retries o' ∧ op_retries o' < 3) ∧ op_id o' ∉ op_id <$> ops).
Proof.
  intros [[->|Hin]%elem_of_cons|[Hadv Hid]] Hne; [done|by left|].
  right. split; [done|]. rewrite fmap_cons, not_elem_of_cons in Hid. tauto.
Qed.

Lemma process_operation_progress (k : nat) c s e op ops :
  (∀ o e', (executor o e').1 ≠ Rejected) →
  NoDup (op_id <$> op :: ops) →
  NoDup (op_id <$> getQueue s) →
  k ≤ op_retries op →
  Forall (λ o', o' ∈ op :: ops ∨
                ((S k ≤ op_retries o' ∧ op_retries o' < 3) ∧
                 op_id o' ∉ op_id <$> op :: ops)) (getQueue s) →
  Forall (λ o', o' ∈ ops ∨
                ((S k ≤ op_retries o' ∧ op_retries o' < 3) ∧
                 op_id o' ∉ op_id <$> ops))
    (getQueue (process_operation executor (c, s, e) op).1.2).
Proof.
  intros Hex Hnd Hq Hk Hinv.
  rewrite fmap_cons in Hnd. apply NoDup_cons in Hnd as [Hfresh _].
  assert (Forall (λ o', op_id o' ≠ op_id op →
                        o' ∈ ops ∨
                        ((S k ≤ op_retries o' ∧ op_retries o' < 3) ∧
                         op_id o' ∉ op_id <$> ops)) (getQueue s)) as Hweak.
  { eapply Forall_impl; [exact Hinv|]. intros o' Ho'. by apply still_pending. }
  assert (Forall (λ o', o' ∈ ops ∨
                        ((S k ≤ op_retries o' ∧ op_retries o' < 3) ∧
                         op_id o' ∉ op_id <$> ops))
            (filter (λ o, op_id o ≠ op_id op) (getQueue s))) as Hremoved.
  { apply Forall_forall. intros o' [Hne Hin]%list_elem_of_filter.
    eapply Forall_forall in Hweak; [|exact Hin]. by apply Hweak. }
  unfold process_operation. pose proof (Hex op e) as Hnot.
  destruct (executor op e) as [[[|]|] e']; cbn [fst snd] in *; [done| |done].
  change (op_retries (set_retries (S (op_retries op)) op))
    with (S (op_retries op)).
  change (op_id (set_retries (S (op_retries op)) op)) with (op_id op).
  destruct (3 <=? S (op_retries op)) eqn:Hthree; cbn [fst snd]; [done|].
  apply Nat.leb_gt in Hthree.
  destruct (list_find _ (getQueue s)) as [[i y]|] eqn:Hfind; cbn [fst snd].
  - apply list_find_Some in Hfind as (Hi & Hy & _).
    rewrite DrainProperties.getQueue_saveQueue.
    apply Forall_lookup. intros j o' Hj.
    apply list_lookup_insert_Some in Hj as [(-> & <- & _)|(Hne & Hj)].
    + right. split; [|done].
      change (op_retries (set_retries (S (op_retries op)) op))
        with (S (op_retries op)). lia.
    + eapply Forall_lookup in Hweak; [|exact Hj]. apply Hweak.
      intros Heq. apply Hne.
      eapply NoDup_lookup; [exact Hq| |].
      * by rewrite list_lookup_fmap, Hi.
      * rewrite list_lookup_fmap, Hj. cbn. by rewrite Heq, Hy.
  - apply list_find_None in Hfind.
    apply Forall_forall. intros o' Hin.
    eapply Forall_forall in Hweak; [|exact Hin]. apply Hweak.
    eapply Forall_forall in Hfind; [|exact Hin]. done.
Qed.

Lemma process_all_progress (k : nat) ops c s e :
  (∀ o e', (executor o e').1 ≠ Rejected) →
  NoDup (op_id <$> ops) →
  NoDup (op_id <$> getQueue s) →
  Forall (λ o, k ≤ op_retries o) ops →
  Forall (λ o', o' ∈ ops ∨
                ((S k ≤ op_retries o' ∧ op_retries o' < 3) ∧
                 op_id o' ∉ op_id <$> ops)) (getQueue s) →
  Forall (λ o', S k ≤ op_retries o' ∧ op_retries o' < 3)
    (getQueue (process_all executor ops (c, s, e)).1.2).
Proof.
  intros Hex. revert c s e.
  induction ops as [|op ops IH]; intros c s e Hnd Hq Hk Hinv.
  - eapply Forall_impl; [exact Hinv|].
    by intros o' [?%elem_of_nil|[? _]].
  - unfold process_all in *. cbn [foldl].
    pose proof (process_operation_progress k c s e op ops Hex Hnd Hq
                  (Forall_inv Hk) Hinv) as Hstep.
    pose proof (DrainProperties.process_operation_ids executor c s e op Hq)
      as Hq1.
    destruct (process_operation executor (c, s, e) op) as [[c1 s1] e1].
    cbn [fst snd] in *. apply IH; [|done|by eapply Forall_inv_tail|done].
    rewrite fmap_cons in Hnd. by apply NoDup_cons in Hnd as [_ ?].
Qed.

(** One drain that runs, with an executor that never raises: every
    operation still queued afterwards has been refused once more. *)
Lemma processQueue_progress (k : nat) probe n s e :
  (∀ o e', (executor o e').1 ≠ Rejected) →
  isSyncing s = false →
  NetworkStatus.reported probe = true →
  NoDup (op_id <$> getQueue s) →
  Forall (λ o, k ≤ op_retries o) (getQueue s) →
  let s' := (processQueue getTime executor probe n s e).1.2 in
  isSyncing s' = false ∧
  NoDup (op_id <$> getQueue s') ∧
  Forall (λ o', S k ≤ op_retries o' ∧ op_retries o' < 3) (getQueue s').
Proof.
  intros Hex Hs Hp Hnd Hk s'. subst s'.
  destruct (processQueue_admitted probe n s e Hs Hp) as (Hflag & -> & _).
  pose proof (DrainProperties.sort_by_timestamp_perm getTime (getQueue s))
    as Hperm.
  split_and!; [done|by apply DrainProperties.process_all_ids|].
  apply process_all_progress; [done| |done| |].
  - by rewrite Hperm.
  - by rewrite Hperm.
  - apply Forall_forall. intros o' Ho'. left. by rewrite Hperm.
Qed.

End Extras.

Lemma drain_all_succeed_witness :
  let getTime := λ _ : string, 0%Z in
  let a := {| op_id := "1-a"; op_type := CREATE; op_entity := container;
              op_entityId := "temp-1"; op_data := PNull;
              op_timestamp := "2026-01-01T10:00:00.000Z"; op_retries := 0 |} in
  let b := {| op_id := "2-b"; op_type := DELETE; op_entity := item;
              op_entityId := "item-7"; op_data := PNull;
              op_timestamp := "2026-01-01T10:00:05.000Z"; op_retries := 2 |} in
  let s := {| stored := Some [b; a]; isSyncing := false |} in
  let executor := λ (_ : SyncOperation) (e : unit), (Resolved true, e) in
  let probe := {| NetworkStatus.ni_isConnected := Some true |} in
  isSyncing s = false ∧
  (processQueue getTime executor probe NetworkStatus.init s tt).1.1.1 =
    {| success := 2; failed := 0 |} ∧
  getQueue (processQueue getTime executor probe NetworkStatus.init s tt).1.2 = [].
Proof.
  intros getTime a b s executor probe. split; [reflexivity|].
  destruct (drain_all_succeed getTime executor probe NetworkStatus.init s tt
              eq_refl eq_refl (λ _ _ _, eq_refl)) as (Hc & Hq & _).
  by split.
Defined.

Lemma rejected_is_retried_forever_witness :
  let getTime := λ _ : string, 0%Z in
  let op := {| op_id := "1-a"; op_type := UPDATE; op_entity := item;
               op_entityId := "item-7"; op_data := PNull;
               op_timestamp := "2026-01-01T10:00:00.000Z"; op_retries := 0 |} in
  let s := {| stored := Some [op]; isSyncing := false |} in
  let executor := λ (_ : SyncOperation) (e : unit), (Rejected, e) in
  let probe := {| NetworkStatus.ni_isConnected := Some true |} in
  let r := drains getTime executor [probe; probe; probe; probe]
             (NetworkStatus.init, s, tt) in
  (isSyncing s = false ∧ NoDup (op_id <$> getQueue s) ∧ op ∈ getQueue s) ∧
  op ∈ getQueue r.2.1.2 ∧ Forall (λ c, 1 ≤ failed c) r.1.
Proof.
  intros getTime op s executor probe r.
  assert (NoDup (op_id <$> getQueue s)) as Hnd by apply NoDup_singleton.
  assert (op ∈ getQueue s) as Hin by (by apply list_elem_of_singleton).
  split; [by split_and!|].
  destruct (rejected_is_retried_forever getTime executor
              [probe; probe; probe; probe] NetworkStatus.init s tt op
              eq_refl ltac:(by repeat constructor) Hnd Hin (λ _ _ _, eq_refl))
    as (Hop & Hcs & _).
  by split.
Defined.

Lemma retry_counter_below_three_witness :
  let getTime := λ _ : string, 0%Z in
  let op := {| op_id := "1-a"; op_type := UPDATE; op_entity := item;
               op_entityId := "item-7"; op_data := PNull;
               op_timestamp := "2026-01-01T10:00:00.000Z"; op_retries := 2 |} in
  let s := {| stored := Some [op]; isSyncing := false |} in
  let executor := λ (_ : SyncOperation) (e : unit), (Resolved false, e) in
  let probe := {| NetworkStatus.ni_isConnected := Some true |} in
  Forall (λ o, op_retries o < 3) (getQueue s) ∧
  Forall (λ o, op_retries o < 3)
    (getQueue (processQueue getTime executor probe NetworkStatus.init s tt).1.2).
Proof.
  intros getTime op s executor probe.
  assert (Forall (λ o, op_retries o < 3) (getQueue s)) as Hs
    by (repeat constructor).
  split; [done|].
  destruct (retry_counter_below_three getTime executor probe NetworkStatus.init
              s tt {| call_id := ""; call_now := ""; call_type := UPDATE;
                      call_entity := item; call_entityId := "";
                      call_data := DNull |}) as [_ Hkeep].
  by destruct (Hkeep Hs).
Defined.

End DrainExtras.

(** ** The connectivity monitor *)

Module MonitorExtras.

Import NetworkStatus.

Lemma broadcast_not_to l (ls : list Listener) (v : bool) :
  l ∉ ls → Forall (λ cb : Callback, cb.1 ≠ l) ((λ x, (x, v)) <$> ls).
Proof.
  intros Hl. apply Forall_fmap, Forall_forall. intros x Hx. cbn.
  by intros ->.
Qed.

Lemma step_unsubscribed l a n :
  a ≠ AddListener l → l ∉ listeners n →
  (l ∉ listeners (step a n).1) ∧ Forall (λ cb, cb.1 ≠ l) (step a n).2.
Proof.
  intros Ha Hl. destruct a as [ | state | state | l' | l' | state | ]; cbn [step].
  - unfold initialize. by destruct (unsubscribe n).
  - destruct (unsubscribe n); [|done].
    unfold onNetInfoEvent. destruct (bool_decide _); cbn [fst snd]; [|done].
    split; [done|]. by apply broadcast_not_to.
  - destruct (pending_fetch n); [done|].
    unfold onInitialFetch. cbn [fst snd]. split; [done|].
    by apply broadcast_not_to.
  - assert (l' ≠ l) as Hne by congruence.
    unfold addListener. cbn [fst snd set_listeners listeners]. split.
    + destruct (bool_decide _); [done|].
      rewrite elem_of_app, list_elem_of_singleton. intros [?|?]; congruence.
    + by repeat constructor.
  - cbn [fst snd removeListener set_listeners listeners]. split; [|done].
    by intros [_ ?]%list_elem_of_filter.
  - done.
  - cbn [fst snd cleanup listeners]. split; [|done]. apply not_elem_of_nil.
Qed.

Lemma run_unsubscribed l actions n :
  AddListener l ∉ actions → l ∉ listeners n →
  (l ∉ listeners (run actions n).1) ∧ Forall (λ cb, cb.1 ≠ l) (run actions n).2.
Proof.
  revert n. induction actions as [|a actions IH]; intros n Hadd Hl; [done|].
  apply not_elem_of_cons in Hadd as [Ha Hadd].
  destruct (step_unsubscribed l a n) as [Hl1 Hcbs1]; [done|done|].
  cbn [run]. destruct (step a n) as [n1 cbs1]. cbn [fst snd] in *.
  destruct (IH n1 Hadd Hl1) as [Hl2 Hcbs2].
  destruct (run actions n1) as [n2 cbs2]. cbn [fst snd] in *.
  split; [done|]. by apply Forall_app.
Qed.

(** X8.  A listener that has unsubscribed is not called again: after the
    function returned by [addListener] has run, or after [cleanup], whatever
    the application and the platform do next, no callback reaches the
    listener until it is passed to [addListener] again. *)
Theorem unsubscribed_listener_is_silent l actions n :
  AddListener l ∉ actions →
  Forall (λ cb, cb.1 ≠ l) (run actions (removeListener l n)).2 ∧
  Forall (λ cb, cb.1 ≠ l) (run actions (cleanup n)).2.
Proof.
  intros Hadd. split.
  - apply run_unsubscribed; [done|].
    cbn [removeListener set_listeners listeners].
    intros [Hne _]%list_elem_of_filter. by apply Hne.
  - apply run_unsubscribed; [done|]. apply not_elem_of_nil.
Qed.

Lemma unsubscribed_listener_is_silent_witness :
  let n := (run [AddListener 7; AddListener 8; Initialize] init).1 in
  let up := {| ni_isConnected := Some true |} in
  let down := {| ni_isConnected := Some false |} in
  let actions := [NetInfoEvent down; InitialFetchResolved down; AddListener 9;
                  NetInfoEvent up] in
  (AddListener 7 ∉ actions) ∧
  Forall (λ cb, cb.1 ≠ 7) (run actions (removeListener 7 n)).2.
Proof.
  intros n up down actions.
  assert (AddListener 7 ∉ actions) as Hadd.
  { subst actions. rewrite !not_elem_of_cons. split_and!; try done.
    apply not_elem_of_nil. }
  split; [done|].
  by destruct (unsubscribed_listener_is_silent 7 actions n Hadd).
Defined.

Lemma heard_app l (h1 h2 : list Callback) :
  heard l (h1 ++ h2) =
  match heard l h2 with Some v => Some v | None => heard l h1 end.
Proof.
  unfold heard, Callback in *. rewrite filter_app, last_app.
  by destruct (last (filter _ h2)).
Qed.

Lemma heard_broadcast l (ls : list Listener) (v : bool) :
  l ∈ ls → heard l ((λ x, (x, v)) <$> ls) = Some v.
Proof.
  induction ls as [|x ls IH] using rev_ind; [by intros ?%elem_of_nil|].
  intros Hin. rewrite fmap_app. rewrite heard_app.
  unfold heard at 1. cbn [fmap list_fmap]. rewrite filter_cons, filter_nil.
  cbn [fst]. destruct (decide (x = l)) as [->|Hne]; [done|].
  cbn. apply IH. apply elem_of_app in Hin as [?|Hx]; [done|].
  apply list_elem_of_singleton in Hx. congruence.
Qed.

Lemma heard_notify l n (h : list Callback) :
  l ∈ listeners n → heard l (h ++ notifyListeners n) = Some (isConnected n).
Proof.
  intros Hl. rewrite heard_app. unfold notifyListeners.
  by rewrite (heard_broadcast l (listeners n) (isConnected n)).
Qed.

Lemma heard_nil_r l (h : list Callback) : heard l (h ++ []) = heard l h.
Proof. by rewrite app_nil_r. Qed.

Lemma step_in_sync a n h :
  is_check a = false → in_sync n h → in_sync (step a n).1 (h ++ (step a n).2).
Proof.
  intros Ha Hsync. destruct a as [ | state | state | l' | l' | state | ]; cbn [step];
    try discriminate.
  - cbn [fst snd]. intros l Hl. rewrite heard_nil_r.
    unfold initialize in *. destruct (unsubscribe n); by apply Hsync.
  - destruct (unsubscribe n); [|intros l Hl; rewrite heard_nil_r; by apply Hsync].
    unfold onNetInfoEvent.
    destruct (bool_decide _) eqn:Hchange; cbn [fst snd]; intros l Hl.
    + by apply heard_notify.
    + rewrite heard_nil_r. apply bool_decide_eq_false in Hchange.
      cbn [set_isConnected isConnected] in *.
      rewrite (Hsync l Hl). f_equal.
      destruct (isConnected n), (reported state); try done; by destruct Hchange.
  - destruct (pending_fetch n); [intros l Hl; rewrite heard_nil_r; by apply Hsync|].
    unfold onInitialFetch. cbn [fst snd]. intros l Hl. by apply heard_notify.
  - unfold addListener. cbn [fst snd]. intros l Hl. rewrite heard_app.
    unfold heard at 1. rewrite filter_cons, filter_nil. cbn [fst].
    destruct (decide (l' = l)) as [->|Hne]; [done|].
    cbn. apply Hsync.
    cbn [set_listeners listeners] in Hl.
    destruct (bool_decide _); [done|].
    apply elem_of_app in Hl as [?|Hx]; [done|].
    apply list_elem_of_singleton in Hx. congruence.
  - cbn [fst snd]. intros l Hl. rewrite heard_nil_r.
    cbn [removeListener set_listeners listeners] in Hl.
    apply list_elem_of_filter in Hl as [_ Hl]. by apply Hsync.
  - cbn [fst snd]. by intros l Hl%elem_of_nil.
Qed.

(** X9.  As long as [checkConnection] is not called, the listeners know what
    the manager knows: after any sequence of subscriptions, unsubscriptions,
    feed events, probe resolutions, [initialize] and [cleanup], each
    subscribed listener's most recent callback carried the value that
    [getIsConnected] returns. *)
Theorem listeners_stay_in_sync actions n h :
  Forall (λ a, is_check a = false) actions →
  in_sync n h →
  in_sync (run actions n).1 (h ++ (run actions n).2).
Proof.
  intros Hactions. revert n h.
  induction Hactions as [|a actions Ha _ IH]; intros n h Hsync.
  - cbn [run fst snd]. by rewrite app_nil_r.
  - cbn [run]. pose proof (step_in_sync a n h Ha Hsync) as H1.
    destruct (step a n) as [n1 cbs1]. cbn [fst snd] in H1.
    specialize (IH n1 (h ++ cbs1) H1).
    destruct (run actions n1) as [n2 cbs2]. cbn [fst snd] in *.
    by rewrite app_assoc.
Qed.

Lemma listeners_stay_in_sync_witness :
  let up := {| ni_isConnected := Some true |} in
  let down := {| ni_isConnected := None |} in
  let actions := [AddListener 7; Initialize; NetInfoEvent down; AddListener 8;
                  InitialFetchResolved up; NetInfoEvent up; RemoveListener 7;
                  NetInfoEvent down] in
  in_sync init [] ∧
  listeners (run actions init).1 = [8] ∧
  heard 8 (run actions init).2 = Some false.
Proof.
  intros up down actions.
  assert (in_sync init []) as Hinit by (by intros l Hl%elem_of_nil).
  split_and!; [done|reflexivity|].
  apply (listeners_stay_in_sync actions init []
           ltac:(by repeat constructor) Hinit).
  by apply list_elem_of_singleton.
Defined.

(** X10.  [checkConnection] changes the value the manager holds without
    telling the listeners, and thereby hides the transition from them: the
    feed event that reports the same value right after it finds nothing
    changed and calls nobody.  When the probe saw a change, the listeners
    are left with the old value. *)
Theorem check_hides_transition state n h :
  (run [CheckConnection state; NetInfoEvent state] n).2 = [] ∧
  getIsConnected (run [CheckConnection state; NetInfoEvent state] n).1 =
    reported state ∧
  (in_sync n h → reported state ≠ isConnected n →
   ∀ l, l ∈ listeners n →
     heard l (h ++ (run [CheckConnection state; NetInfoEvent state] n).2) ≠
     Some (getIsConnected
             (run [CheckConnection state; NetInfoEvent state] n).1)).
Proof.
  assert (run [CheckConnection state; NetInfoEvent state] n =
          (set_isConnected (reported state) n, [])) as ->.
  { cbn [run step checkConnection fst snd set_isConnected unsubscribe].
    destruct (unsubscribe n); [|by destruct n].
    unfold onNetInfoEvent. cbn [set_isConnected isConnected].
    rewrite bool_decide_eq_false_2; [|by intros ?]. done. }
  cbn [fst snd]. split_and!; [done|done|].
  intros Hsync Hne l Hl. rewrite app_nil_r, (Hsync l Hl).
  cbn. congruence.
Qed.

Lemma check_hides_transition_witness :
  let n := (run [AddListener 7; Initialize] init).1 in
  let down := {| ni_isConnected := Some false |} in
  let r := run [CheckConnection down; NetInfoEvent down] n in
  (in_sync n [(7, true)] ∧ reported down ≠ isConnected n ∧ 7 ∈ listeners n) ∧
  r.2 = [] ∧ getIsConnected r.1 = false ∧
  heard 7 ([(7, true)] ++ r.2) ≠ Some (getIsConnected r.1).
Proof.
  intros n down r.
  assert (in_sync n [(7, true)]) as Hsync.
  { intros l Hl. apply list_elem_of_singleton in Hl. by subst l. }
  assert (reported down ≠ isConnected n) as Hne by done.
  assert (7 ∈ listeners n) as Hl by (by apply list_elem_of_singleton).
  split; [done|].
  destruct (check_hides_transition down n [(7, true)]) as (H1 & H2 & H3).
  split_and!; [exact H1|exact H2|exact (H3 Hsync Hne 7 Hl)].
Defined.

End MonitorExtras.

(** ** The entity cache *)

Module CacheExtras.

Import OfflineStorage.

Lemma same_key_same_element {A K} (f : A → K) (l : list A) x y :
  NoDup (f <$> l) → x ∈ l → y ∈ l → f x = f y → x = y.
Proof.
  induction l as [|a l IH]; [by intros _ ?%elem_of_nil|].
  rewrite fmap_cons. intros [Ha Hnd]%NoDup_cons.
  intros [->|Hx]%elem_of_cons [->|Hy]%elem_of_cons Heq; [done| | |by apply IH].
  - destruct Ha. rewrite Heq. by apply list_elem_of_fmap_2.
  - destruct Ha. rewrite <- Heq. by apply list_elem_of_fmap_2.
Qed.

Lemma getContainers_updateContainer_eq now c (st : t) :
  getContainers (updateContainer now c st) =
  match list_find (λ c', c_id c' = c_id c) (getContainers st) with
  | Some (index, _) => <[index := c]> (getContainers st)
  | None => getContainers st ++ [c]
  end.
Proof. done. Qed.

Lemma updateContainer_shape now c (st : t) :
  let before := getContainers st in
  let after := getContainers (updateContainer now c st) in
  c_id <$> after =
    (if bool_decide (c_id c ∈ c_id <$> before) then c_id <$> before
     else (c_id <$> before) ++ [c_id c]) ∧
  (∀ c', c_id c' ≠ c_id c → c' ∈ after ↔ c' ∈ before).
Proof.
  intros before after.
  subst after. rewrite getContainers_updateContainer_eq. fold before.
  destruct (list_find _ before) as [[i y]|] eqn:Hfind.
  - apply list_find_Some in Hfind as (Hi & Hy & _).
    split.
    + rewrite bool_decide_eq_true_2
        by (rewrite <- Hy; apply list_elem_of_fmap_2;
            by eapply list_elem_of_lookup_2).
      rewrite list_fmap_insert. apply list_insert_id.
      by rewrite list_lookup_fmap, Hi, <- Hy.
    + intros c' Hne.
      rewrite insert_take_drop by (by eapply lookup_lt_Some).
      rewrite <- (take_drop_middle before i y Hi) at 3.
      rewrite !elem_of_app, !elem_of_cons.
      split; intros [?|[->|?]]; auto; congruence.
  - apply list_find_None in Hfind. split.
    + rewrite bool_decide_eq_false_2, fmap_app; [done|].
      intros (c' & Hc' & Hin')%list_elem_of_fmap.
      eapply Forall_forall in Hfind; [|exact Hin']. by destruct Hfind.
    + intros c' Hne. rewrite elem_of_app, list_elem_of_singleton.
      split; [intros [?|?]; [done|congruence]|by left].
Qed.

(** X11.  [updateContainer] is an upsert by identifier.  A cached container
    with the identifier is replaced where it stands, otherwise the container
    is appended; so the sequence of identifiers is unchanged or grows by the
    new one at the end, the given container is cached afterwards, and the
    containers under other identifiers are exactly those cached before.  A
    collection without duplicate identifiers stays so, and the given
    container is then the only one under its identifier. *)
Theorem updateContainer_upserts now c (st : t) :
  let before := getContainers st in
  let after := getContainers (updateContainer now c st) in
  c_id <$> after =
    (if bool_decide (c_id c ∈ c_id <$> before) then c_id <$> before
     else (c_id <$> before) ++ [c_id c]) ∧
  c ∈ after ∧
  (∀ c', c_id c' ≠ c_id c → c' ∈ after ↔ c' ∈ before) ∧
  (NoDup (c_id <$> before) →
   NoDup (c_id <$> after) ∧ ∀ c', c' ∈ after → c_id c' = c_id c → c' = c).
Proof.
  intros before after.
  destruct (updateContainer_shape now c st) as [Hids Hother].
  fold before after in Hids, Hother.
  assert (c ∈ after) as Hin
    by apply CacheProperties.getContainers_updateContainer.
  split_and!; [done|done|done|].
  intros Hnd.
  assert (NoDup (c_id <$> after)) as Hnd'.
  { rewrite Hids. case_bool_decide as Hc; [done|].
    apply NoDup_app. split_and!; [done| |apply NoDup_singleton].
    intros x Hx ->%list_elem_of_singleton. done. }
  split; [done|]. intros c' Hc' Heq.
  by apply (same_key_same_element c_id after).
Qed.

Lemma updateContainer_upserts_witness :
  let attic :=
    {| c_id := "c-1"; c_name := "Attic"; c_location := "A1"; c_row := 1%Z;
       c_column := "A"; c_description := None; c_qrCode := "qr-1";
       c_color := None; c_itemCount := 0; c_parentId := None;
       c_parentName := None; c_teamId := None; c_teamName := None;
       c_createdAt := "2026-01-01T09:00:00.000Z";
       c_updatedAt := "2026-01-01T09:00:00.000Z" |} in
  let loft :=
    {| c_id := "c-1"; c_name := "Loft"; c_location := "A1"; c_row := 1%Z;
       c_column := "A"; c_description := None; c_qrCode := "qr-1";
       c_color := None; c_itemCount := 0; c_parentId := None;
       c_parentName := None; c_teamId := None; c_teamName := None;
       c_createdAt := "2026-01-01T09:00:00.000Z";
       c_updatedAt := "2026-01-02T09:00:00.000Z" |} in
  let st := set_CONTAINERS (Some [attic]) init in
  NoDup (c_id <$> getContainers st) ∧
  ∀ c', c' ∈ getContainers (updateContainer "2026-01-02T09:00:01.000Z" loft st) →
        c_id c' = "c-1" → c' = loft.
Proof.
  intros attic loft st.
  assert (NoDup (c_id <$> getContainers st)) as Hnd by apply NoDup_singleton.
  split; [done|].
  destruct (updateContainer_upserts "2026-01-02T09:00:01.000Z" loft st)
    as (_ & _ & _ & Hunique).
  by destruct (Hunique Hnd).
Defined.

Lemma getContainerDetail_setContainerDetail k d (st : t) k' :
  getContainerDetail k' (setContainerDetail k d st) =
  if decide (k' = k) then Some d else getContainerDetail k' st.
Proof.
  unfold getContainerDetail, setContainerDetail. cbn.
  destruct (decide (k' = k)) as [->|Hne]; [apply lookup_insert_eq|].
  rewrite lookup_insert_ne by done. by destruct (CONTAINER_DETAILS st).
Qed.

Lemma getContainerDetail_setContainerDetail_eq k d (st : t) :
  getContainerDetail k (setContainerDetail k d st) = Some d.
Proof. by rewrite getContainerDetail_setContainerDetail, decide_True. Qed.

(** X12.  [updateItemInCache] only ever replaces an item in place.  In every
    cached detail the items keep their identifiers, number and order, and
    the container fields (the item count among them) are untouched; details
    other than the one named by the item's [containerId] are not changed at
    all, nor are the cached collection and the last-sync stamp.  If the
    detail named by [containerId] is cached and lists the item's identifier,
    the item is in it afterwards; if it does not, nothing is written, so an
    item is never added to a detail and never taken out of the detail of
    another container. *)
Theorem updateItemInCache_in_place item (st : t) k :
  let after := updateItemInCache item st in
  (λ d, i_id <$> cw_items d) <$> getContainerDetail k after =
    (λ d, i_id <$> cw_items d) <$> getContainerDetail k st ∧
  cw_container <$> getContainerDetail k after =
    cw_container <$> getContainerDetail k st ∧
  (k ≠ i_containerId item →
   getContainerDetail k after = getContainerDetail k st) ∧
  (∀ d, getContainerDetail (i_containerId item) st = Some d →
     if bool_decide (i_id item ∈ i_id <$> cw_items d)
     then ∃ d', getContainerDetail (i_containerId item) after = Some d' ∧
                item ∈ cw_items d'
     else after = st) ∧
  getContainers after = getContainers st ∧
  getLastSync after = getLastSync st.
Proof.
  intros after. subst after. unfold updateItemInCache.
  destruct (getContainerDetail (i_containerId item) st) as [d|] eqn:Hd;
    [|by split_and!].
  destruct (list_find _ (cw_items d)) as [[i y]|] eqn:Hfind.
  - apply list_find_Some in Hfind as (Hi & Hy & _).
    rewrite getContainerDetail_setContainerDetail.
    split_and!.
    + destruct (decide _) as [->|]; [|done]. rewrite Hd. cbn. f_equal.
      rewrite list_fmap_insert. apply list_insert_id.
      by rewrite list_lookup_fmap, Hi, <- Hy.
    + destruct (decide _) as [->|]; [|done]. by rewrite Hd.
    + intros Hne. by rewrite decide_False.
    + intros d0 [= <-].
      rewrite bool_decide_eq_true_2
        by (rewrite <- Hy; apply list_elem_of_fmap_2;
            by eapply list_elem_of_lookup_2).
      rewrite getContainerDetail_setContainerDetail, decide_True by done.
      eexists. split; [done|]. cbn.
      apply list_elem_of_insert. by eapply lookup_lt_Some.
    + done.
    + done.
  - apply list_find_None in Hfind. split_and!; try done.
    intros d0 [= <-]. rewrite bool_decide_eq_false_2; [done|].
    intros (c' & Hc' & Hin')%list_elem_of_fmap.
    eapply Forall_forall in Hfind; [|exact Hin']. by destruct Hfind.
Qed.

(** X13.  [deleteItemFromCache], on a cached detail, removes every item
    with the identifier, keeps the others in order, and sets the detail's
    item count to the number of items left, whatever it said before.  The
    entry of the same container in the cached collection is not touched,
    nor are the other details; on a detail that is not cached nothing is
    written. *)
Theorem deleteItemFromCache_recounts itemId containerId (st : t) :
  let after := deleteItemFromCache itemId containerId st in
  match getContainerDetail containerId st with
  | Some d =>
      ∃ d', getContainerDetail containerId after = Some d' ∧
            cw_items d' = filter (λ i, i_id i ≠ itemId) (cw_items d) ∧
            Forall (λ i, i_id i ≠ itemId) (cw_items d') ∧
            c_itemCount (cw_container d') = length (cw_items d') ∧
            c_id (cw_container d') = c_id (cw_container d)
  | None => after = st
  end ∧
  (∀ other, other ≠ containerId →
     getContainerDetail other after = getContainerDetail other st) ∧
  getContainers after = getContainers st ∧
  getLastSync after = getLastSync st.
Proof.
  intros after. subst after. unfold deleteItemFromCache.
  destruct (getContainerDetail containerId st) as [d|] eqn:Hd; [|done].
  split_and!.
  - rewrite getContainerDetail_setContainerDetail, decide_True by done.
    eexists. split_and!; [done|done| |done|done].
    cbn. apply Forall_forall. by intros i [? _]%list_elem_of_filter.
  - intros other Hne.
    by rewrite getContainerDetail_setContainerDetail, decide_False.
  - done.
  - done.
Qed.

End CacheExtras.

(** ** The API layer *)

Module ApiExtras.

Import SyncQueue ApiService ApiReads.

Section Calls.
Context {R : Type}.
Context (remote : Remote R).
Context (reads : RemoteReads R).
Context (getTime : string → Z).
Implicit Types (w : World R) (id : string).

(** X14.  A write call whose request the server answers with an error that
    is not a connectivity failure rejects with that very error, and has
    changed neither the queue nor the cache: nothing is queued for a
    mutation the server refused.  For each of the five write calls. *)
Theorem server_rejections_propagate id w error (data : CreateContainerDto)
    (pdata : PartialContainerDto) (udata : UpdateItemDto) :
  NetworkStatus.isConnected (net w) = true →
  isNetworkError error = false →
  ((post_containers remote (stringify (CreateContainerDto_data data))
      (server (ext w))).1 = inl error →
   fails_untouched error w (createContainer remote data w)) ∧
  ((put_containers remote id (stringify (PartialContainerDto_data pdata))
      (server (ext w))).1 = inl error →
   fails_untouched error w (updateContainer remote id pdata w)) ∧
  ((delete_containers remote id (server (ext w))).1 = inl error →
   fails_untouched error w (deleteContainer remote id w)) ∧
  ((put_items remote id (stringify (UpdateItemDto_data udata))
      (server (ext w))).1 = inl error →
   fails_untouched error w (updateItem remote id udata w)) ∧
  ((delete_items remote id (server (ext w))).1 = inl error →
   fails_untouched error w (deleteItem remote id w)).
Proof.
  intros Hon Herr. unfold fails_untouched. split_and!; intros Hcall.
  - unfold createContainer. attempted Hon Hcall. by rewrite Herr.
  - unfold updateContainer. attempted Hon Hcall. by rewrite Herr.
  - unfold deleteContainer. attempted Hon Hcall. by rewrite Herr.
  - unfold updateItem. attempted Hon Hcall. by rewrite Herr.
  - unfold deleteItem. attempted Hon Hcall. by rewrite Herr.
Qed.

(** X15.  A write call whose request the server accepts returns the
    server's answer and queues nothing.  [createContainer] and
    [updateContainer] leave the answered container in the cached
    collection; [deleteContainer] leaves no container under the identifier,
    in the collection or in the details; [updateItem] and [deleteItem]
    return without queueing, and [deleteItem] does not touch the cache. *)
Theorem online_writes_bypass_queue id w (data : CreateContainerDto)
    (pdata : PartialContainerDto) (udata : UpdateItemDto) :
  NetworkStatus.isConnected (net w) = true →
  (∀ response,
     (post_containers remote (stringify (CreateContainerDto_data data))
        (server (ext w))).1 = inr response →
     let r := createContainer remote data w in
     r.1 = inr response ∧ queue r.2 = queue w ∧
     response ∈ OfflineStorage.getContainers (cache (ext r.2))) ∧
  (∀ response,
     (put_containers remote id (stringify (PartialContainerDto_data pdata))
        (server (ext w))).1 = inr response →
     let r := updateContainer remote id pdata w in
     r.1 = inr response ∧ queue r.2 = queue w ∧
     response ∈ OfflineStorage.getContainers (cache (ext r.2))) ∧
  ((delete_containers remote id (server (ext w))).1 = inr tt →
   let r := deleteContainer remote id w in
   r.1 = inr tt ∧ queue r.2 = queue w ∧ ¬ cached id r.2 ∧
   OfflineStorage.getContainerDetail id (cache (ext r.2)) = None) ∧
  (∀ response,
     (put_items remote id (stringify (UpdateItemDto_data udata))
        (server (ext w))).1 = inr response →
     let r := updateItem remote id udata w in
     r.1 = inr response ∧ queue r.2 = queue w) ∧
  ((delete_items remote id (server (ext w))).1 = inr tt →
   let r := deleteItem remote id w in
   r.1 = inr tt ∧ queue r.2 = queue w ∧ cache (ext r.2) = cache (ext w)).
Proof.
  intros Hon. split_and!.
  - intros response Hcall. unfold createContainer. attempted Hon Hcall.
    cbn. split_and!; [done|done|].
    apply (CacheProperties.getContainers_updateContainer "" response
             (cache (ext w))).
  - intros response Hcall. unfold updateContainer. attempted Hon Hcall.
    cbn. split_and!; [done|done|].
    apply (CacheProperties.getContainers_updateContainer "" response
             (cache (ext w))).
  - intros Hcall. unfold deleteContainer. attempted Hon Hcall.
    cbn. split_and!; [done|done| |].
    + intros (c & Hc & Hid). cbn [ext cache] in Hc.
      rewrite CacheProperties.getContainers_deleteContainer in Hc.
      by apply list_elem_of_filter in Hc as [Hne _].
    + apply CacheProperties.getContainerDetail_deleteContainer.
  - intros response Hcall. unfold updateItem. attempted Hon Hcall. by cbn.
  - intros Hcall. unfold deleteItem. attempted Hon Hcall. by cbn.
Qed.

Lemma createContainer_known_offline (data : CreateContainerDto) w :
  NetworkStatus.isConnected (net w) = false →
  let tempId := "temp-" +:+ reading w 0 +:+ "-" +:+ reading w 1 in
  let temp := placeholder data tempId (reading w 2) (reading w 3) in
  createContainer remote data w =
  (inr temp,
   {| net := net w;
      queue := (addToQueue (generateId (reading w 5) (reading w 6)) (reading w 7)
                  CREATE container tempId (CreateContainerDto_data data)
                  (queue w)).2;
      ext := {| cache := OfflineStorage.updateContainer (reading w 4) temp
                           (cache (ext w));
                server := server (ext w);
                entropy := {| readings := readings (entropy (ext w));
                              position := 8 + position (entropy (ext w)) |} |} |}).
Proof.
  intros Hoff. unfold createContainer. known_offline Hoff. reflexivity.
Qed.

Lemma sync_executor_create_accepted (op : SyncOperation) (x : Ext R) result sv :
  op_entity op = container → op_type op = CREATE →
  post_containers remote (op_data op) (server x) = (inr result, sv) →
  sync_executor remote op x =
  (Resolved true,
   {| cache :=
        OfflineStorage.updateContainer
          (readings (entropy x) (S (position (entropy x)))) result
          (OfflineStorage.deleteContainer
             (readings (entropy x) (position (entropy x))) (op_entityId op)
             (cache x));
      server := sv;
      entropy := {| readings := readings (entropy x);
                    position := S (S (position (entropy x))) |} |}).
Proof.
  intros He Ht Hpost.
  unfold sync_executor, executor_body, try_catch, bind, request.
  rewrite He, Ht, Hpost. reflexivity.
Qed.

Lemma drain_single_create probe w (op : SyncOperation) result sv :
  getQueue (queue w) = [op] →
  isSyncing (queue w) = false →
  NetworkStatus.reported probe = true →
  op_entity op = container → op_type op = CREATE →
  post_containers remote (op_data op) (server (ext w)) = (inr result, sv) →
  let r := processSyncQueue remote getTime probe w in
  r.1 = {| success := 1; failed := 0 |} ∧
  getQueue (queue r.2) = [] ∧
  ext r.2 = (sync_executor remote op (ext w)).2.
Proof.
  intros Hqueue Hs Hp He Ht Hpost r. subst r.
  pose proof (sync_executor_create_accepted op (ext w) result sv He Ht Hpost)
    as Hex.
  unfold processSyncQueue, processQueue, NetworkStatus.checkConnection.
  rewrite Hs. cbn [fst snd]. rewrite Hp.
  cbn [negb NetworkStatus.isConnected NetworkStatus.set_isConnected].
  change (getQueue (set_isSyncing true (queue w))) with (getQueue (queue w)).
  rewrite Hqueue.
  cbn [sort_by_timestamp foldr sort_insert process_all foldl process_operation].
  rewrite Hex. cbn [fst snd queue ext].
  split_and!; [done| |done].
  change (getQueue (set_isSyncing false ?s)) with (getQueue s).
  rewrite DrainProperties.getQueue_removeFromQueue.
  change (getQueue (set_isSyncing true (queue w))) with (getQueue (queue w)).
  rewrite Hqueue, filter_cons_False, filter_nil; [done|]. by intros ?.
Qed.

(** X16.  A container created offline and the next drain.  With nothing
    queued and no drain running, [createContainer] without connectivity
    returns a placeholder under a temporary identifier, caches it and queues
    one CREATE for that identifier carrying the data as the online request
    would have sent them.  A drain that then runs against a server accepting
    the request counts one success and empties the queue; the server's
    container is in the cached collection, and the placeholder is gone from
    it as soon as the server's identifier is not the temporary one. *)
Theorem offline_create_then_drain (data : CreateContainerDto) w probe result sv :
  NetworkStatus.isConnected (net w) = false →
  getQueue (queue w) = [] →
  isSyncing (queue w) = false →
  NetworkStatus.reported probe = true →
  post_containers remote (stringify (CreateContainerDto_data data))
    (server (ext w)) = (inr result, sv) →
  let created := createContainer remote data w in
  let r := processSyncQueue remote getTime probe created.2 in
  ∃ temp,
    created.1 = inr temp ∧
    String.prefix "temp-" (c_id temp) = true ∧
    temp ∈ OfflineStorage.getContainers (cache (ext created.2)) ∧
    (∃ op, getQueue (queue created.2) = [op] ∧
           op_type op = CREATE ∧ op_entity op = container ∧
           op_entityId op = c_id temp ∧
           op_data op = stringify (CreateContainerDto_data data)) ∧
    r.1 = {| success := 1; failed := 0 |} ∧
    getQueue (queue r.2) = [] ∧
    server (ext r.2) = sv ∧
    result ∈ OfflineStorage.getContainers (cache (ext r.2)) ∧
    (c_id result ≠ c_id temp →
     Forall (λ c, c_id c ≠ c_id temp)
       (OfflineStorage.getContainers (cache (ext r.2)))).
Proof.
  intros Hoff Hq Hs Hp Hpost created r. subst created r.
  rewrite (createContainer_known_offline data w Hoff). cbn [fst snd].
  set (tempId := "temp-" +:+ reading w 0 +:+ "-" +:+ reading w 1).
  set (temp := placeholder data tempId (reading w 2) (reading w 3)).
  set (op := {| op_id := generateId (reading w 5) (reading w 6);
                op_type := CREATE; op_entity := container;
                op_entityId := tempId;
                op_data := stringify (CreateContainerDto_data data);
                op_timestamp := reading w 7; op_retries := 0 |}).
  assert (getQueue (addToQueue (generateId (reading w 5) (reading w 6))
                      (reading w 7) CREATE container tempId
                      (CreateContainerDto_data data) (queue w)).2 = [op])
    as Hqueue.
  { rewrite QueueProperties.getQueue_addToQueue, Hq. reflexivity. }
  set (w1 := {| net := net w;
                queue := (addToQueue (generateId (reading w 5) (reading w 6))
                            (reading w 7) CREATE container tempId
                            (CreateContainerDto_data data) (queue w)).2;
                ext := {| cache := OfflineStorage.updateContainer (reading w 4)
                                     temp (cache (ext w));
                          server := server (ext w);
                          entropy :=
                            {| readings := readings (entropy (ext w));
                               position := 8 + position (entropy (ext w)) |} |} |}).
  destruct (drain_single_create probe w1 op result sv Hqueue Hs Hp
              eq_refl eq_refl Hpost) as (Hcounts & Hempty & Hext).
  rewrite (sync_executor_create_accepted op (ext w1) result sv
             eq_refl eq_refl Hpost) in Hext.
  cbn [snd] in Hext.
  exists temp. split_and!.
  - done.
  - apply ApiProperties.prefix_temp.
  - cbn [ext cache]. apply CacheProperties.getContainers_updateContainer.
  - exists op. by split_and!.
  - done.
  - done.
  - by rewrite Hext.
  - rewrite Hext. cbn [cache].
    apply CacheProperties.getContainers_updateContainer.
  - intros Hne. rewrite Hext. cbn [cache].
    apply Forall_forall. intros c Hc Hid.
    apply CacheExtras.updateContainer_shape in Hc;
      [|by rewrite Hid; intros Heq; apply Hne].
    rewrite CacheProperties.getContainers_deleteContainer in Hc.
    by apply list_elem_of_filter in Hc as [Hc _].
Qed.

Lemma sync_executor_resolves (op : SyncOperation) (x : Ext R) :
  (sync_executor remote op x).1 ≠ Rejected.
Proof.
  unfold sync_executor, executor_body, try_catch, bind, request, ret.
  destruct (op_entity op), (op_type op); cbn [fst snd]; try done.
  all: match goal with
       | |- context [?call (server ?y)] =>
           destruct (call (server y)) as [[error|response] sv]
       end; done.
Qed.

(** X17.  The executor the API layer hands to the drain never raises.  It
    answers [true] exactly when the server accepted the replayed request,
    and [false] for every refusal or failure, so each failed replay wears
    the retry budget; a queued CREATE of an item is answered [false] without
    any request.  Only the replay of a container CREATE writes to the
    cache. *)
Theorem replay_outcome (op : SyncOperation) (x : Ext R) :
  let r := sync_executor remote op x in
  r.1 = Resolved
          (match op_entity op, op_type op with
           | container, CREATE =>
               accepted (post_containers remote (op_data op) (server x)).1
           | container, UPDATE =>
               accepted (put_containers remote (op_entityId op) (op_data op)
                           (server x)).1
           | container, DELETE =>
               accepted (delete_containers remote (op_entityId op) (server x)).1
           | item, UPDATE =>
               accepted (put_items remote (op_entityId op) (op_data op)
                           (server x)).1
           | item, DELETE =>
               accepted (delete_items remote (op_entityId op) (server x)).1
           | item, CREATE => false
           end) ∧
  (¬ (op_entity op = container ∧ op_type op = CREATE) →
   cache r.2 = cache x ∧ entropy r.2 = entropy x) ∧
  (op_entity op = item → op_type op = CREATE → r.2 = x).
Proof.
  unfold sync_executor, executor_body, try_catch, bind, request, ret.
  destruct (op_entity op), (op_type op); cbn [fst snd].
  all: try match goal with
           | |- context [?call (server ?y)] =>
               destruct (call (server y)) as [[error|response] sv]
           end; cbn.
  all: split_and!; try done; try tauto.
  all: by intros [].
Qed.

(** X18.  With the API's executor no operation outlives three drains that
    run: a replay succeeds and the operation is removed, or it fails and
    its counter goes up, and at three it is dropped.  From a queue whose
    operations have distinct identifiers, three calls of [processSyncQueue]
    that find connectivity leave the queue empty, whatever the server
    answers, provided nothing is queued in between. *)
Theorem three_syncs_empty_the_queue p1 p2 p3 w :
  isSyncing (queue w) = false →
  NoDup (op_id <$> getQueue (queue w)) →
  NetworkStatus.reported p1 = true →
  NetworkStatus.reported p2 = true →
  NetworkStatus.reported p3 = true →
  let w1 := (processSyncQueue remote getTime p1 w).2 in
  let w2 := (processSyncQueue remote getTime p2 w1).2 in
  let w3 := (processSyncQueue remote getTime p3 w2).2 in
  getQueue (queue w3) = [].
Proof.
  intros Hs Hnd H1 H2 H3 w1 w2 w3.
  assert (∀ k probe w0,
            isSyncing (queue w0) = false →
            NetworkStatus.reported probe = true →
            NoDup (op_id <$> getQueue (queue w0)) →
            Forall (λ o, k ≤ op_retries o) (getQueue (queue w0)) →
            let w' := (processSyncQueue remote getTime probe w0).2 in
            isSyncing (queue w') = false ∧
            NoDup (op_id <$> getQueue (queue w')) ∧
            Forall (λ o', S k ≤ op_retries o' ∧ op_retries o' < 3)
              (getQueue (queue w'))) as Hstep.
  { intros k probe w0 Hs0 Hp0 Hnd0 Hk0.
    pose proof (DrainExtras.processQueue_progress getTime
                  (sync_executor remote) k probe (net w0) (queue w0) (ext w0)
                  sync_executor_resolves Hs0 Hp0 Hnd0 Hk0) as Hdrain.
    unfold processSyncQueue.
    destruct (processQueue _ _ _ _ _ _) as [[[c n] q] x]. exact Hdrain. }
  destruct (Hstep 0 p1 w Hs H1 Hnd) as (Hs1 & Hnd1 & Hk1);
    [apply Forall_forall; intros; lia|].
  fold w1 in Hs1, Hnd1, Hk1.
  destruct (Hstep 1 p2 w1 Hs1 H2 Hnd1) as (Hs2 & Hnd2 & Hk2);
    [eapply Forall_impl; [exact Hk1|]; intros o []; lia|].
  fold w2 in Hs2, Hnd2, Hk2.
  destruct (Hstep 2 p3 w2 Hs2 H3 Hnd2) as (_ & _ & Hk3);
    [eapply Forall_impl; [exact Hk2|]; intros o []; lia|].
  fold w3 in Hk3.
  destruct (getQueue (queue w3)) as [|o rest]; [done|].
  apply Forall_inv in Hk3. lia.
Qed.

Lemma getContainers_unreachable w error :
  (get_containers reads (server (ext w))).1 = inl error →
  isNetworkError error = true →
  (getContainers reads w).1 =
    inr (OfflineStorage.getContainers (cache (ext w))) ∧
  cache (ext (getContainers reads w).2) = cache (ext w).
Proof.
  intros Hcall Hnet. unfold getContainers. requested Hcall.
  by rewrite Hnet.
Qed.

Lemma getTeams_unreachable w error :
  (get_teams reads (server (ext w))).1 = inl error →
  isNetworkError error = true →
  (getTeams reads w).1 = inr (OfflineStorage.getTeams (cache (ext w))).
Proof.
  intros Hcall Hnet. unfold getTeams. requested Hcall. by rewrite Hnet.
Qed.

Lemma getBorrowedItems_unreachable w error :
  (get_items_borrowed reads (server (ext w))).1 = inl error →
  isNetworkError error = true →
  (getBorrowedItems reads w).1 =
    inr (OfflineStorage.getBorrowedItems (cache (ext w))).
Proof.
  intros Hcall Hnet. unfold getBorrowedItems. requested Hcall.
  by rewrite Hnet.
Qed.

Lemma getContainer_unreachable id w error :
  (get_container reads id (server (ext w))).1 = inl error →
  isNetworkError error = true →
  match OfflineStorage.getContainerDetail id (cache (ext w)) with
  | Some detail => (getContainer reads id w).1 = inr detail
  | None => fails_untouched error w (getContainer reads id w)
  end.
Proof.
  intros Hcall Hnet. unfold getContainer, fails_untouched.
  requested Hcall. rewrite Hnet. cbn [fst snd net queue ext cache].
  by destruct (OfflineStorage.getContainerDetail id (cache (ext w))).
Qed.

Lemma getItemsByContainer_unreachable id w error :
  (get_items_container reads id (server (ext w))).1 = inl error →
  isNetworkError error = true →
  match OfflineStorage.getContainerDetail id (cache (ext w)) with
  | Some detail => (getItemsByContainer reads id w).1 = inr (cw_items detail)
  | None => fails_untouched error w (getItemsByContainer reads id w)
  end.
Proof.
  intros Hcall Hnet. unfold getItemsByContainer, fails_untouched.
  requested Hcall. rewrite Hnet. cbn [fst snd net queue ext cache].
  by destruct (OfflineStorage.getContainerDetail id (cache (ext w))).
Qed.

(** X19.  What a read call fetched is what it serves when the server cannot
    be reached afterwards.  After [getContainers], [getTeams] or
    [getBorrowedItems] has succeeded, the same call failing on connectivity
    returns the list of that answer; after [getContainer(id)] has succeeded,
    [getContainer(id)] failing on connectivity returns that detail and
    [getItemsByContainer(id)] returns its items. *)
Theorem reads_serve_last_response id w error :
  isNetworkError error = true →
  (∀ response,
     (get_containers reads (server (ext w))).1 = inr response →
     let first := getContainers reads w in
     (get_containers reads (server (ext first.2))).1 = inl error →
     first.1 = inr response ∧ (getContainers reads first.2).1 = inr response) ∧
  (∀ response,
     (get_teams reads (server (ext w))).1 = inr response →
     let first := getTeams reads w in
     (get_teams reads (server (ext first.2))).1 = inl error →
     first.1 = inr response ∧ (getTeams reads first.2).1 = inr response) ∧
  (∀ response,
     (get_items_borrowed reads (server (ext w))).1 = inr response →
     let first := getBorrowedItems reads w in
     (get_items_borrowed reads (server (ext first.2))).1 = inl error →
     first.1 = inr response ∧
     (getBorrowedItems reads first.2).1 = inr response) ∧
  (∀ response,
     (get_container reads id (server (ext w))).1 = inr response →
     let first := getContainer reads id w in
     first.1 = inr response ∧
     ((get_container reads id (server (ext first.2))).1 = inl error →
      (getContainer reads id first.2).1 = inr response) ∧
     ((get_items_container reads id (server (ext first.2))).1 = inl error →
      (getItemsByContainer reads id first.2).1 = inr (cw_items response))).
Proof.
  intros Hnet. split_and!.
  - intros response Hcall first Hagain.
    destruct (getContainers_unreachable first.2 error Hagain Hnet) as [-> _].
    subst first. unfold getContainers. requested Hcall. by cbn.
  - intros response Hcall first Hagain.
    rewrite (getTeams_unreachable first.2 error Hagain Hnet).
    subst first. unfold getTeams. requested Hcall. by cbn.
  - intros response Hcall first Hagain.
    rewrite (getBorrowedItems_unreachable first.2 error Hagain Hnet).
    subst first. unfold getBorrowedItems. requested Hcall. by cbn.
  - intros response Hcall first.
    assert (first.1 = inr response ∧
            OfflineStorage.getContainerDetail id (cache (ext first.2)) =
              Some response) as [Hfirst Hcached].
    { subst first. unfold getContainer. requested Hcall. cbn. split; [done|].
      apply CacheExtras.getContainerDetail_setContainerDetail_eq. }
    split_and!; [done| |].
    + intros Hagain.
      pose proof (getContainer_unreachable id first.2 error Hagain Hnet) as H.
      by rewrite Hcached in H.
    + intros Hagain.
      pose proof (getItemsByContainer_unreachable id first.2 error Hagain Hnet)
        as H.
      by rewrite Hcached in H.
Qed.

(** X20.  What a read call does when the server cannot be reached and
    nothing fitting is cached.  The list reads complete with an empty list;
    [getContainer] and [getItemsByContainer] reject with the connectivity
    error itself; [getContainerByQr] does the same whenever the cached
    collection holds no container with that QR code, whether or not a detail
    of the container is cached. *)
Theorem offline_reads_without_cache id qrCode w error :
  isNetworkError error = true →
  ((get_containers reads (server (ext w))).1 = inl error →
   OfflineStorage.CONTAINERS (cache (ext w)) = None →
   (getContainers reads w).1 = inr []) ∧
  ((get_teams reads (server (ext w))).1 = inl error →
   OfflineStorage.TEAMS (cache (ext w)) = None →
   (getTeams reads w).1 = inr []) ∧
  ((get_items_borrowed reads (server (ext w))).1 = inl error →
   OfflineStorage.BORROWED_ITEMS (cache (ext w)) = None →
   (getBorrowedItems reads w).1 = inr []) ∧
  ((get_container reads id (server (ext w))).1 = inl error →
   OfflineStorage.getContainerDetail id (cache (ext w)) = None →
   fails_untouched error w (getContainer reads id w)) ∧
  ((get_items_container reads id (server (ext w))).1 = inl error →
   OfflineStorage.getContainerDetail id (cache (ext w)) = None →
   fails_untouched error w (getItemsByContainer reads id w)) ∧
  ((get_container_qr reads qrCode (server (ext w))).1 = inl error →
   Forall (λ c, c_qrCode c ≠ qrCode)
     (OfflineStorage.getContainers (cache (ext w))) →
   fails_untouched error w (getContainerByQr reads qrCode w)).
Proof.
  intros Hnet. split_and!.
  - intros Hcall Hnone.
    destruct (getContainers_unreachable w error Hcall Hnet) as [-> _].
    unfold OfflineStorage.getContainers. by rewrite Hnone.
  - intros Hcall Hnone. rewrite (getTeams_unreachable w error Hcall Hnet).
    unfold OfflineStorage.getTeams. by rewrite Hnone.
  - intros Hcall Hnone.
    rewrite (getBorrowedItems_unreachable w error Hcall Hnet).
    unfold OfflineStorage.getBorrowedItems. by rewrite Hnone.
  - intros Hcall Hnone.
    pose proof (getContainer_unreachable id w error Hcall Hnet) as H.
    by rewrite Hnone in H.
  - intros Hcall Hnone.
    pose proof (getItemsByContainer_unreachable id w error Hcall Hnet) as H.
    by rewrite Hnone in H.
  - intros Hcall Hall.
    assert (list_find (λ c, c_qrCode c = qrCode)
              (OfflineStorage.getContainers (cache (ext w))) = None) as Hnone
      by (by apply list_find_None).
    unfold getContainerByQr, fails_untouched. requested Hcall.
    rewrite Hnet. cbn [fst snd ext cache]. by rewrite Hnone.
Qed.

(** X21.  [addItem] has no offline path: whatever the failure of its
    request, a connectivity failure included, the call rejects with it and
    neither the queue nor the cache changes.  When the server accepts, the
    item is returned, nothing is queued, and a cached detail of the target
    container gets the item appended and its item count set to the new
    number of items; with no detail cached the cache is left as it was. *)
Theorem addItem_needs_the_server (data : CreateItemDto) w :
  (∀ error,
     (post_items reads (stringify (CreateItemDto_data data))
        (server (ext w))).1 = inl error →
     fails_untouched error w (addItem reads data w)) ∧
  (∀ response,
     (post_items reads (stringify (CreateItemDto_data data))
        (server (ext w))).1 = inr response →
     let r := addItem reads data w in
     r.1 = inr response ∧ queue r.2 = queue w ∧
     match OfflineStorage.getContainerDetail (idto_containerId data)
             (cache (ext w)) with
     | Some detail =>
         ∃ detail',
           OfflineStorage.getContainerDetail (idto_containerId data)
             (cache (ext r.2)) = Some detail' ∧
           cw_items detail' = cw_items detail ++ [response] ∧
           c_itemCount (cw_container detail') = S (length (cw_items detail))
     | None => cache (ext r.2) = cache (ext w)
     end).
Proof.
  split.
  - intros error Hcall. unfold addItem, fails_untouched. by requested Hcall.
  - intros response Hcall. unfold addItem. requested Hcall.
    cbn [fst snd net queue ext cache].
    destruct (OfflineStorage.getContainerDetail (idto_containerId data)
                (cache (ext w))) as [detail|] eqn:Hd;
      cbn [fst snd net queue ext cache].
    + split_and!; [done|done|].
      eexists. split;
        [apply CacheExtras.getContainerDetail_setContainerDetail_eq|].
      cbn. split; [done|]. rewrite length_app. cbn. lia.
    + done.
Qed.

(** X22.  The item write calls and the cache.  [deleteItem] never writes
    to the cache, online or offline, whatever the outcome: a deleted item
    stays in the cached detail of its container.  [updateItem] writes to the
    cache only with the server's answer; in the offline case it leaves the
    cache as it was and returns a placeholder that names no container. *)
Theorem item_writes_and_the_cache id w (udata : UpdateItemDto) :
  cache (ext (deleteItem remote id w).2) = cache (ext w) ∧
  (offline_case
     (put_items remote id (stringify (UpdateItemDto_data udata))) w →
   cache (ext (updateItem remote id udata w).2) = cache (ext w) ∧
   ∃ placeholder, (updateItem remote id udata w).1 = inr placeholder ∧
                  i_id placeholder = id ∧ i_containerId placeholder = "").
Proof.
  split.
  - unfold deleteItem. every_outcome. all: done.
  - intros [Hoff|(error & Hcall & Hnet)]; unfold updateItem.
    + known_offline Hoff. split; [done|]. by eexists.
    + falls_through Hcall Hnet.
      all: split; [done|]; by eexists.
Qed.

(** X23.  [logout] drops the pending mutations: the queue and every part
    of the cache are empty afterwards, while the in-progress flag of the
    queue is left as it was.  A drain after it sends nothing to the server
    and counts nothing. *)
Theorem logout_discards_pending (sw : Session * World R) probe k :
  let out := logout sw in
  token out.1 = None ∧ user out.1 = None ∧
  getQueue (queue out.2) = [] ∧
  OfflineStorage.getContainers (cache (ext out.2)) = [] ∧
  OfflineStorage.getContainerDetail k (cache (ext out.2)) = None ∧
  OfflineStorage.getLastSync (cache (ext out.2)) = None ∧
  isSyncing (queue out.2) = isSyncing (queue sw.2) ∧
  let r := processSyncQueue remote getTime probe out.2 in
  r.1 = no_counts ∧ server (ext r.2) = server (ext sw.2) ∧
  getQueue (queue r.2) = [].
Proof.
  cbn zeta. split_and!; try done.
  all: unfold processSyncQueue, processQueue, logout; cbn [queue net ext snd].
  all: change (isSyncing (clearQueue ?q)) with (isSyncing q).
  all: destruct (isSyncing (queue sw.2)); [done|].
  all: cbn [NetworkStatus.checkConnection fst snd].
  all: destruct (negb _); done.
Qed.

(** X24.  The last-sync stamp is written by every write to the cached
    collection, the local ones included: without connectivity,
    [createContainer], [updateContainer] on a cached container and
    [deleteContainer] each set it to the time of the call although nothing
    was exchanged with the server. *)
Theorem offline_writes_stamp_last_sync id w (data : CreateContainerDto)
    (pdata : PartialContainerDto) :
  NetworkStatus.isConnected (net w) = false →
  OfflineStorage.getLastSync (cache (ext (createContainer remote data w).2)) =
    Some (reading w 4) ∧
  (cached id w →
   OfflineStorage.getLastSync
     (cache (ext (updateContainer remote id pdata w).2)) = Some (reading w 1)) ∧
  OfflineStorage.getLastSync (cache (ext (deleteContainer remote id w).2)) =
    Some (reading w 0).
Proof.
  intros Hoff. split_and!.
  - by rewrite (createContainer_known_offline data w Hoff).
  - intros (i & existing & Hfind & _)%ApiProperties.list_find_cached.
    unfold updateContainer. cbn in Hfind. known_offline Hoff.
    rewrite Hfind. by cbn.
  - unfold deleteContainer. known_offline Hoff.
    unfold OfflineStorage.deleteContainer, OfflineStorage.removeContainerDetail.
    destruct (String.prefix "temp-" id); cbn;
      by destruct (OfflineStorage.CONTAINER_DETAILS _).
Qed.

End Calls.

Import Samples.

Lemma server_rejections_propagate_witness :
  let w := world true SyncQueue.init OfflineStorage.init tt in
  (NetworkStatus.isConnected (net w) = true ∧ isNetworkError refused = false) ∧
  fails_untouched refused w (createContainer (remote_failing refused) attic_dto w).
Proof.
  intros w. split; [by split|].
  destruct (server_rejections_propagate (remote_failing refused) "c-1" w refused
              attic_dto rename_dto item_dto eq_refl eq_refl) as [Hcreate _].
  exact (Hcreate eq_refl).
Defined.

Lemma online_writes_bypass_queue_witness :
  let w := world true SyncQueue.init OfflineStorage.init tt in
  NetworkStatus.isConnected (net w) = true ∧
  (createContainer remote_accepting attic_dto w).1 = inr attic ∧
  queue (createContainer remote_accepting attic_dto w).2 = queue w.
Proof.
  intros w. split; [done|].
  destruct (online_writes_bypass_queue remote_accepting "c-1" w
              attic_dto rename_dto item_dto eq_refl) as [Hcreate _].
  destruct (Hcreate attic eq_refl) as (Hreturned & Hqueue & _).
  by split.
Defined.

Lemma offline_create_then_drain_witness :
  let w := world false SyncQueue.init OfflineStorage.init tt in
  let getTime := λ _ : string, 0%Z in
  let w1 := (createContainer remote_accepting attic_dto w).2 in
  (NetworkStatus.isConnected (net w) = false ∧ getQueue (queue w) = [] ∧
   isSyncing (queue w) = false) ∧
  (processSyncQueue remote_accepting getTime online w1).1 =
    {| success := 1; failed := 0 |} ∧
  attic ∈ OfflineStorage.getContainers
            (cache (ext (processSyncQueue remote_accepting getTime online w1).2)).
Proof.
  intros w getTime w1. split; [by split_and!|].
  destruct (offline_create_then_drain remote_accepting getTime attic_dto w
              online attic tt eq_refl eq_refl eq_refl eq_refl eq_refl)
    as (temp & _ & _ & _ & _ & Hcounts & _ & _ & Hcached & _).
  by split.
Defined.

Lemma three_syncs_empty_the_queue_witness :
  let w := world true {| stored := Some [pending_rename]; isSyncing := false |}
             OfflineStorage.init tt in
  let getTime := λ _ : string, 0%Z in
  let remote := remote_failing unreachable in
  (isSyncing (queue w) = false ∧ NoDup (op_id <$> getQueue (queue w))) ∧
  getQueue (queue (processSyncQueue remote getTime online
                     (processSyncQueue remote getTime online
                        (processSyncQueue remote getTime online w).2).2).2) = [].
Proof.
  intros w getTime remote.
  assert (NoDup (op_id <$> getQueue (queue w))) as Hnd by apply NoDup_singleton.
  split; [by split|].
  exact (three_syncs_empty_the_queue remote getTime online online online w
           eq_refl Hnd eq_refl eq_refl eq_refl).
Defined.

Lemma reads_serve_last_response_witness :
  let w := world false SyncQueue.init OfflineStorage.init true in
  isNetworkError unreachable = true ∧
  (getContainers reads_once w).1 = inr [attic] ∧
  (getContainers reads_once (getContainers reads_once w).2).1 = inr [attic].
Proof.
  intros w. split; [done|].
  destruct (reads_serve_last_response reads_once "c-1" w unreachable eq_refl)
    as [Hlist _].
  exact (Hlist [attic] eq_refl eq_refl).
Defined.

Lemma offline_reads_without_cache_witness :
  let w := world true SyncQueue.init OfflineStorage.init false in
  isNetworkError unreachable = true ∧
  (getContainers reads_once w).1 = inr [] ∧
  fails_untouched unreachable w (getContainer reads_once "c-1" w).
Proof.
  intros w. split; [done|].
  destruct (offline_reads_without_cache reads_once "c-1" "qr-1" w unreachable
              eq_refl) as (Hlist & _ & _ & Hdetail & _).
  split; [exact (Hlist eq_refl eq_refl)|exact (Hdetail eq_refl eq_refl)].
Defined.

Lemma offline_writes_stamp_last_sync_witness :
  let w := world false SyncQueue.init OfflineStorage.init tt in
  NetworkStatus.isConnected (net w) = false ∧
  OfflineStorage.getLastSync (cache (ext w)) = None ∧
  OfflineStorage.getLastSync
    (cache (ext (createContainer (remote_failing unreachable) attic_dto w).2)) =
    Some "4".
Proof.
  intros w. split; [done|]. split; [done|].
  by destruct (offline_writes_stamp_last_sync (remote_failing unreachable)
                 "c-1" w attic_dto rename_dto eq_refl) as [Hcreate _].
Defined.

End ApiExtras.
